(** * Graph layout and viewport rendering of Aether-Analytica

    A shallow embedding of the two graph components of the repository:

    - [FullScreenGraph]   (the full-screen, pannable and zoomable view,
      first component of the history/graph view file), and
    - [KnowledgeGraphViz] (the compact inline preview of the analysis
      dashboard).

    Around them it embeds what shows and keeps their input: the impact
    tab of the dashboard, the image choice of the history view, the state
    and the persistence of the application shell ([App]), and the PDF
    report ([generatePDFReport]), whose jsPDF document is the list of the
    calls made on it.

    JavaScript numbers are idealised as the real numbers [R]: [Math.cos],
    [Math.sin], [Math.PI], [Math.min] and [Math.max] become [cos], [sin],
    [PI], [Rmin] and [Rmax].  A [Map<string, {x, y}>] is a [gmap] from
    strings to points, and React state is passed explicitly: a handler is a
    function from the state of the last render to the next state, and the
    component renders again before the next event is handled. *)

From Stdlib Require Import Reals Lra Lia.
From stdpp Require Import gmap strings list.

Local Open Scope R_scope.

(** ** Data model (the [GraphNode] and [GraphEdge] interfaces) *)

Module GraphNode.
Record t := { id : string; label : string; type : string }.
End GraphNode.

Module GraphEdge.
Record t := { from : string; to : string; label : string }.
End GraphEdge.

(** [{ x: number, y: number }] *)
Module Point.
Record t := { x : R; y : R }.
End Point.

(** [{ ...n, ...pos }]: a node together with its coordinates. *)
Module PositionedNode.
Record t := { node : GraphNode.t; pos : Point.t }.
End PositionedNode.

(** The view state [{ x, y, scale }] of the pan/zoom camera. *)
Module ViewState.
Record t := { x : R; y : R; scale : R }.
End ViewState.

(** ** JavaScript helpers *)

(** [a > b] on numbers. *)
Definition gt (a b : R) : bool := if Rlt_dec b a then true else false.

(** [a / b] read as a partial operation, which fails on the divisor zero
    (where JavaScript yields [Infinity] or [NaN]): a computation written
    with it succeeds exactly when it never divides by zero. *)
Definition checkedDiv (a b : R) : option R :=
  if Req_dec_T b 0 then None else Some (a / b).

(** [list.forEach((a, i) => ...)] where the callback updates a store. *)
Fixpoint forEach_from {A St : Type} (f : A -> nat -> St -> St)
    (i : nat) (l : list A) (s : St) : St :=
  match l with
  | [] => s
  | a :: l' => forEach_from f (S i) l' (f a i s)
  end.

Definition forEach {A St : Type} (f : A -> nat -> St -> St)
    (l : list A) (s : St) : St :=
  forEach_from f 0 l s.

(** [arr.includes(s)] on an array of strings. *)
Definition includes (arr : list string) (s : string) : bool :=
  existsb (String.eqb s) arr.

(** Truthiness of a [string | null] value: [null] and [''] are falsy. *)
Definition truthy (v : option string) : bool :=
  match v with
  | None => false
  | Some s => negb (String.eqb s "")
  end.

(** [v === s] for [v : string | null] and a string [s]. *)
Definition strictEq (v : option string) (s : string) : bool :=
  match v with
  | None => false
  | Some h => String.eqb h s
  end.

(** [nodePositions.find(n => n.id === v)] for [v : string | null]. *)
Definition findById (v : option string) (ns : list PositionedNode.t)
    : option PositionedNode.t :=
  List.find (fun n => strictEq v (GraphNode.id (PositionedNode.node n))) ns.

(** [label.length > 15 ? label.substring(0, 14) + '..' : label] *)
Definition truncateLabel (label : string) : string :=
  if (15 <? String.length label)%nat
  then String.append (String.substring 0 14 label) ".."
  else label.

(** ** The full-screen component *)

Module FullScreenGraph.

Definition width : R := 800.
Definition height : R := 600.
Definition cx : R := width / 2.
Definition cy : R := height / 2.

(** *** Smart positioning logic *)

Definition entities (nodes : list GraphNode.t) : list GraphNode.t :=
  List.filter (fun n => String.eqb (GraphNode.type n) "entity") nodes.

Definition actions (nodes : list GraphNode.t) : list GraphNode.t :=
  List.filter (fun n => String.eqb (GraphNode.type n) "action") nodes.

Definition results (nodes : list GraphNode.t) : list GraphNode.t :=
  List.filter (fun n => includes ["risk"; "outcome"] (GraphNode.type n))
    nodes.

Definition others (nodes : list GraphNode.t) : list GraphNode.t :=
  List.filter
    (fun n => negb (includes ["entity"; "action"; "risk"; "outcome"]
                      (GraphNode.type n)))
    nodes.

Definition distribute (list : list GraphNode.t) (radiusX radiusY : R)
    (startAngle : R) (posMap : gmap string Point.t)
    : gmap string Point.t :=
  let count := length list in
  if (count =? 0)%nat then posMap
  else
    let step := (2 * PI) / INR count in
    forEach
      (fun node i posMap =>
         let angle := startAngle + INR i * step - PI / 2 in
         <[ GraphNode.id node :=
              {| Point.x := cx + radiusX * cos angle;
                 Point.y := cy + radiusY * sin angle |} ]> posMap)
      list posMap.

(** [distribute] again, with the division of [step] read as the partial
    one: [None] stands for a run that divides by zero. *)
Definition distributeChecked (list : list GraphNode.t) (radiusX radiusY : R)
    (startAngle : R) (posMap : gmap string Point.t)
    : option (gmap string Point.t) :=
  let count := length list in
  if (count =? 0)%nat then Some posMap
  else
    match checkedDiv (2 * PI) (INR count) with
    | Some step =>
        Some
          (forEach
             (fun node i posMap =>
                let angle := startAngle + INR i * step - PI / 2 in
                <[ GraphNode.id node :=
                     {| Point.x := cx + radiusX * cos angle;
                        Point.y := cy + radiusY * sin angle |} ]> posMap)
             list posMap)
    | None => None
    end.

(** Layer 1: entities (center). *)
Definition layer1 (nodes : list GraphNode.t)
    (posMap : gmap string Point.t) : gmap string Point.t :=
  if (length (entities nodes) =? 1)%nat then
    match entities nodes with
    | e0 :: _ => <[ GraphNode.id e0 := {| Point.x := cx; Point.y := cy |} ]> posMap
    | [] => posMap
    end
  else distribute (entities nodes) 100 80 0 posMap.

(** Layer 2: actions. *)
Definition layer2 (nodes : list GraphNode.t)
    (posMap : gmap string Point.t) : gmap string Point.t :=
  distribute (actions nodes) 220 160 0.5 posMap.

(** The list handed to the outer ring: [[...results, ...others]]. *)
Definition ring3 (nodes : list GraphNode.t) : list GraphNode.t :=
  results nodes ++ others nodes.

(** Layer 3: results. *)
Definition layer3 (nodes : list GraphNode.t)
    (posMap : gmap string Point.t) : gmap string Point.t :=
  distribute (ring3 nodes) 320 240 1.0 posMap.

Definition posMap (nodes : list GraphNode.t) : gmap string Point.t :=
  layer3 nodes (layer2 nodes (layer1 nodes ∅)).

Definition nodePositions (nodes : list GraphNode.t)
    : list PositionedNode.t :=
  map (fun n =>
         {| PositionedNode.node := n;
            PositionedNode.pos :=
              match posMap nodes !! GraphNode.id n with
              | Some p => p
              | None => {| Point.x := cx; Point.y := cy |}
              end |})
      nodes.

Definition getNodeColor (type : string) : string :=
  if String.eqb type "risk" then "#ef4444"
  else if String.eqb type "outcome" then "#f59e0b"
  else if String.eqb type "action" then "#10b981"
  else if String.eqb type "entity" then "#06b6d4"
  else "#64748b".

(** *** Zoom and pan handlers *)

Record State := {
  hoveredNodeId : option string;
  viewState : ViewState.t;
  isDragging : bool;
  lastMousePos : Point.t
}.

Definition initial : State :=
  {| hoveredNodeId := None;
     viewState := {| ViewState.x := 0; ViewState.y := 0; ViewState.scale := 1 |};
     isDragging := false;
     lastMousePos := {| Point.x := 0; Point.y := 0 |} |}.

Definition setHoveredNodeId (v : option string) (s : State) : State :=
  {| hoveredNodeId := v;
     viewState := viewState s;
     isDragging := isDragging s;
     lastMousePos := lastMousePos s |}.

Definition setViewState (f : ViewState.t -> ViewState.t) (s : State)
    : State :=
  {| hoveredNodeId := hoveredNodeId s;
     viewState := f (viewState s);
     isDragging := isDragging s;
     lastMousePos := lastMousePos s |}.

Definition setIsDragging (b : bool) (s : State) : State :=
  {| hoveredNodeId := hoveredNodeId s;
     viewState := viewState s;
     isDragging := b;
     lastMousePos := lastMousePos s |}.

Definition setLastMousePos (p : Point.t) (s : State) : State :=
  {| hoveredNodeId := hoveredNodeId s;
     viewState := viewState s;
     isDragging := isDragging s;
     lastMousePos := p |}.

Definition handleWheel (deltaY : R) (s : State) : State :=
  let delta := - deltaY * 0.001 in
  let newScale :=
    Rmin (Rmax 0.2 (ViewState.scale (viewState s) + delta)) 4 in
  setViewState
    (fun prev => {| ViewState.x := ViewState.x prev;
                    ViewState.y := ViewState.y prev;
                    ViewState.scale := newScale |})
    s.

Definition handleMouseDown (clientX clientY : R) (s : State) : State :=
  setLastMousePos {| Point.x := clientX; Point.y := clientY |}
    (setIsDragging true s).

Definition handleMouseMove (clientX clientY : R) (s : State) : State :=
  if negb (isDragging s) then s
  else
    let dx := clientX - Point.x (lastMousePos s) in
    let dy := clientY - Point.y (lastMousePos s) in
    setViewState
      (fun prev => {| ViewState.x := ViewState.x prev + dx;
                      ViewState.y := ViewState.y prev + dy;
                      ViewState.scale := ViewState.scale prev |})
      (setLastMousePos {| Point.x := clientX; Point.y := clientY |} s).

Definition handleMouseUp (s : State) : State :=
  setIsDragging false s.

Definition resetView (s : State) : State :=
  setViewState
    (fun _ => {| ViewState.x := 0; ViewState.y := 0; ViewState.scale := 1 |})
    s.

Definition zoomIn (s : State) : State :=
  setViewState
    (fun prev => {| ViewState.x := ViewState.x prev;
                    ViewState.y := ViewState.y prev;
                    ViewState.scale := Rmin (ViewState.scale prev + 0.2) 4 |})
    s.

Definition zoomOut (s : State) : State :=
  setViewState
    (fun prev => {| ViewState.x := ViewState.x prev;
                    ViewState.y := ViewState.y prev;
                    ViewState.scale := Rmax (ViewState.scale prev - 0.2) 0.2 |})
    s.

(** The handlers attached to the group of one node. *)
Definition onMouseEnter (node : GraphNode.t) (s : State) : State :=
  setHoveredNodeId (Some (GraphNode.id node)) s.

Definition onMouseLeave (node : GraphNode.t) (s : State) : State :=
  setHoveredNodeId None s.

(** The events the component listens to, and their dispatch. *)
Inductive Event :=
| Wheel (deltaY : R)
| MouseDown (clientX clientY : R)
| MouseMove (clientX clientY : R)
| MouseUp
| MouseLeave
| ClickZoomIn
| ClickZoomOut
| ClickResetView
| NodeMouseEnter (node : GraphNode.t)
| NodeMouseLeave (node : GraphNode.t).

Definition handle (e : Event) (s : State) : State :=
  match e with
  | Wheel deltaY => handleWheel deltaY s
  | MouseDown clientX clientY => handleMouseDown clientX clientY s
  | MouseMove clientX clientY => handleMouseMove clientX clientY s
  | MouseUp => handleMouseUp s
  | MouseLeave => handleMouseUp s
  | ClickZoomIn => zoomIn s
  | ClickZoomOut => zoomOut s
  | ClickResetView => resetView s
  | NodeMouseEnter node => onMouseEnter node s
  | NodeMouseLeave node => onMouseLeave node s
  end.

(** The states after each event of a sequence, in order. *)
Fixpoint trace (s : State) (es : list Event) : list State :=
  match es with
  | [] => []
  | e :: es' => handle e s :: trace (handle e s) es'
  end.

(** *** Rendering *)

Module SvgText.
Record t := { x : R; y : R; fill : string; fontSize : R; text : string }.
End SvgText.

(** The group of one edge: a line and, when shown, its label. *)
Module EdgeGroup.
Record t := {
  opacity : R;
  x1 : R; y1 : R; x2 : R; y2 : R;
  stroke : string;
  strokeWidth : R;
  label : option SvgText.t
}.
End EdgeGroup.

Module Circle.
Record t := { cx : R; cy : R; r : R; fill : string; stroke : string;
              strokeWidth : R }.
End Circle.

(** The group of one node: outer ring, main circle, label when shown. *)
Module NodeGroup.
Record t := {
  key : string;
  opacity : R;
  ring : Circle.t;
  circle : Circle.t;
  label : option SvgText.t
}.
End NodeGroup.

(** The static overlay of the hovered node. *)
Module Tooltip.
Record t := {
  translate : Point.t;
  stroke : string;
  title : string;
  subtitle : string;
  hint : string
}.
(** The texts the panel shows. *)
Definition texts (tt : t) : list string :=
  [title tt; subtitle tt; hint tt].
End Tooltip.

Module Scene.
Record t := {
  (** [translate(x, y) scale(scale)] of the dynamic transform group *)
  transform : ViewState.t;
  (** children of the transform group; [None] is a [null] child *)
  edges : list (option EdgeGroup.t);
  nodes : list NodeGroup.t;
  (** child of the [svg] element itself *)
  tooltip : option Tooltip.t
}.
End Scene.

Definition activeNode (s : State) (nodePositions : list PositionedNode.t)
    : option PositionedNode.t :=
  findById (hoveredNodeId s) nodePositions.

Definition renderEdge (s : State) (nodePositions : list PositionedNode.t)
    (edge : GraphEdge.t) : option EdgeGroup.t :=
  let start :=
    List.find (fun n => String.eqb (GraphNode.id (PositionedNode.node n))
                          (GraphEdge.from edge)) nodePositions in
  let end_ :=
    List.find (fun n => String.eqb (GraphNode.id (PositionedNode.node n))
                          (GraphEdge.to edge)) nodePositions in
  match start, end_ with
  | Some start, Some end_ =>
      let isConnectedToHover :=
        truthy (hoveredNodeId s)
        && (strictEq (hoveredNodeId s) (GraphEdge.from edge)
            || strictEq (hoveredNodeId s) (GraphEdge.to edge)) in
      let scale := ViewState.scale (viewState s) in
      let sx := Point.x (PositionedNode.pos start) in
      let sy := Point.y (PositionedNode.pos start) in
      let ex := Point.x (PositionedNode.pos end_) in
      let ey := Point.y (PositionedNode.pos end_) in
      Some
        {| EdgeGroup.opacity :=
             if truthy (hoveredNodeId s) && negb isConnectedToHover
             then 0.1 else 1;
           EdgeGroup.x1 := sx; EdgeGroup.y1 := sy;
           EdgeGroup.x2 := ex; EdgeGroup.y2 := ey;
           EdgeGroup.stroke :=
             if isConnectedToHover then "#22d3ee"
             else "url(#edgeGradientFS)";
           EdgeGroup.strokeWidth :=
             if isConnectedToHover then 3 / scale else 1.5 / scale;
           EdgeGroup.label :=
             if (negb (truthy (hoveredNodeId s)) || isConnectedToHover)
                && gt scale 0.6
             then Some {| SvgText.x := (sx + ex) / 2;
                          SvgText.y := (sy + ey) / 2;
                          SvgText.fill :=
                            if isConnectedToHover then "#22d3ee"
                            else "#64748b";
                          SvgText.fontSize := 10 / scale + 2;
                          SvgText.text := GraphEdge.label edge |}
             else None |}
  | _, _ => None
  end.

Definition renderNode (s : State) (node : PositionedNode.t)
    : NodeGroup.t :=
  let n := PositionedNode.node node in
  let x := Point.x (PositionedNode.pos node) in
  let y := Point.y (PositionedNode.pos node) in
  let isHovered := strictEq (hoveredNodeId s) (GraphNode.id n) in
  let isDimmed :=
    truthy (hoveredNodeId s)
    && negb (strictEq (hoveredNodeId s) (GraphNode.id n)) in
  let scale := ViewState.scale (viewState s) in
  {| NodeGroup.key := GraphNode.id n;
     NodeGroup.opacity := if isDimmed then 0.3 else 1;
     NodeGroup.ring :=
       {| Circle.cx := x; Circle.cy := y;
          Circle.r := if isHovered then 32 else 0;
          Circle.fill := "none";
          Circle.stroke := getNodeColor (GraphNode.type n);
          Circle.strokeWidth := 1 / scale |};
     NodeGroup.circle :=
       {| Circle.cx := x; Circle.cy := y;
          Circle.r := if isHovered then 18 else 14;
          Circle.fill := if isHovered then "#fff" else "#0f172a";
          Circle.stroke := getNodeColor (GraphNode.type n);
          Circle.strokeWidth := if isHovered then 0 else 2 |};
     NodeGroup.label :=
       if gt scale 0.4
       then Some {| SvgText.x := x;
                    SvgText.y := y + 35;
                    SvgText.fill := if isHovered then "white" else "#cbd5e1";
                    SvgText.fontSize :=
                      (if isHovered then 16 else 12) / scale + 2;
                    SvgText.text := GraphNode.label n |}
       else None |}.

Definition renderTooltip (activeNode : option PositionedNode.t)
    : option Tooltip.t :=
  match activeNode with
  | Some activeNode =>
      let n := PositionedNode.node activeNode in
      Some {| Tooltip.translate := {| Point.x := 20; Point.y := 20 |};
              Tooltip.stroke := getNodeColor (GraphNode.type n);
              Tooltip.title := GraphNode.label n;
              Tooltip.subtitle := GraphNode.type n;
              Tooltip.hint := "Double click to focus" |}
  | None => None
  end.

Definition render (nodes : list GraphNode.t) (edges : list GraphEdge.t)
    (s : State) : Scene.t :=
  let nodePositions := nodePositions nodes in
  {| Scene.transform := viewState s;
     Scene.edges := map (renderEdge s nodePositions) edges;
     Scene.nodes := map (renderNode s) nodePositions;
     Scene.tooltip := renderTooltip (activeNode s nodePositions) |}.

End FullScreenGraph.

(** ** The compact component *)

Module KnowledgeGraphViz.

Definition width : R := 400.
Definition height : R := 300.
Definition cx : R := width / 2.
Definition cy : R := height / 2.

(** *** Smart concentric layout *)

Definition entities (nodes : list GraphNode.t) : list GraphNode.t :=
  List.filter (fun n => String.eqb (GraphNode.type n) "entity") nodes.

Definition actions (nodes : list GraphNode.t) : list GraphNode.t :=
  List.filter (fun n => String.eqb (GraphNode.type n) "action") nodes.

Definition risks (nodes : list GraphNode.t) : list GraphNode.t :=
  List.filter (fun n => String.eqb (GraphNode.type n) "risk") nodes.

Definition outcomes (nodes : list GraphNode.t) : list GraphNode.t :=
  List.filter (fun n => String.eqb (GraphNode.type n) "outcome") nodes.

Definition others (nodes : list GraphNode.t) : list GraphNode.t :=
  List.filter
    (fun n => negb (includes ["entity"; "action"; "risk"; "outcome"]
                      (GraphNode.type n)))
    nodes.

Definition distribute (list : list GraphNode.t) (radius : R)
    (startAngle : R) (posMap : gmap string Point.t)
    : gmap string Point.t :=
  let count := length list in
  if (count =? 0)%nat then posMap
  else
    let step := (2 * PI) / INR count in
    forEach
      (fun node i posMap =>
         let angle := startAngle + INR i * step - PI / 2 in
         <[ GraphNode.id node :=
              {| Point.x := cx + radius * cos angle;
                 Point.y := cy + radius * sin angle |} ]> posMap)
      list posMap.

(** [distribute] again, with the division of [step] read as the partial
    one: [None] stands for a run that divides by zero. *)
Definition distributeChecked (list : list GraphNode.t) (radius : R)
    (startAngle : R) (posMap : gmap string Point.t)
    : option (gmap string Point.t) :=
  let count := length list in
  if (count =? 0)%nat then Some posMap
  else
    match checkedDiv (2 * PI) (INR count) with
    | Some step =>
        Some
          (forEach
             (fun node i posMap =>
                let angle := startAngle + INR i * step - PI / 2 in
                <[ GraphNode.id node :=
                     {| Point.x := cx + radius * cos angle;
                        Point.y := cy + radius * sin angle |} ]> posMap)
             list posMap)
    | None => None
    end.

(** Layer 1: entities (center). *)
Definition layer1 (nodes : list GraphNode.t)
    (posMap : gmap string Point.t) : gmap string Point.t :=
  if (length (entities nodes) =? 1)%nat then
    match entities nodes with
    | e0 :: _ => <[ GraphNode.id e0 := {| Point.x := cx; Point.y := cy |} ]> posMap
    | [] => posMap
    end
  else distribute (entities nodes) 40 0 posMap.

(** Layer 2: actions (middle ring). *)
Definition layer2 (nodes : list GraphNode.t)
    (posMap : gmap string Point.t) : gmap string Point.t :=
  distribute (actions nodes) 90 0.5 posMap.

(** The list handed to the outer ring:
    [[...risks, ...outcomes, ...others]]. *)
Definition ring3 (nodes : list GraphNode.t) : list GraphNode.t :=
  risks nodes ++ outcomes nodes ++ others nodes.

(** Layer 3: outcomes and risks (outer ring). *)
Definition layer3 (nodes : list GraphNode.t)
    (posMap : gmap string Point.t) : gmap string Point.t :=
  distribute (ring3 nodes) 130 1.0 posMap.

Definition posMap (nodes : list GraphNode.t) : gmap string Point.t :=
  layer3 nodes (layer2 nodes (layer1 nodes ∅)).

Definition nodePositions (nodes : list GraphNode.t)
    : list PositionedNode.t :=
  map (fun n =>
         {| PositionedNode.node := n;
            PositionedNode.pos :=
              match posMap nodes !! GraphNode.id n with
              | Some p => p
              | None => {| Point.x := cx; Point.y := cy |}
              end |})
      nodes.

Definition getNodeColor (type : string) : string :=
  if String.eqb type "risk" then "#ef4444"
  else if String.eqb type "outcome" then "#f59e0b"
  else if String.eqb type "action" then "#10b981"
  else if String.eqb type "entity" then "#06b6d4"
  else "#94a3b8".

(** *** Hover state *)

Record State := { hoveredNodeId : option string }.

Definition initial : State := {| hoveredNodeId := None |}.

Definition setHoveredNodeId (v : option string) (s : State) : State :=
  {| hoveredNodeId := v |}.

(** The handlers attached to the group of one node. *)
Definition onMouseEnter (node : GraphNode.t) (s : State) : State :=
  setHoveredNodeId (Some (GraphNode.id node)) s.

Definition onMouseLeave (node : GraphNode.t) (s : State) : State :=
  setHoveredNodeId None s.

(** *** Rendering *)

(** The group of one edge: a single line. *)
Module EdgeGroup.
Record t := {
  x1 : R; y1 : R; x2 : R; y2 : R;
  stroke : string;
  strokeWidth : R;
  strokeOpacity : R
}.
End EdgeGroup.

Module Circle.
Record t := { cx : R; cy : R; r : R; fill : string; stroke : string;
              strokeWidth : R }.
End Circle.

(** The group of one node: outer glow ring and main circle. *)
Module NodeGroup.
Record t := {
  key : string;
  opacity : R;
  ring : Circle.t;
  circle : Circle.t
}.
End NodeGroup.

(** The tooltip drawn last, above the hovered node. *)
Module Tooltip.
Record t := {
  translate : Point.t;
  stroke : string;
  text : string
}.
(** The texts the panel shows. *)
Definition texts (tt : t) : list string := [text tt].
End Tooltip.

Module Scene.
Record t := {
  (** children of the [svg] element; [None] is a [null] child *)
  edges : list (option EdgeGroup.t);
  nodes : list NodeGroup.t;
  tooltip : option Tooltip.t
}.
End Scene.

Definition activeNode (s : State) (nodePositions : list PositionedNode.t)
    : option PositionedNode.t :=
  findById (hoveredNodeId s) nodePositions.

Definition renderEdge (s : State) (nodePositions : list PositionedNode.t)
    (edge : GraphEdge.t) : option EdgeGroup.t :=
  let start :=
    List.find (fun n => String.eqb (GraphNode.id (PositionedNode.node n))
                          (GraphEdge.from edge)) nodePositions in
  let end_ :=
    List.find (fun n => String.eqb (GraphNode.id (PositionedNode.node n))
                          (GraphEdge.to edge)) nodePositions in
  match start, end_ with
  | Some start, Some end_ =>
      let isConnectedToHover :=
        truthy (hoveredNodeId s)
        && (strictEq (hoveredNodeId s) (GraphEdge.from edge)
            || strictEq (hoveredNodeId s) (GraphEdge.to edge)) in
      Some
        {| EdgeGroup.x1 := Point.x (PositionedNode.pos start);
           EdgeGroup.y1 := Point.y (PositionedNode.pos start);
           EdgeGroup.x2 := Point.x (PositionedNode.pos end_);
           EdgeGroup.y2 := Point.y (PositionedNode.pos end_);
           EdgeGroup.stroke :=
             if isConnectedToHover then "#22d3ee"
             else "url(#edgeGradient)";
           EdgeGroup.strokeWidth := if isConnectedToHover then 2 else 1;
           EdgeGroup.strokeOpacity :=
             if truthy (hoveredNodeId s) && negb isConnectedToHover
             then 0.1 else 1 |}
  | _, _ => None
  end.

Definition renderNode (s : State) (node : PositionedNode.t)
    : NodeGroup.t :=
  let n := PositionedNode.node node in
  let x := Point.x (PositionedNode.pos node) in
  let y := Point.y (PositionedNode.pos node) in
  let isHovered := strictEq (hoveredNodeId s) (GraphNode.id n) in
  let isDimmed :=
    truthy (hoveredNodeId s)
    && negb (strictEq (hoveredNodeId s) (GraphNode.id n)) in
  {| NodeGroup.key := GraphNode.id n;
     NodeGroup.opacity := if isDimmed then 0.2 else 1;
     NodeGroup.ring :=
       {| Circle.cx := x; Circle.cy := y;
          Circle.r := if isHovered then 16 else 0;
          Circle.fill := "none";
          Circle.stroke := getNodeColor (GraphNode.type n);
          Circle.strokeWidth := 1 |};
     NodeGroup.circle :=
       {| Circle.cx := x; Circle.cy := y;
          Circle.r := if isHovered then 10 else 6;
          Circle.fill := if isHovered then "#fff" else "#0f172a";
          Circle.stroke := getNodeColor (GraphNode.type n);
          Circle.strokeWidth := if isHovered then 0 else 2 |} |}.

Definition renderTooltip (activeNode : option PositionedNode.t)
    : option Tooltip.t :=
  match activeNode with
  | Some activeNode =>
      let n := PositionedNode.node activeNode in
      Some {| Tooltip.translate :=
                {| Point.x := Point.x (PositionedNode.pos activeNode);
                   Point.y := Point.y (PositionedNode.pos activeNode) - 20 |};
              Tooltip.stroke := getNodeColor (GraphNode.type n);
              Tooltip.text := truncateLabel (GraphNode.label n) |}
  | None => None
  end.

Definition render (nodes : list GraphNode.t) (edges : list GraphEdge.t)
    (s : State) : Scene.t :=
  let nodePositions := nodePositions nodes in
  {| Scene.edges := map (renderEdge s nodePositions) edges;
     Scene.nodes := map (renderNode s) nodePositions;
     Scene.tooltip := renderTooltip (activeNode s nodePositions) |}.

End KnowledgeGraphViz.

(** * The dashboard, the history view and the application shell *)

(** ** The analysis result and the history (the shared interfaces) *)

Module Consequence.
Record t := { domain : string; prediction : string; severity : string;
              timeframe : string }.
End Consequence.

Module MergeConnection.
Record t := { type : string; source1 : string; source2 : string;
              insight : string }.
End MergeConnection.

Module KnowledgeGraph.
Record t := { nodes : list GraphNode.t; edges : list GraphEdge.t }.
End KnowledgeGraph.

(** The fields of [AnalysisResult] that the modelled functions read.  The
    code guards [risks], [opportunities], [consequences],
    [mergeConnections] and [knowledgeGraph] against [undefined], which is
    [None] here. *)
Module AnalysisResult.
Record t := {
  category : string;
  summary : string;
  score : R;
  insights : list string;
  actionPlan : list string;
  risks : option (list string);
  opportunities : option (list string);
  consequences : option (list Consequence.t);
  mergeConnections : option (list MergeConnection.t);
  knowledgeGraph : option KnowledgeGraph.t
}.
End AnalysisResult.

Module ChatMessage.
Record t := { id : string; role : string; text : string }.
End ChatMessage.

(** [image] is [string | null | undefined] and [images], [chatHistory] may
    be [undefined]; the code tells [null] and [undefined] apart nowhere, so
    both are [None]. *)
Module HistoryItem.
Record t := {
  id : string;
  timestamp : string;
  result : AnalysisResult.t;
  image : option string;
  images : option (list string);
  chatHistory : option (list ChatMessage.t)
}.
End HistoryItem.

Module InputItem.
Record t := { id : string; type : string; content : string }.
End InputItem.

(** Truthiness of a string: [''] is falsy. *)
Definition nonEmpty (s : string) : bool := negb (String.eqb s "").

(** [item.image ? [item.image] : []] *)
Definition legacyImage (image : option string) : list string :=
  match image with
  | Some i => if nonEmpty i then [i] else []
  | None => []
  end.

(** ** The impact tab of the dashboard *)

Module AnalysisDashboard.

Module Card.
Record t := { domain : string; prediction : string; border : string }.
End Card.

(** One column of the impact tab: its cards and, when shown, the line
    that says the column is empty. *)
Module Column.
Record t := { cards : list Card.t; emptyMessage : option string }.
End Column.

Definition column (timeframe color message : string)
    (consequences : option (list Consequence.t)) : Column.t :=
  {| Column.cards :=
       match consequences with
       | Some cs =>
           map (fun cons =>
                  {| Card.domain := Consequence.domain cons;
                     Card.prediction := Consequence.prediction cons;
                     Card.border :=
                       if String.eqb (Consequence.severity cons) "high"
                       then "border-l-4 border-l-red-500" else color |})
               (List.filter
                  (fun c => String.eqb (Consequence.timeframe c) timeframe)
                  cs)
       | None => []
       end;
     Column.emptyMessage :=
       if negb (match consequences with
                | Some cs =>
                    existsb
                      (fun c =>
                         String.eqb (Consequence.timeframe c) timeframe)
                      cs
                | None => false
                end)
       then Some message else None |}.

Module ImpactTab.
Record t := {
  immediate : Column.t;
  short_term : Column.t;
  long_term : Column.t;
  legacyFallback : bool
}.
End ImpactTab.

Definition impactTab (result : AnalysisResult.t) : ImpactTab.t :=
  let consequences := AnalysisResult.consequences result in
  {| ImpactTab.immediate :=
       column "immediate" "border-l-4 border-l-cyan-500"
         "No immediate impacts detected." consequences;
     ImpactTab.short_term :=
       column "short_term" "border-l-4 border-l-blue-500"
         "No short term impacts detected." consequences;
     ImpactTab.long_term :=
       column "long_term" "border-l-4 border-l-purple-500"
         "No long term impacts detected." consequences;
     ImpactTab.legacyFallback :=
       match consequences with Some _ => false | None => true end |}.

End AnalysisDashboard.

(** ** The history view *)

Module HistoryView.

(** [item.images || (item.image ? [item.image] : [])]: the images handed
    to the PDF report by the download button of a history card. *)
Definition pdfImages (item : HistoryItem.t) : list string :=
  match HistoryItem.images item with
  | Some images => images
  | None => legacyImage (HistoryItem.image item)
  end.

End HistoryView.

(** ** The application shell *)

Module App.

Record State := {
  isAnalyzing : bool;
  result : option AnalysisResult.t;
  error : option string;
  userImages : list string;
  currentView : string;
  history : list HistoryItem.t;
  activeHistoryItem : option HistoryItem.t;
  (** the entry [aether_history] of [localStorage] *)
  storage : option string
}.

Section Persistence.

(** [JSON.stringify] on the history, and [JSON.parse] followed by the
    re-hydration of the timestamps; [None] when one of them throws. *)
Variable stringify : list HistoryItem.t -> string.
Variable parse : string -> option (list HistoryItem.t).

(** The history that the load effect finds at mount. *)
Definition loadHistory (saved : option string) : list HistoryItem.t :=
  match saved with
  | Some text =>
      if nonEmpty text then
        match parse text with
        | Some hydrated => hydrated
        | None => []
        end
      else []
  | None => []
  end.

(** The save effect: [localStorage.setItem] when the history is not
    empty. *)
Definition saveEffect (s : State) : State :=
  if (0 <? length (history s))%nat then
    {| isAnalyzing := isAnalyzing s; result := result s; error := error s;
       userImages := userImages s; currentView := currentView s;
       history := history s; activeHistoryItem := activeHistoryItem s;
       storage := Some (stringify (history s)) |}
  else s.

(** The state once the component is mounted: the load effect has set the
    history, and the save effect has run on it. *)
Definition mount (saved : option string) : State :=
  saveEffect
    {| isAnalyzing := false; result := None; error := None;
       userImages := []; currentView := "dashboard";
       history := loadHistory saved;
       activeHistoryItem := None;
       storage := saved |}.

(** [handleAnalyze] up to its [await]. *)
Definition analyzeStarted (inputs : list InputItem.t) (s : State) : State :=
  let images :=
    map InputItem.content
      (List.filter (fun i => String.eqb (InputItem.type i) "image") inputs) in
  {| isAnalyzing := true; result := None; error := None;
     userImages := images; currentView := currentView s;
     history := history s; activeHistoryItem := activeHistoryItem s;
     storage := storage s |}.

(** The item that [handleAnalyze] files for a finished analysis;
    [image: images[0] || null]. *)
Definition newItem (images : list string) (analysis : AnalysisResult.t)
    (now date : string) : HistoryItem.t :=
  {| HistoryItem.id := now;
     HistoryItem.timestamp := date;
     HistoryItem.result := analysis;
     HistoryItem.image :=
       match images with
       | i0 :: _ => if nonEmpty i0 then Some i0 else None
       | [] => None
       end;
     HistoryItem.images := Some images;
     HistoryItem.chatHistory := Some [] |}.

(** [handleAnalyze] after its [await], when the analysis came back;
    [images] is the list of the call that started it. *)
Definition analyzeSucceeded (images : list string)
    (analysis : AnalysisResult.t) (now date : string) (s : State) : State :=
  let item := newItem images analysis now date in
  {| isAnalyzing := false; result := Some analysis; error := error s;
     userImages := userImages s; currentView := currentView s;
     history := item :: history s;
     activeHistoryItem := Some item;
     storage := storage s |}.

(** [handleAnalyze] after its [await], when the analysis threw. *)
Definition analyzeFailed (s : State) : State :=
  {| isAnalyzing := false; result := result s;
     error :=
       Some "Analysis interrupted. Please check your API key or connection.";
     userImages := userImages s; currentView := currentView s;
     history := history s; activeHistoryItem := activeHistoryItem s;
     storage := storage s |}.

Definition handleNewAnalysis (s : State) : State :=
  {| isAnalyzing := false; result := None; error := None;
     userImages := []; currentView := "dashboard";
     history := history s; activeHistoryItem := None;
     storage := storage s |}.

Definition handleNavigate (view : string) (s : State) : State :=
  {| isAnalyzing := isAnalyzing s; result := result s; error := error s;
     userImages := userImages s; currentView := view;
     history := history s;
     activeHistoryItem :=
       match activeHistoryItem s, history s with
       | None, first :: _ =>
           if String.eqb view "graph" then Some first else None
       | active, _ => active
       end;
     storage := storage s |}.

(** The images that [loadHistoryItem] shows:
    [item.images && item.images.length > 0 ? item.images
     : (item.image ? [item.image] : [])]. *)
Definition loadedImages (item : HistoryItem.t) : list string :=
  match HistoryItem.images item with
  | Some images =>
      if (0 <? length images)%nat then images
      else legacyImage (HistoryItem.image item)
  | None => legacyImage (HistoryItem.image item)
  end.

Definition loadHistoryItem (item : HistoryItem.t) (s : State) : State :=
  {| isAnalyzing := isAnalyzing s;
     result := Some (HistoryItem.result item);
     error := error s;
     userImages := loadedImages item; currentView := "dashboard";
     history := history s; activeHistoryItem := Some item;
     storage := storage s |}.

(** [{ ...item, chatHistory: messages }] *)
Definition withChat (messages : list ChatMessage.t) (item : HistoryItem.t)
    : HistoryItem.t :=
  {| HistoryItem.id := HistoryItem.id item;
     HistoryItem.timestamp := HistoryItem.timestamp item;
     HistoryItem.result := HistoryItem.result item;
     HistoryItem.image := HistoryItem.image item;
     HistoryItem.images := HistoryItem.images item;
     HistoryItem.chatHistory := Some messages |}.

(** The update of the history list in [handleChatUpdate]. *)
Definition updateChat (historyId : string) (messages : list ChatMessage.t)
    (history : list HistoryItem.t) : list HistoryItem.t :=
  map (fun item =>
         if String.eqb (HistoryItem.id item) historyId
         then withChat messages item else item)
      history.

(** [handleChatUpdate]; [seen] is the [activeHistoryItem] of the render
    whose closure is called (the assistant calls it back after an
    [await], so it need not be the current one). *)
Definition handleChatUpdate (seen : option HistoryItem.t)
    (historyId : string) (messages : list ChatMessage.t) (s : State)
    : State :=
  {| isAnalyzing := isAnalyzing s; result := result s; error := error s;
     userImages := userImages s; currentView := currentView s;
     history := updateChat historyId messages (history s);
     activeHistoryItem :=
       match seen with
       | Some a =>
           if String.eqb (HistoryItem.id a) historyId
           then option_map (withChat messages) (activeHistoryItem s)
           else activeHistoryItem s
       | None => activeHistoryItem s
       end;
     storage := storage s |}.

(** [handleClearHistory]; [confirmed] is the answer to the dialog. *)
Definition handleClearHistory (confirmed : bool) (s : State) : State :=
  if confirmed then
    {| isAnalyzing := isAnalyzing s; result := None; error := error s;
       userImages := userImages s; currentView := "dashboard";
       history := []; activeHistoryItem := None;
       storage := None |}
  else s.

Inductive Event :=
| AnalyzeStarted (inputs : list InputItem.t)
| AnalyzeSucceeded (images : list string) (analysis : AnalysisResult.t)
    (now date : string)
| AnalyzeFailed
| NewAnalysis
| Navigate (view : string)
| LoadHistoryItem (item : HistoryItem.t)
| ChatUpdate (seen : option HistoryItem.t) (historyId : string)
    (messages : list ChatMessage.t)
| ClearHistory (confirmed : bool).

Definition handle (e : Event) (s : State) : State :=
  match e with
  | AnalyzeStarted inputs => analyzeStarted inputs s
  | AnalyzeSucceeded images analysis now date =>
      analyzeSucceeded images analysis now date s
  | AnalyzeFailed => analyzeFailed s
  | NewAnalysis => handleNewAnalysis s
  | Navigate view => handleNavigate view s
  | LoadHistoryItem item => loadHistoryItem item s
  | ChatUpdate seen historyId messages =>
      handleChatUpdate seen historyId messages s
  | ClearHistory confirmed => handleClearHistory confirmed s
  end.

(** The handlers that call [setHistory]; the save effect depends on the
    history and runs after the renders they cause. *)
Definition setsHistory (e : Event) : bool :=
  match e with
  | AnalyzeSucceeded _ _ _ _ => true
  | ChatUpdate _ _ _ => true
  | ClearHistory confirmed => confirmed
  | _ => false
  end.

(** One event: its handler, then the effects of the render that
    follows. *)
Definition step (s : State) (e : Event) : State :=
  if setsHistory e then saveEffect (handle e s) else handle e s.

(** The state after a sequence of events. *)
Definition run (s : State) (es : list Event) : State := fold_left step es s.

End Persistence.

End App.

(** * The PDF report *)

Module Pdf.

(** The calls that [generatePDFReport] makes on the jsPDF document. *)
Inductive Call :=
| SetFillColor (r g b : nat)
| SetDrawColor (r g b : nat)
| SetTextColor (r g b : nat)
| SetFontSize (size : R)
| SetFont (family style : string)
| Rect (x y w h : R) (style : option string)
| RoundedRect (x y w h rx ry : R) (style : string)
| Text (text : list string) (x y : R) (align : option string)
| AddImage (imageData format : string) (x y w h : R)
| AddPage
| SetPage (n : nat)
| Save (filename : string).

(** The document: the calls made so far, in order, the number of pages
    and the page the next call draws on.  [doc.text] takes a string or the
    lines of a wrapped text; a string is a one-line text here. *)
Record Doc := { calls : list Call; pages : nat; page : nat }.

(** [new jsPDF()]: one empty page. *)
Definition newDoc : Doc := {| calls := []; pages := 1; page := 1 |}.

(** A call on the document; [addPage] appends a page and moves to it,
    [setPage] moves to a page. *)
Definition call (c : Call) (d : Doc) : Doc :=
  {| calls := calls d ++ [c];
     pages := match c with AddPage => S (pages d) | _ => pages d end;
     page := match c with
             | AddPage => S (pages d)
             | SetPage n => n
             | _ => page d
             end |}.

(** The state of the generator: the document and the cursor. *)
Record St := { doc : Doc; cursorY : R }.

Definition emit (c : Call) (st : St) : St :=
  {| doc := call c (doc st); cursorY := cursorY st |}.

Definition setCursorY (y : R) (st : St) : St :=
  {| doc := doc st; cursorY := y |}.

Definition isAddPage (c : Call) : bool :=
  match c with AddPage => true | _ => false end.

Definition isRoundedRect (c : Call) : bool :=
  match c with RoundedRect _ _ _ _ _ _ _ => true | _ => false end.

(** The calls that set a style, or draw a rectangle or a text. *)
Definition plain (c : Call) : bool :=
  match c with
  | SetFillColor _ _ _ | SetDrawColor _ _ _ | SetTextColor _ _ _
  | SetFontSize _ | SetFont _ _ | Rect _ _ _ _ _ | Text _ _ _ _ => true
  | _ => false
  end.

(** A sequence of calls on the document. *)
Definition draw (cs : list Call) (d : Doc) : Doc :=
  fold_left (fun d c => call c d) cs d.

(** The document of [st'] is the one of [st] after more calls, each of
    them satisfying [P]. *)
Definition extends (P : Call -> Prop) (st st' : St) : Prop :=
  exists tail, doc st' = draw tail (doc st) /\ Forall P tail.

Section Generator.

(** The page size of the document, and what the generator takes from
    jsPDF and the platform: text wrapping (which may depend on the state
    of the document), the size of an image ([None] when it throws),
    whether [addImage] accepts the data, the date, and the conversions to
    strings and to upper case. *)
Variable PAGE_HEIGHT PAGE_WIDTH : R.
Variable splitTextToSize : Doc -> string -> R -> list string.
Variable getImageProperties : string -> option (R * R).
Variable addImageOk : string -> bool.
Variable dateStr : string.
Variable numberToString : R -> string.
Variable toUpperCase : string -> string.

Definition MARGIN : R := 20.
Definition CONTENT_WIDTH : R := PAGE_WIDTH - MARGIN * 2.

(** Helper: check page break. *)
Definition checkPageBreak (neededHeight : R) (st : St) : St :=
  if gt (cursorY st + neededHeight) (PAGE_HEIGHT - MARGIN)
  then setCursorY MARGIN (emit AddPage st)
  else st.

(** Helper: add section title. *)
Definition addSectionTitle (title : string) (r g b : nat) (st : St) : St :=
  let st := checkPageBreak 15 st in
  let st := emit (SetFontSize 14) st in
  let st := emit (SetFont "helvetica" "bold") st in
  let st := emit (SetTextColor r g b) st in
  let st := emit (Text [title] MARGIN (cursorY st) None) st in
  setCursorY (cursorY st + 8) st.

(** Helper: add wrapped text. *)
Definition addBodyText (text : string) (fontSize : R) (r g b : nat)
    (st : St) : St :=
  let st := emit (SetFontSize fontSize) st in
  let st := emit (SetFont "helvetica" "normal") st in
  let st := emit (SetTextColor r g b) st in
  let lines := splitTextToSize (doc st) text CONTENT_WIDTH in
  let lineHeight := fontSize * 0.5 in
  let blockHeight := INR (length lines) * lineHeight in
  let st := checkPageBreak (blockHeight + 5) st in
  let st := emit (Text lines MARGIN (cursorY st) None) st in
  setCursorY (cursorY st + (blockHeight + 5)) st.

(** Helper: add bullet point. *)
Definition addBullet (text : string) (st : St) : St :=
  let bulletIndent := 5 in
  let lines :=
    splitTextToSize (doc st) text (CONTENT_WIDTH - bulletIndent) in
  let lineHeight := 5 in
  let blockHeight := INR (length lines) * lineHeight in
  let st := checkPageBreak (blockHeight + 2) st in
  let st := emit (SetFontSize 10) st in
  let st := emit (SetTextColor 51 65 85) st in
  let st := emit (Text ["•"] MARGIN (cursorY st) None) st in
  let st := emit (Text lines (MARGIN + bulletIndent) (cursorY st) None) st in
  setCursorY (cursorY st + (blockHeight + 2)) st.

(** [list.forEach(x => f(x))] on the generator state. *)
Definition forEachSt {A : Type} (f : A -> St -> St) (l : list A) (st : St)
    : St :=
  fold_left (fun st x => f x st) l st.

(** 1. Header. *)
Definition header (st : St) : St :=
  let st := emit (SetFillColor 15 23 42) st in
  let st := emit (Rect 0 0 PAGE_WIDTH 40 (Some "F")) st in
  let st := emit (SetTextColor 255 255 255) st in
  let st := emit (SetFontSize 22) st in
  let st := emit (SetFont "helvetica" "bold") st in
  let st := emit (Text ["AETHER ANALYTICA"] MARGIN 25 None) st in
  let st := emit (SetFontSize 10) st in
  let st := emit (SetFont "helvetica" "normal") st in
  let st := emit (SetTextColor 148 163 184) st in
  let st := emit (Text ["INTELLIGENCE REPORT"] MARGIN 33 None) st in
  let st :=
    emit (Text [dateStr] (PAGE_WIDTH - MARGIN) 25 (Some "right")) st in
  setCursorY 55 st.

(** The score badge of the image section. *)
Definition scoreBadge (score : R) (st : St) : St :=
  let st := emit (SetFillColor 241 245 249) st in
  let st := emit (SetDrawColor 203 213 225) st in
  let st :=
    emit (RoundedRect (PAGE_WIDTH - MARGIN - 60) (cursorY st) 60 30 3 3 "FD")
      st in
  let st := emit (SetTextColor 15 23 42) st in
  let st := emit (SetFontSize 10) st in
  let st :=
    emit (Text ["SCORE"] (PAGE_WIDTH - MARGIN - 30) (cursorY st + 10)
            (Some "center")) st in
  let st := emit (SetFontSize 20) st in
  let st := emit (SetFont "helvetica" "bold") st in
  let st :=
    if gt score 75 then emit (SetTextColor 16 185 129) st
    else if gt score 50 then emit (SetTextColor 245 158 11) st
    else emit (SetTextColor 239 68 68) st in
  emit (Text [numberToString score] (PAGE_WIDTH - MARGIN - 30)
          (cursorY st + 22) (Some "center")) st.

Definition COL_COUNT : nat := 2.
Definition GAP : R := 10.
Definition IMG_WIDTH : R := (CONTENT_WIDTH - GAP) / INR COL_COUNT.

(** One turn of the image loop, on the generator state and the local
    [currentRowHeight]; the [catch] leaves both as they are at the
    throw. *)
Definition placeImage (imgData : string) (i : nat) (g : St * R) : St * R :=
  match getImageProperties imgData with
  | None => g
  | Some (width, height) =>
      let st := fst g in
      let currentRowHeight := snd g in
      let ratio := width / height in
      let targetHeight := IMG_WIDTH / ratio in
      let colIndex := (i mod COL_COUNT)%nat in
      let xPos := MARGIN + INR colIndex * (IMG_WIDTH + GAP) in
      let g :=
        if (colIndex =? 0)%nat && (0 <? i)%nat then
          let st := setCursorY (cursorY st + (currentRowHeight + GAP)) st in
          let st := checkPageBreak (targetHeight + GAP) st in
          (st, 0)
        else (st, currentRowHeight) in
      let st := fst g in
      let currentRowHeight := snd g in
      let currentRowHeight :=
        if gt targetHeight currentRowHeight then targetHeight
        else currentRowHeight in
      let st :=
        if gt (cursorY st + targetHeight) (PAGE_HEIGHT - MARGIN)
        then setCursorY MARGIN (emit AddPage st)
        else st in
      if addImageOk imgData then
        let st :=
          emit (AddImage imgData "JPEG" xPos (cursorY st) IMG_WIDTH
                  targetHeight) st in
        let st := emit (SetDrawColor 200 200 200) st in
        let st :=
          emit (Rect xPos (cursorY st) IMG_WIDTH targetHeight None) st in
        (st, currentRowHeight)
      else (st, currentRowHeight)
  end.

(** 2. Image grid layout; [userImages || []]. *)
Definition imageSection (score : R) (userImages : option (list string))
    (st : St) : St :=
  let imagesToPrint :=
    match userImages with Some images => images | None => [] end in
  if (0 <? length imagesToPrint)%nat then
    let st := emit (SetFontSize 10) st in
    let st := emit (SetTextColor 100 116 139) st in
    let st :=
      emit (Text ["ANALYSIS INPUTS"] MARGIN (cursorY st - 5) None) st in
    let st := scoreBadge score st in
    let validImages :=
      List.filter
        (fun img => nonEmpty img && (100 <? String.length img)%nat)
        imagesToPrint in
    let g := forEach placeImage validImages (st, 0) in
    setCursorY (cursorY (fst g) + (snd g + 20)) (fst g)
  else setCursorY (cursorY st + 10) st.

(** 3. to 5. Summary, insights and action plan. *)
Definition summarySection (result : AnalysisResult.t) (st : St) : St :=
  let st := addSectionTitle "EXECUTIVE SUMMARY" 15 23 42 st in
  addBodyText (AnalysisResult.summary result) 11 51 65 85 st.

Definition insightsSection (result : AnalysisResult.t) (st : St) : St :=
  let st := addSectionTitle "STRATEGIC INSIGHTS" 37 99 235 st in
  let st := forEachSt addBullet (AnalysisResult.insights result) st in
  setCursorY (cursorY st + 5) st.

Definition actionsSection (result : AnalysisResult.t) (st : St) : St :=
  let st := addSectionTitle "RECOMMENDED ACTIONS" 16 185 129 st in
  let st := forEachSt addBullet (AnalysisResult.actionPlan result) st in
  setCursorY (cursorY st + 5) st.

(** [labels[tf] || tf] *)
Definition timeframeLabel (tf : string) : string :=
  if String.eqb tf "immediate" then "Immediate (1 Week)"
  else if String.eqb tf "short_term" then "Short Term (1 Month)"
  else if String.eqb tf "long_term" then "Long Term (1 Year)"
  else tf.

Definition consequenceText (cons : Consequence.t) : string :=
  String.append "["
    (String.append (toUpperCase (Consequence.severity cons))
       (String.append "] "
          (String.append (Consequence.domain cons)
             (String.append ": " (Consequence.prediction cons))))).

Definition timeframeBlock (consequences : list Consequence.t) (tf : string)
    (st : St) : St :=
  let items :=
    List.filter (fun c => String.eqb (Consequence.timeframe c) tf)
      consequences in
  if (0 <? length items)%nat then
    let st := checkPageBreak 15 st in
    let st := emit (SetFontSize 11) st in
    let st := emit (SetFont "helvetica" "bold") st in
    let st := emit (SetTextColor 80 80 80) st in
    let st := emit (Text [timeframeLabel tf] MARGIN (cursorY st) None) st in
    let st := setCursorY (cursorY st + 6) st in
    let st :=
      forEachSt (fun cons => addBullet (consequenceText cons)) items st in
    setCursorY (cursorY st + 4) st
  else st.

(** 6. Consequences. *)
Definition consequencesSection (result : AnalysisResult.t) (st : St) : St :=
  match AnalysisResult.consequences result with
  | Some consequences =>
      if (0 <? length consequences)%nat then
        let st := addSectionTitle "FUTURE CONSEQUENCES" 147 51 234 st in
        forEachSt (timeframeBlock consequences)
          ["immediate"; "short_term"; "long_term"] st
      else st
  | None => st
  end.

Definition mergeText (conn : MergeConnection.t) : string :=
  String.append (toUpperCase (MergeConnection.type conn))
    (String.append ": "
       (String.append (MergeConnection.source1 conn)
          (String.append " vs "
             (String.append (MergeConnection.source2 conn)
                (String.append " -> " (MergeConnection.insight conn)))))).

(** 7. Merge intelligence. *)
Definition mergeSection (result : AnalysisResult.t) (st : St) : St :=
  match AnalysisResult.mergeConnections result with
  | Some mergeConnections =>
      if (0 <? length mergeConnections)%nat then
        let st := addSectionTitle "REALITY MERGE ANALYSIS" 236 72 153 st in
        let st :=
          forEachSt (fun conn => addBullet (mergeText conn))
            mergeConnections st in
        setCursorY (cursorY st + 5) st
      else st
  | None => st
  end.

(** One line of a column of section 8, at the column's [x]. *)
Definition columnLine (x : R) (entry : string) (st : St) : St :=
  let lines :=
    splitTextToSize (doc st) (String.append "• " entry)
      (CONTENT_WIDTH / 2 - 10) in
  let st := emit (Text lines x (cursorY st) None) st in
  setCursorY (cursorY st + (INR (length lines) * 5 + 2)) st.

(** 8. Risks and opportunities; [result.risks || ["None detected."]]. *)
Definition risksAndOpportunities (result : AnalysisResult.t) (st : St)
    : St :=
  let st := checkPageBreak 60 st in
  let startY := cursorY st in
  let st := emit (SetFontSize 12) st in
  let st := emit (SetFont "helvetica" "bold") st in
  let st := emit (SetTextColor 239 68 68) st in
  let st := emit (Text ["RISKS"] MARGIN (cursorY st) None) st in
  let st := setCursorY (cursorY st + 6) st in
  let st := emit (SetFontSize 10) st in
  let st := emit (SetTextColor 51 65 85) st in
  let st := emit (SetFont "helvetica" "normal") st in
  let riskLines :=
    match AnalysisResult.risks result with
    | Some risks => risks
    | None => ["None detected."]
    end in
  let st := forEachSt (columnLine MARGIN) riskLines st in
  let st := setCursorY startY st in
  let col2X := MARGIN + CONTENT_WIDTH / 2 + 5 in
  let st := emit (SetFontSize 12) st in
  let st := emit (SetFont "helvetica" "bold") st in
  let st := emit (SetTextColor 16 185 129) st in
  let st := emit (Text ["OPPORTUNITIES"] col2X (cursorY st) None) st in
  let st := setCursorY (cursorY st + 6) st in
  let st := emit (SetFontSize 10) st in
  let st := emit (SetTextColor 51 65 85) st in
  let st := emit (SetFont "helvetica" "normal") st in
  let oppLines :=
    match AnalysisResult.opportunities result with
    | Some opportunities => opportunities
    | None => ["None detected."]
    end in
  forEachSt (columnLine col2X) oppLines st.

(** The footer of page [i] of [pageCount]. *)
Definition footerOf (pageCount i : nat) : list Call :=
  [ SetPage i;
    SetFontSize 8;
    SetTextColor 148 163 184;
    Text [String.append "Generated by Aether Analytica - Page "
            (String.append (numberToString (INR i))
               (String.append " of " (numberToString (INR pageCount))))]
      (PAGE_WIDTH / 2) (PAGE_HEIGHT - 10) (Some "center") ].

(** Footer: [for (let i = 1; i <= pageCount; i++)]. *)
Definition footer (st : St) : St :=
  let pageCount := pages (doc st) in
  forEachSt
    (fun i st => fold_left (fun st c => emit c st) (footerOf pageCount i) st)
    (seq 1 pageCount) st.

(** Everything up to the footer. *)
Definition body (result : AnalysisResult.t)
    (userImages : option (list string)) : St :=
  let st := {| doc := newDoc; cursorY := 20 |} in
  let st := header st in
  let st := imageSection (AnalysisResult.score result) userImages st in
  let st := summarySection result st in
  let st := insightsSection result st in
  let st := actionsSection result st in
  let st := consequencesSection result st in
  let st := mergeSection result st in
  risksAndOpportunities result st.

Definition generatePDFReport (result : AnalysisResult.t)
    (userImages : option (list string)) : Doc :=
  let st := footer (body result userImages) in
  doc (emit (Save "Aether-Analysis-Report.pdf") st).

End Generator.

End Pdf.

(** * Specification-side definitions *)

(** ** The distribution rule, in the words of the specification *)

(** [angle = θ0 + i·(2π/n) − π/2] *)
Definition tier_angle (theta0 : R) (n i : nat) : R :=
  theta0 + INR i * (2 * PI / INR n) - PI / 2.

(** [position = (cx + rx·cos(angle), cy + ry·sin(angle))] *)
Definition tier_position (cx cy rx ry angle : R) : Point.t :=
  {| Point.x := cx + rx * cos angle; Point.y := cy + ry * sin angle |}.

(** The order of the specification: all risk-typed nodes, then all
    outcome-typed nodes, then all nodes of another or unknown type. *)
Definition risk_then_outcome_then_other (nodes : list GraphNode.t)
    : list GraphNode.t :=
  List.filter (fun n => String.eqb (GraphNode.type n) "risk") nodes
  ++ List.filter (fun n => String.eqb (GraphNode.type n) "outcome") nodes
  ++ List.filter
       (fun n => negb (includes ["entity"; "action"; "risk"; "outcome"]
                         (GraphNode.type n)))
       nodes.

(** The scale lies between the two clamp bounds. *)
Definition in_zoom_range (s : FullScreenGraph.State) : Prop :=
  0.2 <= ViewState.scale (FullScreenGraph.viewState s) <= 4.

(** An endpoint of the edge is the id of no node. *)
Definition dangling (nodes : list GraphNode.t) (edge : GraphEdge.t) : Prop :=
  GraphEdge.from edge ∉ map GraphNode.id nodes
  \/ GraphEdge.to edge ∉ map GraphNode.id nodes.

(** The segment from [(x1, y1)] to [(x2, y2)] joins two positioned nodes
    that carry the two ids of the edge. *)
Definition joins (ns : list PositionedNode.t) (edge : GraphEdge.t)
    (x1 y1 x2 y2 : R) : Prop :=
  exists start end_ : PositionedNode.t,
    start ∈ ns /\ end_ ∈ ns
    /\ GraphNode.id (PositionedNode.node start) = GraphEdge.from edge
    /\ GraphNode.id (PositionedNode.node end_) = GraphEdge.to edge
    /\ x1 = Point.x (PositionedNode.pos start)
    /\ y1 = Point.y (PositionedNode.pos start)
    /\ x2 = Point.x (PositionedNode.pos end_)
    /\ y2 = Point.y (PositionedNode.pos end_).

(** * Sample graphs *)

Definition nodeA : GraphNode.t :=
  {| GraphNode.id := "a"; GraphNode.label := "Alpha";
     GraphNode.type := "entity" |}.
Definition nodeB : GraphNode.t :=
  {| GraphNode.id := "b"; GraphNode.label := "Beta";
     GraphNode.type := "action" |}.
Definition nodeC : GraphNode.t :=
  {| GraphNode.id := "c"; GraphNode.label := "Gamma";
     GraphNode.type := "risk" |}.

(** Scenario A: one entity, one action, one risk. *)
Definition scenarioA : list GraphNode.t := [nodeA; nodeB; nodeC].


Definition nodeO : GraphNode.t :=
  {| GraphNode.id := "o"; GraphNode.label := "Omega";
     GraphNode.type := "outcome" |}.

(** An outcome that precedes a risk in the input. *)
Definition outcomeFirst : list GraphNode.t := [nodeO; nodeC].



(** A node whose id is the empty string, and a graph that holds it. *)
Definition nodeE : GraphNode.t :=
  {| GraphNode.id := ""; GraphNode.label := "Delta";
     GraphNode.type := "entity" |}.
Definition emptyIdGraph : list GraphNode.t := [nodeE; nodeB; nodeC].
Definition edgeBC : GraphEdge.t :=
  {| GraphEdge.from := "b"; GraphEdge.to := "c";
     GraphEdge.label := "causes" |}.

(** An action that carries the id of [nodeA]. *)
Definition nodeAct : GraphNode.t :=
  {| GraphNode.id := "a"; GraphNode.label := "Act";
     GraphNode.type := "action" |}.
Definition repeatedId : list GraphNode.t := [nodeA; nodeAct].

Definition edgeAB : GraphEdge.t :=
  {| GraphEdge.from := "a"; GraphEdge.to := "b";
     GraphEdge.label := "leads to" |}.
Definition edgeAZ : GraphEdge.t :=
  {| GraphEdge.from := "a"; GraphEdge.to := "zzz";
     GraphEdge.label := "x" |}.


(** A risk that carries the id of [nodeA]. *)
Definition nodeRiskA : GraphNode.t :=
  {| GraphNode.id := "a"; GraphNode.label := "Risk";
     GraphNode.type := "risk" |}.
Definition repeatedRisk : list GraphNode.t := [nodeA; nodeRiskA].

(** A node that is not part of the sample graphs. *)
Definition nodeGhost : GraphNode.t :=
  {| GraphNode.id := "ghost"; GraphNode.label := "Ghost";
     GraphNode.type := "entity" |}.

(** * Sequences of events of the full-screen component *)

(** The state after all the events of a sequence. *)
Definition run (s : FullScreenGraph.State)
    (es : list FullScreenGraph.Event) : FullScreenGraph.State :=
  fold_left (fun s e => FullScreenGraph.handle e s) es s.

(** The pointer moving along a path, one [mousemove] per point. *)
Definition moves (path : list Point.t) : list FullScreenGraph.Event :=
  map (fun p => FullScreenGraph.MouseMove (Point.x p) (Point.y p)) path.

(** The events of the node groups, as opposed to those of the canvas and
    of the buttons. *)
Definition is_node_event (e : FullScreenGraph.Event) : bool :=
  match e with
  | FullScreenGraph.NodeMouseEnter _ | FullScreenGraph.NodeMouseLeave _ =>
      true
  | _ => false
  end.

(** * Geometry of the canvas *)

(** The point lies in the box of half-width [rx] and half-height [ry]
    around [(cx, cy)]. *)
Definition within (cx cy rx ry : R) (p : Point.t) : Prop :=
  cx - rx <= Point.x p <= cx + rx /\ cy - ry <= Point.y p <= cy + ry.

(** The disc of radius [r] around [(x, y)] lies in the [w] by [h] box whose
    corner is the origin. *)
Definition inside_box (w h x y r : R) : Prop :=
  0 <= x - r /\ x + r <= w /\ 0 <= y - r /\ y + r <= h.

(** * Properties *)

(** ** The loop that fills the position map *)

Section PlacementLoop.

(** The position written for the node met at index [i]. *)
Variable place : nat -> Point.t.

Let body (node : GraphNode.t) (i : nat) (m : gmap string Point.t) :=
  <[ GraphNode.id node := place i ]> m.

(** Keys of nodes that are not in the list keep their entry. *)
Lemma forEach_insert_other (l : list GraphNode.t) (i0 : nat)
    (m : gmap string Point.t) (k : string) :
  k ∉ map GraphNode.id l ->
  forEach_from body i0 l m !! k = m !! k.
Proof.
  revert i0 m. induction l as [|a l IH]; intros i0 m Hk; simpl.
  - reflexivity.
  - simpl in Hk. apply not_elem_of_cons in Hk as [Hne Hk].
    rewrite IH by exact Hk. unfold body.
    rewrite lookup_insert_ne by congruence. reflexivity.
Qed.

(** The last write to a key wins: the node at index [j] keeps the
    position written for it when no later node of the list has its id. *)
Lemma forEach_insert_last (l : list GraphNode.t) (i0 : nat)
    (m : gmap string Point.t) (j : nat) (node : GraphNode.t) :
  l !! j = Some node ->
  (forall j' n', (j < j')%nat -> l !! j' = Some n' ->
                 GraphNode.id n' <> GraphNode.id node) ->
  forEach_from body i0 l m !! GraphNode.id node = Some (place (i0 + j)%nat).
Proof.
  revert i0 m j. induction l as [|a l IH]; intros i0 m j Hj Hlast.
  - discriminate.
  - destruct j as [|j]; simpl in *.
    + injection Hj as ->.
      rewrite forEach_insert_other.
      * unfold body. rewrite lookup_insert_eq.
        replace (i0 + 0)%nat with i0 by lia. reflexivity.
      * intros Hin. apply list_elem_of_fmap in Hin as [n' [Heq Hin]].
        apply list_elem_of_lookup in Hin as [j' Hj'].
        apply (Hlast (S j') n'); [lia | exact Hj' | congruence].
    + replace (i0 + S j)%nat with (S i0 + j)%nat by lia.
      apply IH; [exact Hj|].
      intros j' n' Hlt Hj'. apply (Hlast (S j') n'); [lia | exact Hj'].
Qed.

End PlacementLoop.

(** In a list without duplicate ids no later node shares an id. *)
Lemma NoDup_ids_later (l : list GraphNode.t) (j j' : nat)
    (n n' : GraphNode.t) :
  NoDup (map GraphNode.id l) ->
  l !! j = Some n -> l !! j' = Some n' -> (j < j')%nat ->
  GraphNode.id n' <> GraphNode.id n.
Proof.
  intros Hnd Hj Hj' Hlt Heq.
  assert (H1 : map GraphNode.id l !! j = Some (GraphNode.id n))
    by (rewrite list_lookup_fmap, Hj; reflexivity).
  assert (H2 : map GraphNode.id l !! j' = Some (GraphNode.id n))
    by (rewrite list_lookup_fmap, Hj'; simpl; rewrite Heq; reflexivity).
  pose proof (NoDup_lookup _ _ _ _ Hnd H1 H2). lia.
Qed.

(** The divisor of [step] is never zero once the guard has been passed. *)
Lemma full_distribute_nil (rx ry theta0 : R) (m : gmap string Point.t) :
  FullScreenGraph.distribute [] rx ry theta0 m = m.
Proof. reflexivity. Qed.

Lemma compact_distribute_nil (r theta0 : R) (m : gmap string Point.t) :
  KnowledgeGraphViz.distribute [] r theta0 m = m.
Proof. reflexivity. Qed.

Lemma full_distribute_other (list : list GraphNode.t) (rx ry theta0 : R)
    (m : gmap string Point.t) (k : string) :
  k ∉ map GraphNode.id list ->
  FullScreenGraph.distribute list rx ry theta0 m !! k = m !! k.
Proof.
  intros Hk. unfold FullScreenGraph.distribute.
  destruct (length list =? 0)%nat; [reflexivity|].
  unfold forEach.
  apply (forEach_insert_other
           (fun i => tier_position FullScreenGraph.cx FullScreenGraph.cy rx ry
                       (tier_angle theta0 (length list) i))).
  exact Hk.
Qed.

Lemma compact_distribute_other (list : list GraphNode.t) (r theta0 : R)
    (m : gmap string Point.t) (k : string) :
  k ∉ map GraphNode.id list ->
  KnowledgeGraphViz.distribute list r theta0 m !! k = m !! k.
Proof.
  intros Hk. unfold KnowledgeGraphViz.distribute.
  destruct (length list =? 0)%nat; [reflexivity|].
  unfold forEach.
  apply (forEach_insert_other
           (fun i => tier_position KnowledgeGraphViz.cx KnowledgeGraphViz.cy
                       r r (tier_angle theta0 (length list) i))).
  exact Hk.
Qed.

Lemma full_distribute_last (list : list GraphNode.t) (rx ry theta0 : R)
    (m : gmap string Point.t) (i : nat) (node : GraphNode.t) :
  list !! i = Some node ->
  (forall j n', (i < j)%nat -> list !! j = Some n' ->
                GraphNode.id n' <> GraphNode.id node) ->
  FullScreenGraph.distribute list rx ry theta0 m !! GraphNode.id node
  = Some (tier_position FullScreenGraph.cx FullScreenGraph.cy rx ry
            (tier_angle theta0 (length list) i)).
Proof.
  intros Hi Hlast. unfold FullScreenGraph.distribute.
  destruct (Nat.eqb_spec (length list) 0) as [Hz|_].
  - apply lookup_lt_Some in Hi. lia.
  - unfold forEach.
    apply (forEach_insert_last
             (fun i => tier_position FullScreenGraph.cx FullScreenGraph.cy
                         rx ry (tier_angle theta0 (length list) i))
             list 0 m i node Hi Hlast).
Qed.

Lemma compact_distribute_last (list : list GraphNode.t) (r theta0 : R)
    (m : gmap string Point.t) (i : nat) (node : GraphNode.t) :
  list !! i = Some node ->
  (forall j n', (i < j)%nat -> list !! j = Some n' ->
                GraphNode.id n' <> GraphNode.id node) ->
  KnowledgeGraphViz.distribute list r theta0 m !! GraphNode.id node
  = Some (tier_position KnowledgeGraphViz.cx KnowledgeGraphViz.cy r r
            (tier_angle theta0 (length list) i)).
Proof.
  intros Hi Hlast. unfold KnowledgeGraphViz.distribute.
  destruct (Nat.eqb_spec (length list) 0) as [Hz|_].
  - apply lookup_lt_Some in Hi. lia.
  - unfold forEach.
    apply (forEach_insert_last
             (fun i => tier_position KnowledgeGraphViz.cx KnowledgeGraphViz.cy
                         r r (tier_angle theta0 (length list) i))
             list 0 m i node Hi Hlast).
Qed.

(** ** Membership in the tiers *)

Lemma elem_of_filter_bool {A : Type} (f : A -> bool) (l : list A) (a : A) :
  a ∈ List.filter f l <-> a ∈ l /\ f a = true.
Proof. rewrite !list_elem_of_In. apply filter_In. Qed.

Lemma includes_cons (s t : string) (arr : list string) :
  includes (t :: arr) s = true <-> s = t \/ includes arr s = true.
Proof.
  unfold includes. simpl. rewrite orb_true_iff, String.eqb_eq. reflexivity.
Qed.

Lemma includes_nil (s : string) : includes [] s = true <-> False.
Proof. unfold includes. simpl. split; [discriminate | tauto]. Qed.

(** Decompose a hypothesis on the type tag of a node down to equations. *)
Ltac tag_cases :=
  repeat match goal with
    | H : _ /\ _ |- _ => destruct H
    | H : _ ∈ List.filter _ _ |- _ => apply elem_of_filter_bool in H
    | H : _ ∈ _ ++ _ |- _ => apply elem_of_app in H as [H|H]
    | H : negb _ = true |- _ => apply negb_true_iff in H
    | H : String.eqb _ _ = true |- _ => apply String.eqb_eq in H
    | H : includes _ _ = true |- _ =>
        first [ apply includes_nil in H; destruct H
              | apply includes_cons in H as [H|H] ]
    | H : includes (_ :: _) ?s = false |- _ =>
        let E := fresh "E" in
        assert (E : ~ includes _ s = true) by (rewrite H; discriminate);
        clear H; rewrite includes_cons in E
    end.

Lemma full_actions_type (nodes : list GraphNode.t) (n : GraphNode.t) :
  n ∈ FullScreenGraph.actions nodes ->
  n ∈ nodes /\ GraphNode.type n = "action".
Proof. unfold FullScreenGraph.actions. intros H. tag_cases. auto. Qed.

Lemma full_entities_type (nodes : list GraphNode.t) (n : GraphNode.t) :
  n ∈ FullScreenGraph.entities nodes ->
  n ∈ nodes /\ GraphNode.type n = "entity".
Proof. unfold FullScreenGraph.entities. intros H. tag_cases. auto. Qed.

Lemma full_ring3_type (nodes : list GraphNode.t) (n : GraphNode.t) :
  n ∈ FullScreenGraph.ring3 nodes ->
  n ∈ nodes /\ GraphNode.type n <> "entity" /\ GraphNode.type n <> "action".
Proof.
  unfold FullScreenGraph.ring3, FullScreenGraph.results,
    FullScreenGraph.others.
  intros H. tag_cases; (split; [assumption|]); split; intros Heq;
    try congruence; apply E; rewrite ?includes_cons; tauto.
Qed.

Lemma compact_actions_type (nodes : list GraphNode.t) (n : GraphNode.t) :
  n ∈ KnowledgeGraphViz.actions nodes ->
  n ∈ nodes /\ GraphNode.type n = "action".
Proof. unfold KnowledgeGraphViz.actions. intros H. tag_cases. auto. Qed.


Lemma compact_ring3_type (nodes : list GraphNode.t) (n : GraphNode.t) :
  n ∈ KnowledgeGraphViz.ring3 nodes ->
  n ∈ nodes /\ GraphNode.type n <> "entity" /\ GraphNode.type n <> "action".
Proof.
  unfold KnowledgeGraphViz.ring3, KnowledgeGraphViz.risks,
    KnowledgeGraphViz.outcomes, KnowledgeGraphViz.others.
  intros H. tag_cases; (split; [assumption|]); split; intros Heq;
    try congruence; apply E; rewrite ?includes_cons; tauto.
Qed.

(** ** Unique ids *)

(** With unique ids, a node of the list is determined by its id. *)
Lemma ids_inj (nodes : list GraphNode.t) (n n' : GraphNode.t) :
  NoDup (map GraphNode.id nodes) ->
  n ∈ nodes -> n' ∈ nodes -> GraphNode.id n = GraphNode.id n' -> n = n'.
Proof.
  intros Hnd Hn Hn' Heq.
  apply list_elem_of_lookup in Hn as [j Hj].
  apply list_elem_of_lookup in Hn' as [j' Hj'].
  assert (H1 : map GraphNode.id nodes !! j = Some (GraphNode.id n))
    by (rewrite list_lookup_fmap, Hj; reflexivity).
  assert (H2 : map GraphNode.id nodes !! j' = Some (GraphNode.id n))
    by (rewrite list_lookup_fmap, Hj'; simpl; rewrite Heq; reflexivity).
  pose proof (NoDup_lookup _ _ _ _ Hnd H1 H2) as ->. congruence.
Qed.

Lemma filter_ids_NoDup (f : GraphNode.t -> bool) (l : list GraphNode.t) :
  NoDup (map GraphNode.id l) -> NoDup (map GraphNode.id (List.filter f l)).
Proof.
  induction l as [|a l IH]; simpl; intros Hnd; [constructor|].
  apply NoDup_cons in Hnd as [Ha Hnd].
  destruct (f a); simpl; [|auto].
  apply NoDup_cons. split; [|auto].
  intros Hin. apply Ha.
  apply list_elem_of_fmap in Hin as [n [Heq Hin]].
  apply elem_of_filter_bool in Hin as [Hin _].
  apply list_elem_of_fmap. eauto.
Qed.

Lemma app_ids_NoDup (nodes l1 l2 : list GraphNode.t) :
  NoDup (map GraphNode.id nodes) ->
  NoDup (map GraphNode.id l1) -> NoDup (map GraphNode.id l2) ->
  (forall n, n ∈ l1 -> n ∈ nodes) -> (forall n, n ∈ l2 -> n ∈ nodes) ->
  (forall n, n ∈ l1 -> n ∉ l2) ->
  NoDup (map GraphNode.id (l1 ++ l2)).
Proof.
  intros Hnd H1 H2 Hs1 Hs2 Hdisj.
  rewrite map_app. apply NoDup_app. split; [exact H1|]. split; [|exact H2].
  intros k Hk1 Hk2.
  apply list_elem_of_fmap in Hk1 as [n1 [-> Hn1]].
  apply list_elem_of_fmap in Hk2 as [n2 [Heq Hn2]].
  assert (n1 = n2) as -> by (apply (ids_inj nodes); auto).
  exact (Hdisj n2 Hn1 Hn2).
Qed.

Lemma full_ring3_NoDup (nodes : list GraphNode.t) :
  NoDup (map GraphNode.id nodes) ->
  NoDup (map GraphNode.id (FullScreenGraph.ring3 nodes)).
Proof.
  intros Hnd.
  unfold FullScreenGraph.ring3, FullScreenGraph.results,
    FullScreenGraph.others.
  apply (app_ids_NoDup nodes); auto using filter_ids_NoDup.
  - intros n H. tag_cases; assumption.
  - intros n H. tag_cases; assumption.
  - intros n H H'. tag_cases; apply E; rewrite ?includes_cons; tauto.
Qed.

Lemma compact_ring3_NoDup (nodes : list GraphNode.t) :
  NoDup (map GraphNode.id nodes) ->
  NoDup (map GraphNode.id (KnowledgeGraphViz.ring3 nodes)).
Proof.
  intros Hnd.
  unfold KnowledgeGraphViz.ring3, KnowledgeGraphViz.risks,
    KnowledgeGraphViz.outcomes, KnowledgeGraphViz.others.
  apply (app_ids_NoDup nodes); auto using filter_ids_NoDup.
  - apply (app_ids_NoDup nodes); auto using filter_ids_NoDup.
    + intros n H. tag_cases; assumption.
    + intros n H. tag_cases; assumption.
    + intros n H H'. tag_cases; apply E; rewrite ?includes_cons; tauto.
  - intros n H. tag_cases; assumption.
  - intros n H. tag_cases; assumption.
  - intros n H H'. tag_cases; try congruence;
      apply E; rewrite ?includes_cons; tauto.
Qed.

(** ** From the position map to the positioned nodes *)

Lemma full_nodePositions_lookup (nodes : list GraphNode.t) (i : nat)
    (n : GraphNode.t) (p : Point.t) :
  nodes !! i = Some n ->
  FullScreenGraph.posMap nodes !! GraphNode.id n = Some p ->
  FullScreenGraph.nodePositions nodes !! i
  = Some {| PositionedNode.node := n; PositionedNode.pos := p |}.
Proof.
  intros Hi Hp. unfold FullScreenGraph.nodePositions.
  rewrite list_lookup_fmap, Hi. simpl. rewrite Hp. reflexivity.
Qed.

Lemma compact_nodePositions_lookup (nodes : list GraphNode.t) (i : nat)
    (n : GraphNode.t) (p : Point.t) :
  nodes !! i = Some n ->
  KnowledgeGraphViz.posMap nodes !! GraphNode.id n = Some p ->
  KnowledgeGraphViz.nodePositions nodes !! i
  = Some {| PositionedNode.node := n; PositionedNode.pos := p |}.
Proof.
  intros Hi Hp. unfold KnowledgeGraphViz.nodePositions.
  rewrite list_lookup_fmap, Hi. simpl. rewrite Hp. reflexivity.
Qed.

Lemma full_nodePositions_nodes (nodes : list GraphNode.t) :
  map PositionedNode.node (FullScreenGraph.nodePositions nodes) = nodes.
Proof.
  unfold FullScreenGraph.nodePositions. rewrite map_map. simpl.
  apply map_id.
Qed.

Lemma compact_nodePositions_nodes (nodes : list GraphNode.t) :
  map PositionedNode.node (KnowledgeGraphViz.nodePositions nodes) = nodes.
Proof.
  unfold KnowledgeGraphViz.nodePositions. rewrite map_map. simpl.
  apply map_id.
Qed.

(** ** The single entity *)

Lemma full_posMap_center (nodes : list GraphNode.t) (e : GraphNode.t) :
  FullScreenGraph.entities nodes = [e] ->
  (forall n, n ∈ nodes -> GraphNode.type n <> "entity" ->
             GraphNode.id n <> GraphNode.id e) ->
  FullScreenGraph.posMap nodes !! GraphNode.id e
  = Some {| Point.x := FullScreenGraph.cx; Point.y := FullScreenGraph.cy |}.
Proof.
  intros Hone Hid.
  unfold FullScreenGraph.posMap, FullScreenGraph.layer3,
    FullScreenGraph.layer2, FullScreenGraph.layer1.
  rewrite Hone. simpl.
  rewrite full_distribute_other.
  - rewrite full_distribute_other.
    + apply lookup_insert_eq.
    + intros Hin. apply list_elem_of_fmap in Hin as [n [Heq Hin]].
      apply full_actions_type in Hin as [Hin Ht].
      apply (Hid n Hin); congruence.
  - intros Hin. apply list_elem_of_fmap in Hin as [n [Heq Hin]].
    apply full_ring3_type in Hin as [Hin [Ht _]].
    apply (Hid n Hin); congruence.
Qed.

Lemma compact_posMap_center (nodes : list GraphNode.t) (e : GraphNode.t) :
  KnowledgeGraphViz.entities nodes = [e] ->
  (forall n, n ∈ nodes -> GraphNode.type n <> "entity" ->
             GraphNode.id n <> GraphNode.id e) ->
  KnowledgeGraphViz.posMap nodes !! GraphNode.id e
  = Some {| Point.x := KnowledgeGraphViz.cx;
            Point.y := KnowledgeGraphViz.cy |}.
Proof.
  intros Hone Hid.
  unfold KnowledgeGraphViz.posMap, KnowledgeGraphViz.layer3,
    KnowledgeGraphViz.layer2, KnowledgeGraphViz.layer1.
  rewrite Hone. simpl.
  rewrite compact_distribute_other.
  - rewrite compact_distribute_other.
    + apply lookup_insert_eq.
    + intros Hin. apply list_elem_of_fmap in Hin as [n [Heq Hin]].
      apply compact_actions_type in Hin as [Hin Ht].
      apply (Hid n Hin); congruence.
  - intros Hin. apply list_elem_of_fmap in Hin as [n [Heq Hin]].
    apply compact_ring3_type in Hin as [Hin [Ht _]].
    apply (Hid n Hin); congruence.
Qed.

(** ** The three rings of the whole layout, for graphs with unique ids *)

Section FullRings.

Variable nodes : list GraphNode.t.
Hypothesis unique_ids : NoDup (map GraphNode.id nodes).

Let cx := FullScreenGraph.cx.
Let cy := FullScreenGraph.cy.

Lemma full_not_in_actions (n : GraphNode.t) :
  n ∈ nodes -> GraphNode.type n <> "action" ->
  GraphNode.id n ∉ map GraphNode.id (FullScreenGraph.actions nodes).
Proof.
  intros Hn Ht Hin. apply list_elem_of_fmap in Hin as [n' [Heq Hin]].
  apply full_actions_type in Hin as [Hin Ht'].
  assert (n = n') by (apply (ids_inj nodes); auto). congruence.
Qed.

Lemma full_not_in_ring3 (n : GraphNode.t) :
  n ∈ nodes ->
  GraphNode.type n = "entity" \/ GraphNode.type n = "action" ->
  GraphNode.id n ∉ map GraphNode.id (FullScreenGraph.ring3 nodes).
Proof.
  intros Hn Ht Hin. apply list_elem_of_fmap in Hin as [n' [Heq Hin]].
  apply full_ring3_type in Hin as [Hin [Ht1 Ht2]].
  assert (n = n') by (apply (ids_inj nodes); auto).
  subst n'. tauto.
Qed.

Lemma full_posMap_ring3 (i : nat) (n : GraphNode.t) :
  FullScreenGraph.ring3 nodes !! i = Some n ->
  FullScreenGraph.posMap nodes !! GraphNode.id n
  = Some (tier_position cx cy 320 240
            (tier_angle 1.0 (length (FullScreenGraph.ring3 nodes)) i)).
Proof.
  intros Hi. unfold FullScreenGraph.posMap, FullScreenGraph.layer3.
  apply full_distribute_last; [exact Hi|].
  intros j n' Hlt Hj.
  exact (NoDup_ids_later _ _ _ _ _ (full_ring3_NoDup _ unique_ids) Hi Hj Hlt).
Qed.

Lemma full_posMap_actions (i : nat) (n : GraphNode.t) :
  FullScreenGraph.actions nodes !! i = Some n ->
  FullScreenGraph.posMap nodes !! GraphNode.id n
  = Some (tier_position cx cy 220 160
            (tier_angle 0.5 (length (FullScreenGraph.actions nodes)) i)).
Proof.
  intros Hi.
  assert (Hin : n ∈ FullScreenGraph.actions nodes)
    by (apply list_elem_of_lookup; eauto).
  apply full_actions_type in Hin as [Hin Ht].
  unfold FullScreenGraph.posMap, FullScreenGraph.layer3.
  rewrite full_distribute_other by (apply full_not_in_ring3; auto).
  unfold FullScreenGraph.layer2.
  apply full_distribute_last; [exact Hi|].
  intros j n' Hlt Hj.
  refine (NoDup_ids_later _ _ _ _ _ _ Hi Hj Hlt).
  apply filter_ids_NoDup, unique_ids.
Qed.

Lemma full_posMap_entities (i : nat) (n : GraphNode.t) :
  length (FullScreenGraph.entities nodes) <> 1%nat ->
  FullScreenGraph.entities nodes !! i = Some n ->
  FullScreenGraph.posMap nodes !! GraphNode.id n
  = Some (tier_position cx cy 100 80
            (tier_angle 0 (length (FullScreenGraph.entities nodes)) i)).
Proof.
  intros Hlen Hi.
  assert (Hin : n ∈ FullScreenGraph.entities nodes)
    by (apply list_elem_of_lookup; eauto).
  apply full_entities_type in Hin as [Hin Ht].
  unfold FullScreenGraph.posMap, FullScreenGraph.layer3.
  rewrite full_distribute_other by (apply full_not_in_ring3; auto).
  unfold FullScreenGraph.layer2.
  rewrite full_distribute_other
    by (apply full_not_in_actions; [auto | congruence]).
  unfold FullScreenGraph.layer1.
  destruct (Nat.eqb_spec (length (FullScreenGraph.entities nodes)) 1)
    as [Heq|_]; [contradiction|].
  apply full_distribute_last; [exact Hi|].
  intros j n' Hlt Hj.
  refine (NoDup_ids_later _ _ _ _ _ _ Hi Hj Hlt).
  apply filter_ids_NoDup, unique_ids.
Qed.

End FullRings.

Section CompactRings.

Variable nodes : list GraphNode.t.
Hypothesis unique_ids : NoDup (map GraphNode.id nodes).

Let cx := KnowledgeGraphViz.cx.
Let cy := KnowledgeGraphViz.cy.


Lemma compact_not_in_ring3 (n : GraphNode.t) :
  n ∈ nodes ->
  GraphNode.type n = "entity" \/ GraphNode.type n = "action" ->
  GraphNode.id n ∉ map GraphNode.id (KnowledgeGraphViz.ring3 nodes).
Proof.
  intros Hn Ht Hin. apply list_elem_of_fmap in Hin as [n' [Heq Hin]].
  apply compact_ring3_type in Hin as [Hin [Ht1 Ht2]].
  assert (n = n') by (apply (ids_inj nodes); auto).
  subst n'. tauto.
Qed.

Lemma compact_posMap_ring3 (i : nat) (n : GraphNode.t) :
  KnowledgeGraphViz.ring3 nodes !! i = Some n ->
  KnowledgeGraphViz.posMap nodes !! GraphNode.id n
  = Some (tier_position cx cy 130 130
            (tier_angle 1.0 (length (KnowledgeGraphViz.ring3 nodes)) i)).
Proof.
  intros Hi. unfold KnowledgeGraphViz.posMap, KnowledgeGraphViz.layer3.
  apply compact_distribute_last; [exact Hi|].
  intros j n' Hlt Hj.
  exact (NoDup_ids_later _ _ _ _ _
           (compact_ring3_NoDup _ unique_ids) Hi Hj Hlt).
Qed.

Lemma compact_posMap_actions (i : nat) (n : GraphNode.t) :
  KnowledgeGraphViz.actions nodes !! i = Some n ->
  KnowledgeGraphViz.posMap nodes !! GraphNode.id n
  = Some (tier_position cx cy 90 90
            (tier_angle 0.5 (length (KnowledgeGraphViz.actions nodes)) i)).
Proof.
  intros Hi.
  assert (Hin : n ∈ KnowledgeGraphViz.actions nodes)
    by (apply list_elem_of_lookup; eauto).
  apply compact_actions_type in Hin as [Hin Ht].
  unfold KnowledgeGraphViz.posMap, KnowledgeGraphViz.layer3.
  rewrite compact_distribute_other by (apply compact_not_in_ring3; auto).
  unfold KnowledgeGraphViz.layer2.
  apply compact_distribute_last; [exact Hi|].
  intros j n' Hlt Hj.
  refine (NoDup_ids_later _ _ _ _ _ _ Hi Hj Hlt).
  apply filter_ids_NoDup, unique_ids.
Qed.


End CompactRings.

(** ** The distribution rule *)

(** Consecutive nodes of a ring are [2π/n] apart. *)
Lemma tier_angle_step (theta0 : R) (n i : nat) :
  tier_angle theta0 n (S i) - tier_angle theta0 n i = 2 * PI / INR n.
Proof. unfold tier_angle. rewrite S_INR. ring. Qed.

Lemma sin_half_pos : 0 < sin 0.5.
Proof.
  apply sin_gt_0; [lra|]. pose proof PI2_1. lra.
Qed.








(** Scenario C of the specification: the two actions sit at
    [-pi/2 + 0.5] and [-pi/2 + 0.5 + pi]. *)
Lemma scenarioC_angles :
  tier_angle 0.5 2 0 = - PI / 2 + 0.5
  /\ tier_angle 0.5 2 1 = - PI / 2 + 0.5 + PI.
Proof. unfold tier_angle. simpl. split; field. Qed.

(** ** Single-entity centering *)

(** C4, as the code has it: when exactly one node of the list has type
    entity, and no node of another type carries its id (so in every graph
    whose ids are distinct), both components place it exactly at the
    canvas center, however many nodes of other types there are.  The
    position map is keyed by id and the rings are written after the
    center, so a node of another type with the same id takes the entry. *)
Theorem single_entity_centered (nodes : list GraphNode.t)
    (e : GraphNode.t) (i : nat) :
  List.filter (fun n => String.eqb (GraphNode.type n) "entity") nodes = [e] ->
  (forall n, n ∈ nodes -> GraphNode.type n <> "entity" ->
             GraphNode.id n <> GraphNode.id e) ->
  nodes !! i = Some e ->
  FullScreenGraph.nodePositions nodes !! i
  = Some {| PositionedNode.node := e;
            PositionedNode.pos :=
              {| Point.x := FullScreenGraph.cx;
                 Point.y := FullScreenGraph.cy |} |}
  /\ KnowledgeGraphViz.nodePositions nodes !! i
     = Some {| PositionedNode.node := e;
               PositionedNode.pos :=
                 {| Point.x := KnowledgeGraphViz.cx;
                    Point.y := KnowledgeGraphViz.cy |} |}.
Proof.
  intros Hone Hid Hi. split.
  - apply full_nodePositions_lookup; [exact Hi|].
    apply full_posMap_center; assumption.
  - apply compact_nodePositions_lookup; [exact Hi|].
    apply compact_posMap_center; assumption.
Qed.

Lemma scenarioA_entity_id (n : GraphNode.t) :
  n ∈ scenarioA -> GraphNode.type n <> "entity" ->
  GraphNode.id n <> GraphNode.id nodeA.
Proof.
  intros Hn Ht.
  repeat (apply elem_of_cons in Hn as [->|Hn]);
    [contradiction | discriminate | discriminate |].
  apply elem_of_nil in Hn. contradiction.
Defined.

Lemma single_entity_centered_witness :
  FullScreenGraph.nodePositions scenarioA !! 0%nat
  = Some {| PositionedNode.node := nodeA;
            PositionedNode.pos :=
              {| Point.x := FullScreenGraph.cx;
                 Point.y := FullScreenGraph.cy |} |}
  /\ KnowledgeGraphViz.nodePositions scenarioA !! 0%nat
     = Some {| PositionedNode.node := nodeA;
               PositionedNode.pos :=
                 {| Point.x := KnowledgeGraphViz.cx;
                    Point.y := KnowledgeGraphViz.cy |} |}.
Proof.
  apply (single_entity_centered scenarioA nodeA 0).
  - reflexivity.
  - exact scenarioA_entity_id.
  - reflexivity.
Defined.

(** The same with the invariant of the data model as it is stated: the
    ids of the graph are unique. *)
Lemma single_entity_centered_unique_ids (nodes : list GraphNode.t)
    (e : GraphNode.t) (i : nat) :
  NoDup (map GraphNode.id nodes) ->
  List.filter (fun n => String.eqb (GraphNode.type n) "entity") nodes = [e] ->
  nodes !! i = Some e ->
  FullScreenGraph.posMap nodes !! GraphNode.id e
  = Some {| Point.x := FullScreenGraph.cx; Point.y := FullScreenGraph.cy |}
  /\ KnowledgeGraphViz.posMap nodes !! GraphNode.id e
     = Some {| Point.x := KnowledgeGraphViz.cx;
               Point.y := KnowledgeGraphViz.cy |}.
Proof.
  intros Hnd Hone Hi.
  assert (He : e ∈ nodes) by (apply list_elem_of_lookup; eauto).
  assert (Hty : GraphNode.type e = "entity").
  { assert (H : e ∈ FullScreenGraph.entities nodes)
      by (unfold FullScreenGraph.entities; rewrite Hone;
          apply list_elem_of_here).
    apply full_entities_type in H. tauto. }
  assert (Hid : forall n, n ∈ nodes -> GraphNode.type n <> "entity" ->
                          GraphNode.id n <> GraphNode.id e).
  { intros n Hn Ht Heq.
    assert (n = e) by (apply (ids_inj nodes); auto). congruence. }
  split; [apply full_posMap_center | apply compact_posMap_center];
    assumption.
Qed.

(** What the hypothesis on the id rules out: when an action carries the id
    of the single entity, the later write of the action ring wins in the
    position map, and the entity is drawn on that ring. *)
Lemma repeated_id_last_write_wins :
  FullScreenGraph.entities repeatedId = [nodeA]
  /\ FullScreenGraph.nodePositions repeatedId !! 0%nat
     = Some {| PositionedNode.node := nodeA;
               PositionedNode.pos :=
                 tier_position FullScreenGraph.cx FullScreenGraph.cy 220 160
                   (tier_angle 0.5 1 0) |}
  /\ tier_position FullScreenGraph.cx FullScreenGraph.cy 220 160
       (tier_angle 0.5 1 0)
     <> {| Point.x := FullScreenGraph.cx; Point.y := FullScreenGraph.cy |}.
Proof.
  split; [reflexivity|]. split.
  - apply full_nodePositions_lookup; [reflexivity|].
    unfold FullScreenGraph.posMap, FullScreenGraph.layer3.
    change (FullScreenGraph.ring3 repeatedId) with (@nil GraphNode.t).
    rewrite full_distribute_nil. unfold FullScreenGraph.layer2.
    change (FullScreenGraph.actions repeatedId) with [nodeAct].
    apply (full_distribute_last [nodeAct] 220 160 0.5 _ 0 nodeAct eq_refl).
    intros j n' Hlt Hj. destruct j; [lia | discriminate].
  - unfold tier_position. intros H. injection H as Hx _.
    assert (Ha : tier_angle 0.5 1 0 = - (PI / 2 - 0.5))
      by (unfold tier_angle; simpl; lra).
    rewrite Ha, cos_neg, cos_shift in Hx.
    pose proof sin_half_pos. lra.
Qed.

(** Centering as the specification states it, for every node list with
    exactly one entity, fails on [repeatedId]: its one entity shares the
    id a with an action, and both components draw it at the slot of that
    action on the action ring, which is not the canvas center. *)
Lemma single_entity_centered_counterexample :
  List.filter (fun n => String.eqb (GraphNode.type n) "entity") repeatedId
  = [nodeA]
  /\ repeatedId !! 0%nat = Some nodeA
  /\ FullScreenGraph.nodePositions repeatedId !! 0%nat
     <> Some {| PositionedNode.node := nodeA;
                PositionedNode.pos :=
                  {| Point.x := FullScreenGraph.cx;
                     Point.y := FullScreenGraph.cy |} |}
  /\ KnowledgeGraphViz.nodePositions repeatedId !! 0%nat
     <> Some {| PositionedNode.node := nodeA;
                PositionedNode.pos :=
                  {| Point.x := KnowledgeGraphViz.cx;
                     Point.y := KnowledgeGraphViz.cy |} |}.
Proof.
  split; [reflexivity|]. split; [reflexivity|]. split.
  - destruct repeated_id_last_write_wins as [_ [Hpos Hne]].
    rewrite Hpos. intros Heq. apply Hne. congruence.
  - assert (Hpos : KnowledgeGraphViz.posMap repeatedId !! GraphNode.id nodeA
                   = Some (tier_position KnowledgeGraphViz.cx
                             KnowledgeGraphViz.cy 90 90
                             (tier_angle 0.5 1 0))).
    { unfold KnowledgeGraphViz.posMap, KnowledgeGraphViz.layer3.
      change (KnowledgeGraphViz.ring3 repeatedId) with (@nil GraphNode.t).
      rewrite compact_distribute_nil. unfold KnowledgeGraphViz.layer2.
      change (KnowledgeGraphViz.actions repeatedId) with [nodeAct].
      apply (compact_distribute_last [nodeAct] 90 0.5 _ 0 nodeAct eq_refl).
      intros j n' Hlt Hj. destruct j; [lia | discriminate]. }
    rewrite (compact_nodePositions_lookup repeatedId 0 nodeA _ eq_refl Hpos).
    intros Heq.
    assert (Hc : tier_position KnowledgeGraphViz.cx KnowledgeGraphViz.cy
                   90 90 (tier_angle 0.5 1 0)
                 = {| Point.x := KnowledgeGraphViz.cx;
                      Point.y := KnowledgeGraphViz.cy |}) by congruence.
    unfold tier_position in Hc. injection Hc as Hx _.
    assert (Ha : tier_angle 0.5 1 0 = - (PI / 2 - 0.5))
      by (unfold tier_angle; simpl; lra).
    rewrite Ha, cos_neg, cos_shift in Hx.
    pose proof sin_half_pos. lra.
Qed.

(** ** Order of the outer ring *)

(** One filter on [p || q] holds the same elements as the two filters on
    [p] and on [q] when no element passes both. *)
Lemma filter_orb_Permutation {A : Type} (p q : A -> bool) (l : list A) :
  (forall a, p a = true -> q a = false) ->
  List.filter (fun a => p a || q a) l ≡ₚ List.filter p l ++ List.filter q l.
Proof.
  intros Hpq. induction l as [|a l IH]; simpl; [reflexivity|].
  destruct (p a) eqn:Hp; simpl.
  - rewrite (Hpq a Hp). constructor. exact IH.
  - destruct (q a); [|exact IH].
    rewrite IH. apply Permutation_middle.
Qed.

Lemma full_results_filter (nodes : list GraphNode.t) :
  FullScreenGraph.results nodes
  = List.filter (fun n => String.eqb (GraphNode.type n) "risk"
                          || String.eqb (GraphNode.type n) "outcome") nodes.
Proof.
  unfold FullScreenGraph.results. apply filter_ext. intros n.
  unfold includes. simpl. rewrite orb_false_r. reflexivity.
Qed.

(** C3, as the code has it: the compact component orders the outer ring
    risks, outcomes, others; the full-screen component lists the risk- and
    outcome-typed nodes together in input order, then the others, which is
    a permutation of the compact order and keeps every node of another
    type behind the risk and outcome nodes. *)
Theorem outer_ring_order (nodes : list GraphNode.t) :
  KnowledgeGraphViz.ring3 nodes = risk_then_outcome_then_other nodes
  /\ FullScreenGraph.ring3 nodes
     = List.filter (fun n => String.eqb (GraphNode.type n) "risk"
                             || String.eqb (GraphNode.type n) "outcome") nodes
       ++ List.filter
            (fun n => negb (includes ["entity"; "action"; "risk"; "outcome"]
                              (GraphNode.type n)))
            nodes
  /\ FullScreenGraph.ring3 nodes ≡ₚ risk_then_outcome_then_other nodes
  /\ KnowledgeGraphViz.posMap nodes
     = KnowledgeGraphViz.distribute (KnowledgeGraphViz.ring3 nodes) 130 1.0
         (KnowledgeGraphViz.layer2 nodes (KnowledgeGraphViz.layer1 nodes ∅))
  /\ FullScreenGraph.posMap nodes
     = FullScreenGraph.distribute (FullScreenGraph.ring3 nodes) 320 240 1.0
         (FullScreenGraph.layer2 nodes (FullScreenGraph.layer1 nodes ∅)).
Proof.
  split; [reflexivity|]. split.
  - unfold FullScreenGraph.ring3. rewrite full_results_filter. reflexivity.
  - split; [|split; reflexivity].
    unfold FullScreenGraph.ring3, risk_then_outcome_then_other.
    rewrite full_results_filter, app_assoc.
    apply Permutation_app_tail.
    apply (filter_orb_Permutation
             (fun n => String.eqb (GraphNode.type n) "risk")
             (fun n => String.eqb (GraphNode.type n) "outcome")).
    intros n Hr. apply String.eqb_eq in Hr. rewrite Hr. reflexivity.
Qed.

Lemma outcomeFirst_ids : NoDup (map GraphNode.id outcomeFirst).
Proof.
  apply NoDup_cons. split.
  - intros H. apply list_elem_of_singleton in H. discriminate.
  - apply NoDup_singleton.
Qed.

Lemma sin_1_pos : 0 < sin 1.
Proof.
  apply sin_gt_0; [lra|]. pose proof PI2_1. lra.
Qed.

(** The full-screen component, given an outcome before a risk, puts the
    outcome first, and the risk node does not get the position of the
    first slot of the ring. *)
Lemma outer_ring_order_counterexample :
  FullScreenGraph.ring3 outcomeFirst = [nodeO; nodeC]
  /\ risk_then_outcome_then_other outcomeFirst = [nodeC; nodeO]
  /\ FullScreenGraph.ring3 outcomeFirst
     <> risk_then_outcome_then_other outcomeFirst
  /\ FullScreenGraph.posMap outcomeFirst !! GraphNode.id nodeC
     <> Some (tier_position FullScreenGraph.cx FullScreenGraph.cy 320 240
                (tier_angle 1.0 2 0)).
Proof.
  split; [reflexivity|]. split; [reflexivity|]. split; [discriminate|].
  rewrite (full_posMap_ring3 outcomeFirst outcomeFirst_ids 1 nodeC eq_refl).
  change (length (FullScreenGraph.ring3 outcomeFirst)) with 2%nat.
  intros Heq. injection Heq as Hx _.
  assert (Ha0 : tier_angle 1.0 2 0 = - (PI / 2 - 1))
    by (unfold tier_angle; simpl; lra).
  assert (Ha1 : tier_angle 1.0 2 1 = - (PI / 2 - 1) + PI)
    by (unfold tier_angle; simpl; lra).
  rewrite Ha0, Ha1, neg_cos, cos_neg, cos_shift in Hx.
  pose proof sin_1_pos. lra.
Qed.

(** ** The viewport *)

Ltac clamp_cases :=
  unfold Rmin, Rmax; repeat destruct Rle_dec; simpl in *; try lra.

Section Viewport.

Import FullScreenGraph.

Lemma initial_in_zoom_range : in_zoom_range initial.
Proof. unfold in_zoom_range. simpl. lra. Qed.

(** The wheel handler clamps on both sides, whatever the previous scale. *)
Lemma handleWheel_in_zoom_range (deltaY : R) (s : State) :
  in_zoom_range (handleWheel deltaY s).
Proof. unfold in_zoom_range, handleWheel. simpl. clamp_cases. Qed.

(** The buttons clamp on one side and rely on the other bound holding. *)
Lemma zoomIn_in_zoom_range (s : State) :
  in_zoom_range s -> in_zoom_range (zoomIn s).
Proof. unfold in_zoom_range, zoomIn. simpl. intros H. clamp_cases. Qed.

Lemma zoomOut_in_zoom_range (s : State) :
  in_zoom_range s -> in_zoom_range (zoomOut s).
Proof. unfold in_zoom_range, zoomOut. simpl. intros H. clamp_cases. Qed.

Lemma handle_in_zoom_range (e : Event) (s : State) :
  in_zoom_range s -> in_zoom_range (handle e s).
Proof.
  intros H. destruct e; simpl.
  - apply handleWheel_in_zoom_range.
  - exact H.
  - unfold handleMouseMove. destruct (isDragging s); simpl; exact H.
  - exact H.
  - exact H.
  - apply zoomIn_in_zoom_range, H.
  - apply zoomOut_in_zoom_range, H.
  - unfold in_zoom_range. simpl. lra.
  - exact H.
  - exact H.
Qed.

Lemma trace_in_zoom_range (es : list Event) (s : State) :
  in_zoom_range s -> Forall in_zoom_range (trace s es).
Proof.
  revert s. induction es as [|e es IH]; intros s H; simpl.
  - constructor.
  - constructor.
    + apply handle_in_zoom_range, H.
    + apply IH, handle_in_zoom_range, H.
Qed.

(** C2: after each event of any sequence (wheel with any [deltaY], the
    zoom buttons, reset, and also the drag and hover events) run from the
    initial state, the scale lies in [[0.2, 4]]. *)
Theorem zoom_clamp (es : list Event) :
  Forall (fun s => 0.2 <= ViewState.scale (viewState s) <= 4)
         (trace initial es).
Proof. apply (trace_in_zoom_range es initial), initial_in_zoom_range. Qed.

(** The trace lists one state per event. *)
Lemma trace_length (es : list Event) (s : State) :
  length (trace s es) = length es.
Proof.
  revert s. induction es as [|e es IH]; intros s; simpl; [|rewrite IH];
    reflexivity.
Qed.

(** *** Repeating an event *)

Lemma State_eq (h : option string) (v v' : ViewState.t) (d : bool)
    (p p' : Point.t) :
  v = v' -> p = p' ->
  {| hoveredNodeId := h; viewState := v; isDragging := d;
     lastMousePos := p |}
  = {| hoveredNodeId := h; viewState := v'; isDragging := d;
       lastMousePos := p' |}.
Proof. intros -> ->. reflexivity. Qed.

Lemma handleMouseMove_idempotent (clientX clientY : R) (s : State) :
  handleMouseMove clientX clientY (handleMouseMove clientX clientY s)
  = handleMouseMove clientX clientY s.
Proof.
  unfold handleMouseMove. destruct (isDragging s) eqn:Hd; simpl.
  - rewrite Hd. simpl. unfold setViewState, setLastMousePos. simpl.
    apply State_eq; [|reflexivity].
    f_equal; lra.
  - rewrite Hd. reflexivity.
Qed.

Lemma scale_zoomIn_twice (s : State) :
  zoomIn (zoomIn s) = zoomIn s <-> 4 <= ViewState.scale (viewState s) + 0.2.
Proof.
  unfold zoomIn, setViewState. simpl. split.
  - intros H. injection H as H. revert H. clamp_cases.
  - intros H. apply State_eq; [|reflexivity]. f_equal. clamp_cases.
Qed.

Lemma scale_zoomOut_twice (s : State) :
  zoomOut (zoomOut s) = zoomOut s
  <-> ViewState.scale (viewState s) - 0.2 <= 0.2.
Proof.
  unfold zoomOut, setViewState. simpl. split.
  - intros H. injection H as H. revert H. clamp_cases.
  - intros H. apply State_eq; [|reflexivity]. f_equal. clamp_cases.
Qed.

Lemma scale_handleWheel_twice (deltaY : R) (s : State) :
  handleWheel deltaY (handleWheel deltaY s) = handleWheel deltaY s
  <-> deltaY = 0
      \/ (deltaY < 0 /\ 4 <= ViewState.scale (viewState s) - deltaY * 0.001)
      \/ (0 < deltaY
          /\ ViewState.scale (viewState s) - deltaY * 0.001 <= 0.2).
Proof.
  unfold handleWheel, setViewState. simpl. split.
  - intros H. injection H as H. revert H. clamp_cases.
  - intros H. apply State_eq; [|reflexivity]. f_equal. clamp_cases.
Qed.

(** C7, as the code has it: pressing, moving and releasing the pointer and
    resetting the view are idempotent in every state; the zoom buttons and
    the wheel are not: a second identical application moves the scale
    again, unless the first one already ran into the clamp bound. *)
Theorem repeated_event (s : State) :
  (forall x y, handle (MouseDown x y) (handle (MouseDown x y) s)
               = handle (MouseDown x y) s)
  /\ (forall x y, handle (MouseMove x y) (handle (MouseMove x y) s)
                  = handle (MouseMove x y) s)
  /\ handle MouseUp (handle MouseUp s) = handle MouseUp s
  /\ handle MouseLeave (handle MouseLeave s) = handle MouseLeave s
  /\ handle ClickResetView (handle ClickResetView s) = handle ClickResetView s
  /\ (handle ClickZoomIn (handle ClickZoomIn s) = handle ClickZoomIn s
      <-> 4 <= ViewState.scale (viewState s) + 0.2)
  /\ (handle ClickZoomOut (handle ClickZoomOut s) = handle ClickZoomOut s
      <-> ViewState.scale (viewState s) - 0.2 <= 0.2)
  /\ (forall deltaY,
        handle (Wheel deltaY) (handle (Wheel deltaY) s)
        = handle (Wheel deltaY) s
        <-> deltaY = 0
            \/ (deltaY < 0
                /\ 4 <= ViewState.scale (viewState s) - deltaY * 0.001)
            \/ (0 < deltaY
                /\ ViewState.scale (viewState s) - deltaY * 0.001 <= 0.2)).
Proof.
  repeat split; try reflexivity.
  - intros x y. apply handleMouseMove_idempotent.
  - apply scale_zoomIn_twice.
  - apply scale_zoomIn_twice.
  - apply scale_zoomOut_twice.
  - apply scale_zoomOut_twice.
  - apply scale_handleWheel_twice.
  - apply scale_handleWheel_twice.
Qed.

(** From the initial state, which is reachable, a second click on a zoom
    button or a second identical wheel event changes the state again. *)
Lemma repeated_event_counterexample :
  handle ClickZoomIn (handle ClickZoomIn initial) <> handle ClickZoomIn initial
  /\ handle ClickZoomOut (handle ClickZoomOut initial)
     <> handle ClickZoomOut initial
  /\ handle (Wheel 100) (handle (Wheel 100) initial)
     <> handle (Wheel 100) initial.
Proof.
  split; [|split]; simpl.
  - rewrite scale_zoomIn_twice. simpl. lra.
  - rewrite scale_zoomOut_twice. simpl. lra.
  - rewrite scale_handleWheel_twice. simpl. lra.
Qed.

(** The scales behind the counterexample: 1.2 then 1.4. *)
Lemma zoomIn_twice_scales :
  ViewState.scale (viewState (zoomIn initial)) = 1.2
  /\ ViewState.scale (viewState (zoomIn (zoomIn initial))) = 1.4.
Proof. simpl. split; clamp_cases. Qed.

End Viewport.

(** ** Leaving a node *)

(** C8, as the code has it: in both components the leave handler of a
    node clears the hovered id whatever it was, also when another node
    than the one being left is hovered; the full-screen handler touches no
    other part of the state. *)
Theorem node_leave_clears (node : GraphNode.t)
    (sF : FullScreenGraph.State) (sC : KnowledgeGraphViz.State) :
  FullScreenGraph.hoveredNodeId (FullScreenGraph.onMouseLeave node sF) = None
  /\ FullScreenGraph.viewState (FullScreenGraph.onMouseLeave node sF)
     = FullScreenGraph.viewState sF
  /\ FullScreenGraph.isDragging (FullScreenGraph.onMouseLeave node sF)
     = FullScreenGraph.isDragging sF
  /\ FullScreenGraph.lastMousePos (FullScreenGraph.onMouseLeave node sF)
     = FullScreenGraph.lastMousePos sF
  /\ KnowledgeGraphViz.hoveredNodeId (KnowledgeGraphViz.onMouseLeave node sC)
     = None.
Proof. repeat split. Qed.

(** While [b] is hovered, a leave event of [a] clears the hover. *)
Lemma node_leave_counterexample :
  let sF := FullScreenGraph.onMouseEnter nodeB FullScreenGraph.initial in
  let sC := KnowledgeGraphViz.onMouseEnter nodeB KnowledgeGraphViz.initial in
  FullScreenGraph.hoveredNodeId sF = Some "b"
  /\ FullScreenGraph.hoveredNodeId sF <> Some (GraphNode.id nodeA)
  /\ FullScreenGraph.hoveredNodeId (FullScreenGraph.onMouseLeave nodeA sF)
     <> FullScreenGraph.hoveredNodeId sF
  /\ KnowledgeGraphViz.hoveredNodeId sC = Some "b"
  /\ KnowledgeGraphViz.hoveredNodeId (KnowledgeGraphViz.onMouseLeave nodeA sC)
     <> KnowledgeGraphViz.hoveredNodeId sC.
Proof. simpl. repeat split; discriminate. Qed.

(** ** Colors *)

Lemma includes_false_neq (s t : string) (arr : list string) :
  includes arr s = false -> t ∈ arr -> String.eqb s t = false.
Proof.
  unfold includes. intros H Ht.
  destruct (String.eqb s t) eqn:E; [|reflexivity].
  rewrite <- H. symmetry. apply existsb_exists.
  exists t. split; [apply list_elem_of_In, Ht | exact E].
Qed.

(** C10: the two color functions agree on the four recognized tags and
    return different defaults, ['#94a3b8'] (compact) and ['#64748b']
    (full screen), on every other string; they are not extensionally
    equal. *)
Theorem getNodeColor_defaults_differ :
  (KnowledgeGraphViz.getNodeColor "entity" = "#06b6d4"
   /\ FullScreenGraph.getNodeColor "entity" = "#06b6d4")
  /\ (KnowledgeGraphViz.getNodeColor "action" = "#10b981"
      /\ FullScreenGraph.getNodeColor "action" = "#10b981")
  /\ (KnowledgeGraphViz.getNodeColor "risk" = "#ef4444"
      /\ FullScreenGraph.getNodeColor "risk" = "#ef4444")
  /\ (KnowledgeGraphViz.getNodeColor "outcome" = "#f59e0b"
      /\ FullScreenGraph.getNodeColor "outcome" = "#f59e0b")
  /\ (forall type : string,
        includes ["entity"; "action"; "risk"; "outcome"] type = false ->
        KnowledgeGraphViz.getNodeColor type = "#94a3b8"
        /\ FullScreenGraph.getNodeColor type = "#64748b"
        /\ KnowledgeGraphViz.getNodeColor type
           <> FullScreenGraph.getNodeColor type)
  /\ ~ (forall type : string,
          KnowledgeGraphViz.getNodeColor type
          = FullScreenGraph.getNodeColor type).
Proof.
  repeat (split; [split; reflexivity|]).
  assert (Hdef : forall type : string,
             includes ["entity"; "action"; "risk"; "outcome"] type = false ->
             KnowledgeGraphViz.getNodeColor type = "#94a3b8"
             /\ FullScreenGraph.getNodeColor type = "#64748b").
  { intros type H.
    unfold KnowledgeGraphViz.getNodeColor, FullScreenGraph.getNodeColor.
    rewrite (includes_false_neq _ "risk" _ H) by set_solver.
    rewrite (includes_false_neq _ "outcome" _ H) by set_solver.
    rewrite (includes_false_neq _ "action" _ H) by set_solver.
    rewrite (includes_false_neq _ "entity" _ H) by set_solver.
    split; reflexivity. }
  split.
  - intros type H. destruct (Hdef type H) as [Hc Hf].
    rewrite Hc, Hf. repeat split. discriminate.
  - intros Hall. specialize (Hall "concept"). discriminate Hall.
Qed.

Lemma getNodeColor_defaults_differ_witness :
  includes ["entity"; "action"; "risk"; "outcome"] "concept" = false
  /\ KnowledgeGraphViz.getNodeColor "concept" = "#94a3b8"
  /\ FullScreenGraph.getNodeColor "concept" = "#64748b"
  /\ KnowledgeGraphViz.getNodeColor "concept"
     <> FullScreenGraph.getNodeColor "concept".
Proof.
  split; [reflexivity|].
  destruct getNodeColor_defaults_differ as (_ & _ & _ & _ & H & _).
  exact (H "concept" eq_refl).
Defined.

(** ** Looking nodes up by id *)

(** [find] on the positioned nodes follows [find] on the nodes. *)
Lemma find_positioned (f : GraphNode.t -> Point.t)
    (p : GraphNode.t -> bool) (nodes : list GraphNode.t) :
  List.find (fun pn => p (PositionedNode.node pn))
    (map (fun n => {| PositionedNode.node := n;
                      PositionedNode.pos := f n |}) nodes)
  = option_map (fun n => {| PositionedNode.node := n;
                            PositionedNode.pos := f n |})
      (List.find p nodes).
Proof.
  induction nodes as [|a l IH]; simpl; [reflexivity|].
  destruct (p a); [reflexivity | exact IH].
Qed.

Lemma find_id_None (k : string) (nodes : list GraphNode.t) :
  List.find (fun n => String.eqb (GraphNode.id n) k) nodes = None
  <-> k ∉ map GraphNode.id nodes.
Proof.
  induction nodes as [|a l IH]; simpl.
  - split; [intros _ H; apply elem_of_nil in H; exact H | reflexivity].
  - rewrite not_elem_of_cons.
    destruct (String.eqb_spec (GraphNode.id a) k) as [Heq|Hne].
    + split; [discriminate | intros [Hk _]; congruence].
    + rewrite IH. split; [intros H; split; [congruence | exact H] | tauto].
Qed.

Lemma find_id_Some (k : string) (nodes : list GraphNode.t)
    (n : GraphNode.t) :
  List.find (fun n => String.eqb (GraphNode.id n) k) nodes = Some n ->
  n ∈ nodes /\ GraphNode.id n = k.
Proof.
  intros H. apply find_some in H as [Hin Heq].
  split; [apply list_elem_of_In, Hin | apply String.eqb_eq, Heq].
Qed.

(** ** Dangling edges *)

Lemma Forall2_map_all {A B : Type} (P : A -> B -> Prop) (f : A -> B)
    (l : list A) :
  (forall a, P a (f a)) -> Forall2 P l (map f l).
Proof. intros H. induction l; simpl; constructor; auto. Qed.

Lemma full_renderEdge_None (s : FullScreenGraph.State)
    (nodes : list GraphNode.t) (edge : GraphEdge.t) :
  FullScreenGraph.renderEdge s (FullScreenGraph.nodePositions nodes) edge
  = None <-> dangling nodes edge.
Proof.
  unfold FullScreenGraph.renderEdge, FullScreenGraph.nodePositions, dangling.
  rewrite !(find_positioned _ (fun n => String.eqb (GraphNode.id n) _)).
  rewrite <- !find_id_None.
  destruct (List.find _ nodes); destruct (List.find _ nodes); simpl;
    split; try discriminate; try tauto; intros [H|H]; discriminate.
Qed.

Lemma compact_renderEdge_None (s : KnowledgeGraphViz.State)
    (nodes : list GraphNode.t) (edge : GraphEdge.t) :
  KnowledgeGraphViz.renderEdge s (KnowledgeGraphViz.nodePositions nodes) edge
  = None <-> dangling nodes edge.
Proof.
  unfold KnowledgeGraphViz.renderEdge, KnowledgeGraphViz.nodePositions,
    dangling.
  rewrite !(find_positioned _ (fun n => String.eqb (GraphNode.id n) _)).
  rewrite <- !find_id_None.
  destruct (List.find _ nodes); destruct (List.find _ nodes); simpl;
    split; try discriminate; try tauto; intros [H|H]; discriminate.
Qed.

Lemma full_renderEdge_Some (s : FullScreenGraph.State)
    (ns : list PositionedNode.t) (edge : GraphEdge.t)
    (g : FullScreenGraph.EdgeGroup.t) :
  FullScreenGraph.renderEdge s ns edge = Some g ->
  joins ns edge
    (FullScreenGraph.EdgeGroup.x1 g) (FullScreenGraph.EdgeGroup.y1 g)
    (FullScreenGraph.EdgeGroup.x2 g) (FullScreenGraph.EdgeGroup.y2 g).
Proof.
  unfold FullScreenGraph.renderEdge.
  destruct (List.find
              (fun n => String.eqb (GraphNode.id (PositionedNode.node n))
                          (GraphEdge.from edge)) ns)
    as [start|] eqn:Hs; [|discriminate].
  destruct (List.find
              (fun n => String.eqb (GraphNode.id (PositionedNode.node n))
                          (GraphEdge.to edge)) ns)
    as [end_|] eqn:He; [|discriminate].
  cbv zeta. intros H. injection H as <-.
  apply find_some in Hs as [Hs1 Hs2]. apply find_some in He as [He1 He2].
  apply String.eqb_eq in Hs2, He2. apply list_elem_of_In in Hs1, He1.
  exists start, end_. simpl. repeat split; assumption.
Qed.

Lemma compact_renderEdge_Some (s : KnowledgeGraphViz.State)
    (ns : list PositionedNode.t) (edge : GraphEdge.t)
    (g : KnowledgeGraphViz.EdgeGroup.t) :
  KnowledgeGraphViz.renderEdge s ns edge = Some g ->
  joins ns edge
    (KnowledgeGraphViz.EdgeGroup.x1 g) (KnowledgeGraphViz.EdgeGroup.y1 g)
    (KnowledgeGraphViz.EdgeGroup.x2 g) (KnowledgeGraphViz.EdgeGroup.y2 g).
Proof.
  unfold KnowledgeGraphViz.renderEdge.
  destruct (List.find
              (fun n => String.eqb (GraphNode.id (PositionedNode.node n))
                          (GraphEdge.from edge)) ns)
    as [start|] eqn:Hs; [|discriminate].
  destruct (List.find
              (fun n => String.eqb (GraphNode.id (PositionedNode.node n))
                          (GraphEdge.to edge)) ns)
    as [end_|] eqn:He; [|discriminate].
  cbv zeta. intros H. injection H as <-.
  apply find_some in Hs as [Hs1 Hs2]. apply find_some in He as [He1 He2].
  apply String.eqb_eq in Hs2, He2. apply list_elem_of_In in Hs1, He1.
  exists start, end_. simpl. repeat split; assumption.
Qed.

(** C5: in both scenes the children rendered for the edges line up with
    the edges; the child of an edge is [null] (no line, no label) exactly
    when one of its endpoints is the id of no node, and rendering is a
    total function, so nothing is raised.  Every other edge renders to a
    group whose line joins the positioned nodes of its two endpoints. *)
Theorem dangling_edges_dropped (nodes : list GraphNode.t)
    (edges : list GraphEdge.t)
    (sF : FullScreenGraph.State) (sC : KnowledgeGraphViz.State) :
  Forall2
    (fun edge g =>
       (g = None <-> dangling nodes edge)
       /\ (forall line, g = Some line ->
             joins (FullScreenGraph.nodePositions nodes) edge
               (FullScreenGraph.EdgeGroup.x1 line)
               (FullScreenGraph.EdgeGroup.y1 line)
               (FullScreenGraph.EdgeGroup.x2 line)
               (FullScreenGraph.EdgeGroup.y2 line)))
    edges
    (FullScreenGraph.Scene.edges (FullScreenGraph.render nodes edges sF))
  /\ Forall2
       (fun edge g =>
          (g = None <-> dangling nodes edge)
          /\ (forall line, g = Some line ->
                joins (KnowledgeGraphViz.nodePositions nodes) edge
                  (KnowledgeGraphViz.EdgeGroup.x1 line)
                  (KnowledgeGraphViz.EdgeGroup.y1 line)
                  (KnowledgeGraphViz.EdgeGroup.x2 line)
                  (KnowledgeGraphViz.EdgeGroup.y2 line)))
       edges
       (KnowledgeGraphViz.Scene.edges
          (KnowledgeGraphViz.render nodes edges sC)).
Proof.
  split; simpl; apply Forall2_map_all; intros edge; split.
  - apply full_renderEdge_None.
  - apply full_renderEdge_Some.
  - apply compact_renderEdge_None.
  - apply compact_renderEdge_Some.
Qed.

(** ** Hover dimming *)

Lemma full_renderEdge_opacity (s : FullScreenGraph.State)
    (ns : list PositionedNode.t) (edge : GraphEdge.t)
    (line : FullScreenGraph.EdgeGroup.t) :
  FullScreenGraph.renderEdge s ns edge = Some line ->
  FullScreenGraph.EdgeGroup.opacity line
  = if truthy (FullScreenGraph.hoveredNodeId s)
       && negb (truthy (FullScreenGraph.hoveredNodeId s)
                && (strictEq (FullScreenGraph.hoveredNodeId s)
                      (GraphEdge.from edge)
                    || strictEq (FullScreenGraph.hoveredNodeId s)
                         (GraphEdge.to edge)))
    then 0.1 else 1.
Proof.
  unfold FullScreenGraph.renderEdge.
  destruct (List.find _ ns); [|discriminate].
  destruct (List.find _ ns); [|discriminate].
  cbv zeta. intros H. injection H as <-. reflexivity.
Qed.

Lemma compact_renderEdge_opacity (s : KnowledgeGraphViz.State)
    (ns : list PositionedNode.t) (edge : GraphEdge.t)
    (line : KnowledgeGraphViz.EdgeGroup.t) :
  KnowledgeGraphViz.renderEdge s ns edge = Some line ->
  KnowledgeGraphViz.EdgeGroup.strokeOpacity line
  = if truthy (KnowledgeGraphViz.hoveredNodeId s)
       && negb (truthy (KnowledgeGraphViz.hoveredNodeId s)
                && (strictEq (KnowledgeGraphViz.hoveredNodeId s)
                      (GraphEdge.from edge)
                    || strictEq (KnowledgeGraphViz.hoveredNodeId s)
                         (GraphEdge.to edge)))
    then 0.1 else 1.
Proof.
  unfold KnowledgeGraphViz.renderEdge.
  destruct (List.find _ ns); [|discriminate].
  destruct (List.find _ ns); [|discriminate].
  cbv zeta. intros H. injection H as <-. reflexivity.
Qed.

Lemma truthy_Some (N : string) : N <> "" -> truthy (Some N) = true.
Proof.
  intros H. simpl. apply negb_true_iff.
  destruct (String.eqb_spec N ""); [contradiction | reflexivity].
Qed.

(** Hovering a node whose id is not the empty string dims, in both
    components, every rendered edge that does not touch it to 0.1 and
    every node with another id to 0.3 (full screen) or 0.2 (compact); the
    edges that touch it stay at 1. *)
Lemma hover_dimming_nonempty (nodes : list GraphNode.t)
    (edges : list GraphEdge.t) (N : string)
    (sF : FullScreenGraph.State) (sC : KnowledgeGraphViz.State) :
  N <> "" ->
  FullScreenGraph.hoveredNodeId sF = Some N ->
  KnowledgeGraphViz.hoveredNodeId sC = Some N ->
  Forall2
    (fun edge g =>
       forall line, g = Some line ->
         FullScreenGraph.EdgeGroup.opacity line
         = if String.eqb N (GraphEdge.from edge)
              || String.eqb N (GraphEdge.to edge)
           then 1 else 0.1)
    edges
    (FullScreenGraph.Scene.edges (FullScreenGraph.render nodes edges sF))
  /\ Forall
       (fun g => FullScreenGraph.NodeGroup.key g <> N ->
                 FullScreenGraph.NodeGroup.opacity g = 0.3)
       (FullScreenGraph.Scene.nodes (FullScreenGraph.render nodes edges sF))
  /\ Forall2
       (fun edge g =>
          forall line, g = Some line ->
            KnowledgeGraphViz.EdgeGroup.strokeOpacity line
            = if String.eqb N (GraphEdge.from edge)
                 || String.eqb N (GraphEdge.to edge)
              then 1 else 0.1)
       edges
       (KnowledgeGraphViz.Scene.edges
          (KnowledgeGraphViz.render nodes edges sC))
  /\ Forall
       (fun g => KnowledgeGraphViz.NodeGroup.key g <> N ->
                 KnowledgeGraphViz.NodeGroup.opacity g = 0.2)
       (KnowledgeGraphViz.Scene.nodes
          (KnowledgeGraphViz.render nodes edges sC)).
Proof.
  intros HN HF HC. pose proof (truthy_Some N HN) as Ht.
  split; [|split; [|split]]; simpl.
  - apply Forall2_map_all. intros edge line H.
    rewrite (full_renderEdge_opacity _ _ _ _ H), HF, Ht. simpl.
    destruct (_ || _); reflexivity.
  - apply Forall_map, Forall_forall. intros pn _. simpl. intros Hk.
    rewrite HF, Ht. simpl.
    destruct (String.eqb_spec N (GraphNode.id (PositionedNode.node pn)));
      [congruence | reflexivity].
  - apply Forall2_map_all. intros edge line H.
    rewrite (compact_renderEdge_opacity _ _ _ _ H), HC, Ht. simpl.
    destruct (_ || _); reflexivity.
  - apply Forall_map, Forall_forall. intros pn _. simpl. intros Hk.
    rewrite HC, Ht. simpl.
    destruct (String.eqb_spec N (GraphNode.id (PositionedNode.node pn)));
      [congruence | reflexivity].
Qed.

(** Without a hovered node everything is fully opaque. *)
Lemma no_hover_full_opacity (nodes : list GraphNode.t)
    (edges : list GraphEdge.t)
    (sF : FullScreenGraph.State) (sC : KnowledgeGraphViz.State) :
  FullScreenGraph.hoveredNodeId sF = None ->
  KnowledgeGraphViz.hoveredNodeId sC = None ->
  Forall2
    (fun edge g =>
       forall line, g = Some line ->
         FullScreenGraph.EdgeGroup.opacity line = 1)
    edges
    (FullScreenGraph.Scene.edges (FullScreenGraph.render nodes edges sF))
  /\ Forall (fun g => FullScreenGraph.NodeGroup.opacity g = 1)
       (FullScreenGraph.Scene.nodes (FullScreenGraph.render nodes edges sF))
  /\ Forall2
       (fun edge g =>
          forall line, g = Some line ->
            KnowledgeGraphViz.EdgeGroup.strokeOpacity line = 1)
       edges
       (KnowledgeGraphViz.Scene.edges
          (KnowledgeGraphViz.render nodes edges sC))
  /\ Forall (fun g => KnowledgeGraphViz.NodeGroup.opacity g = 1)
       (KnowledgeGraphViz.Scene.nodes
          (KnowledgeGraphViz.render nodes edges sC)).
Proof.
  intros HF HC.
  split; [|split; [|split]]; simpl.
  - apply Forall2_map_all. intros edge line H.
    rewrite (full_renderEdge_opacity _ _ _ _ H), HF. reflexivity.
  - apply Forall_map, Forall_forall. intros pn _. simpl.
    rewrite HF. reflexivity.
  - apply Forall2_map_all. intros edge line H.
    rewrite (compact_renderEdge_opacity _ _ _ _ H), HC. reflexivity.
  - apply Forall_map, Forall_forall. intros pn _. simpl.
    rewrite HC. reflexivity.
Qed.

Lemma edgeBC_not_dangling : ~ dangling emptyIdGraph edgeBC.
Proof.
  unfold dangling. simpl. intros [H|H]; apply H; set_solver.
Qed.

(** C6 at a node whose id is the empty string: hovering it makes the hover
    state [''], which the truthiness tests of the render code take for no
    hover at all.  The edge from [b] to [c], which does not touch the
    hovered node, keeps opacity 1 (not 0.1), and the nodes [b] and [c]
    keep opacity 1 (not 0.3 or 0.2), in both components. *)
Theorem hover_empty_id_no_dimming :
  let sF := FullScreenGraph.onMouseEnter nodeE FullScreenGraph.initial in
  let sC := KnowledgeGraphViz.onMouseEnter nodeE KnowledgeGraphViz.initial in
  FullScreenGraph.hoveredNodeId sF = Some ""
  /\ KnowledgeGraphViz.hoveredNodeId sC = Some ""
  /\ map (option_map FullScreenGraph.EdgeGroup.opacity)
       (FullScreenGraph.Scene.edges
          (FullScreenGraph.render emptyIdGraph [edgeBC] sF))
     = [Some 1]
  /\ map FullScreenGraph.NodeGroup.opacity
       (FullScreenGraph.Scene.nodes
          (FullScreenGraph.render emptyIdGraph [edgeBC] sF))
     = [1; 1; 1]
  /\ map (option_map KnowledgeGraphViz.EdgeGroup.strokeOpacity)
       (KnowledgeGraphViz.Scene.edges
          (KnowledgeGraphViz.render emptyIdGraph [edgeBC] sC))
     = [Some 1]
  /\ map KnowledgeGraphViz.NodeGroup.opacity
       (KnowledgeGraphViz.Scene.nodes
          (KnowledgeGraphViz.render emptyIdGraph [edgeBC] sC))
     = [1; 1; 1].
Proof.
  intros sF sC.
  split; [reflexivity|]. split; [reflexivity|]. split; [|split; [|split]].
  - unfold FullScreenGraph.render.
    cbn [FullScreenGraph.Scene.edges map].
    destruct (FullScreenGraph.renderEdge sF
                (FullScreenGraph.nodePositions emptyIdGraph) edgeBC)
      as [line|] eqn:E.
    + cbn [option_map]. rewrite (full_renderEdge_opacity _ _ _ _ E).
      reflexivity.
    + apply full_renderEdge_None in E.
      destruct (edgeBC_not_dangling E).
  - unfold FullScreenGraph.render, FullScreenGraph.nodePositions.
    cbn [FullScreenGraph.Scene.nodes]. rewrite !map_map. reflexivity.
  - unfold KnowledgeGraphViz.render.
    cbn [KnowledgeGraphViz.Scene.edges map].
    destruct (KnowledgeGraphViz.renderEdge sC
                (KnowledgeGraphViz.nodePositions emptyIdGraph) edgeBC)
      as [line|] eqn:E.
    + cbn [option_map]. rewrite (compact_renderEdge_opacity _ _ _ _ E).
      reflexivity.
    + apply compact_renderEdge_None in E.
      destruct (edgeBC_not_dangling E).
  - unfold KnowledgeGraphViz.render, KnowledgeGraphViz.nodePositions.
    cbn [KnowledgeGraphViz.Scene.nodes]. rewrite !map_map. reflexivity.
Qed.

(** ** The tooltip *)










(** ** The scenarios of the specification *)

(** A string is not among the listed, different strings. *)
Ltac not_listed :=
  let H := fresh "H" in
  intros H;
  repeat (apply elem_of_cons in H as [H|H]; [discriminate|]);
  apply elem_of_nil in H; exact H.

Lemma scenarioA_ids : NoDup (map GraphNode.id scenarioA).
Proof.
  repeat (apply NoDup_cons; split; [not_listed|]). apply NoDup_nil_2.
Qed.

(** Scenario A: [a] at the canvas center, [b] alone on the action ring at
    angle [-pi/2 + 0.5], [c] alone on the outer ring at angle
    [-pi/2 + 1.0]; both edges are rendered. *)
Lemma scenarioA_layout :
  FullScreenGraph.nodePositions scenarioA
  = [ {| PositionedNode.node := nodeA;
         PositionedNode.pos :=
           {| Point.x := FullScreenGraph.cx;
              Point.y := FullScreenGraph.cy |} |};
      {| PositionedNode.node := nodeB;
         PositionedNode.pos :=
           tier_position FullScreenGraph.cx FullScreenGraph.cy 220 160
             (tier_angle 0.5 1 0) |};
      {| PositionedNode.node := nodeC;
         PositionedNode.pos :=
           tier_position FullScreenGraph.cx FullScreenGraph.cy 320 240
             (tier_angle 1.0 1 0) |} ]
  /\ KnowledgeGraphViz.nodePositions scenarioA
     = [ {| PositionedNode.node := nodeA;
            PositionedNode.pos :=
              {| Point.x := KnowledgeGraphViz.cx;
                 Point.y := KnowledgeGraphViz.cy |} |};
         {| PositionedNode.node := nodeB;
            PositionedNode.pos :=
              tier_position KnowledgeGraphViz.cx KnowledgeGraphViz.cy 90 90
                (tier_angle 0.5 1 0) |};
         {| PositionedNode.node := nodeC;
            PositionedNode.pos :=
              tier_position KnowledgeGraphViz.cx KnowledgeGraphViz.cy 130 130
                (tier_angle 1.0 1 0) |} ]
  /\ tier_angle 0.5 1 0 = - PI / 2 + 0.5
  /\ tier_angle 1.0 1 0 = - PI / 2 + 1.0
  /\ ~ dangling scenarioA edgeAB
  /\ ~ dangling scenarioA edgeBC.
Proof.
  pose proof scenarioA_ids as Hnd.
  destruct (single_entity_centered_unique_ids scenarioA nodeA 0 Hnd
              eq_refl eq_refl) as [HaF HaC].
  split; [|split; [|split; [|split; [|split]]]].
  - unfold FullScreenGraph.nodePositions, scenarioA. cbn [map].
    fold scenarioA. rewrite HaF.
    rewrite (full_posMap_actions scenarioA Hnd 0 nodeB eq_refl).
    rewrite (full_posMap_ring3 scenarioA Hnd 0 nodeC eq_refl).
    reflexivity.
  - unfold KnowledgeGraphViz.nodePositions, scenarioA. cbn [map].
    fold scenarioA. rewrite HaC.
    rewrite (compact_posMap_actions scenarioA Hnd 0 nodeB eq_refl).
    rewrite (compact_posMap_ring3 scenarioA Hnd 0 nodeC eq_refl).
    reflexivity.
  - unfold tier_angle. simpl. lra.
  - unfold tier_angle. simpl. lra.
  - unfold dangling. simpl. intros [H|H]; apply H; set_solver.
  - unfold dangling. simpl. intros [H|H]; apply H; set_solver.
Qed.

(** Scenario B: the edge to the unknown id [zzz] is dropped by both
    components. *)
Lemma scenarioB_no_edge (sF : FullScreenGraph.State)
    (sC : KnowledgeGraphViz.State) :
  FullScreenGraph.Scene.edges (FullScreenGraph.render scenarioA [edgeAZ] sF)
  = [None]
  /\ KnowledgeGraphViz.Scene.edges
       (KnowledgeGraphViz.render scenarioA [edgeAZ] sC)
     = [None].
Proof.
  assert (Hd : dangling scenarioA edgeAZ).
  { right. simpl. not_listed. }
  split.
  - unfold FullScreenGraph.render. cbn [FullScreenGraph.Scene.edges map].
    rewrite (proj2 (full_renderEdge_None sF scenarioA edgeAZ) Hd).
    reflexivity.
  - unfold KnowledgeGraphViz.render.
    cbn [KnowledgeGraphViz.Scene.edges map].
    rewrite (proj2 (compact_renderEdge_None sC scenarioA edgeAZ) Hd).
    reflexivity.
Qed.


(** * Further properties of the two graph components *)

(** ** The tiers partition the nodes *)

Lemma type_cases (t : string) :
  t = "entity" \/ t = "action" \/ t = "risk" \/ t = "outcome"
  \/ includes ["entity"; "action"; "risk"; "outcome"] t = false.
Proof.
  destruct (String.eqb_spec t "entity") as [|H1]; [tauto|].
  destruct (String.eqb_spec t "action") as [|H2]; [tauto|].
  destruct (String.eqb_spec t "risk") as [|H3]; [tauto|].
  destruct (String.eqb_spec t "outcome") as [|H4]; [tauto|].
  do 4 right. unfold includes. simpl.
  apply String.eqb_neq in H1, H2, H3, H4. rewrite H1, H2, H3, H4.
  reflexivity.
Qed.

Lemma other_type_tests (t : string) :
  includes ["entity"; "action"; "risk"; "outcome"] t = false ->
  String.eqb t "entity" = false /\ String.eqb t "action" = false
  /\ String.eqb t "risk" = false /\ String.eqb t "outcome" = false
  /\ includes ["risk"; "outcome"] t = false.
Proof.
  unfold includes. simpl. intros H.
  destruct (String.eqb t "entity"); [discriminate|].
  destruct (String.eqb t "action"); [discriminate|].
  destruct (String.eqb t "risk"); [discriminate|].
  destruct (String.eqb t "outcome"); [discriminate|].
  repeat split.
Qed.

Lemma perm_mid1 {A : Type} (a : A) (l1 l2 : list A) :
  l1 ++ a :: l2 ≡ₚ a :: l1 ++ l2.
Proof. symmetry. apply Permutation_middle. Qed.

Lemma perm_mid2 {A : Type} (a : A) (l1 l2 l3 : list A) :
  l1 ++ l2 ++ a :: l3 ≡ₚ a :: l1 ++ l2 ++ l3.
Proof. rewrite !app_assoc. apply perm_mid1. Qed.

Lemma perm_mid3 {A : Type} (a : A) (l1 l2 l3 l4 : list A) :
  l1 ++ l2 ++ l3 ++ a :: l4 ≡ₚ a :: l1 ++ l2 ++ l3 ++ l4.
Proof. rewrite !app_assoc. apply perm_mid1. Qed.

Lemma perm_mid4 {A : Type} (a : A) (l1 l2 l3 l4 l5 : list A) :
  l1 ++ l2 ++ l3 ++ l4 ++ a :: l5 ≡ₚ a :: l1 ++ l2 ++ l3 ++ l4 ++ l5.
Proof. rewrite !app_assoc. apply perm_mid1. Qed.

Lemma full_tiers_cons (a : GraphNode.t) (l : list GraphNode.t) :
  FullScreenGraph.entities (a :: l) ++ FullScreenGraph.actions (a :: l)
    ++ FullScreenGraph.ring3 (a :: l)
  ≡ₚ a :: (FullScreenGraph.entities l ++ FullScreenGraph.actions l
           ++ FullScreenGraph.ring3 l).
Proof.
  unfold FullScreenGraph.ring3, FullScreenGraph.entities,
    FullScreenGraph.actions, FullScreenGraph.results, FullScreenGraph.others.
  cbn [List.filter].
  destruct (type_cases (GraphNode.type a))
    as [H|[H|[H|[H|H]]]].
  - rewrite H. reflexivity.
  - rewrite H. cbn. apply perm_mid1.
  - rewrite H. cbn. apply perm_mid2.
  - rewrite H. cbn. apply perm_mid2.
  - destruct (other_type_tests _ H) as (H1 & H2 & H3 & H4 & H5).
    rewrite H, H1, H2, H5. cbn. apply perm_mid3.
Qed.

Lemma compact_tiers_cons (a : GraphNode.t) (l : list GraphNode.t) :
  KnowledgeGraphViz.entities (a :: l) ++ KnowledgeGraphViz.actions (a :: l)
    ++ KnowledgeGraphViz.ring3 (a :: l)
  ≡ₚ a :: (KnowledgeGraphViz.entities l ++ KnowledgeGraphViz.actions l
           ++ KnowledgeGraphViz.ring3 l).
Proof.
  unfold KnowledgeGraphViz.ring3, KnowledgeGraphViz.entities,
    KnowledgeGraphViz.actions, KnowledgeGraphViz.risks,
    KnowledgeGraphViz.outcomes, KnowledgeGraphViz.others.
  cbn [List.filter].
  destruct (type_cases (GraphNode.type a))
    as [H|[H|[H|[H|H]]]].
  - rewrite H. reflexivity.
  - rewrite H. cbn. apply perm_mid1.
  - rewrite H. cbn. apply perm_mid2.
  - rewrite H. cbn. apply perm_mid3.
  - destruct (other_type_tests _ H) as (H1 & H2 & H3 & H4 & H5).
    rewrite H, H1, H2, H3, H4. cbn. apply perm_mid4.
Qed.

Lemma full_tiers_perm (nodes : list GraphNode.t) :
  FullScreenGraph.entities nodes ++ FullScreenGraph.actions nodes
    ++ FullScreenGraph.ring3 nodes ≡ₚ nodes.
Proof.
  induction nodes as [|a l IH]; [reflexivity|].
  rewrite full_tiers_cons. constructor. exact IH.
Qed.

Lemma compact_tiers_perm (nodes : list GraphNode.t) :
  KnowledgeGraphViz.entities nodes ++ KnowledgeGraphViz.actions nodes
    ++ KnowledgeGraphViz.ring3 nodes ≡ₚ nodes.
Proof.
  induction nodes as [|a l IH]; [reflexivity|].
  rewrite compact_tiers_cons. constructor. exact IH.
Qed.

(** X1: in both components the three tiers (entities, actions, outer
    ring) hold every node of the input exactly once: together they are a
    permutation of the node list, whatever the type strings are. *)
Theorem tiers_partition (nodes : list GraphNode.t) :
  FullScreenGraph.entities nodes ++ FullScreenGraph.actions nodes
    ++ FullScreenGraph.ring3 nodes ≡ₚ nodes
  /\ KnowledgeGraphViz.entities nodes ++ KnowledgeGraphViz.actions nodes
       ++ KnowledgeGraphViz.ring3 nodes ≡ₚ nodes.
Proof. split; [apply full_tiers_perm | apply compact_tiers_perm]. Qed.

(** ** Every node has an entry in the position map *)

Section PlacementLoopEntries.

Variable place : nat -> Point.t.

Let body (node : GraphNode.t) (i : nat) (m : gmap string Point.t) :=
  <[ GraphNode.id node := place i ]> m.

Lemma forEach_insert_keeps (l : list GraphNode.t) (i0 : nat)
    (m : gmap string Point.t) (k : string) :
  is_Some (m !! k) -> is_Some (forEach_from body i0 l m !! k).
Proof.
  revert i0 m. induction l as [|a l IH]; intros i0 m Hk; simpl; [exact Hk|].
  apply IH. unfold body.
  destruct (decide (GraphNode.id a = k)) as [Heq|Hne].
  - subst k. rewrite lookup_insert_eq. eauto.
  - rewrite lookup_insert_ne by exact Hne. exact Hk.
Qed.

Lemma forEach_insert_writes (l : list GraphNode.t) (i0 : nat)
    (m : gmap string Point.t) (k : string) :
  k ∈ map GraphNode.id l -> is_Some (forEach_from body i0 l m !! k).
Proof.
  revert i0 m. induction l as [|a l IH]; intros i0 m Hk; simpl in *.
  - apply elem_of_nil in Hk. contradiction.
  - apply elem_of_cons in Hk as [->|Hk].
    + apply forEach_insert_keeps. unfold body.
      rewrite lookup_insert_eq. eauto.
    + apply IH, Hk.
Qed.

(** An entry of the map after the loop was there before or is one of the
    written positions. *)
Lemma forEach_insert_value (l : list GraphNode.t) (i0 : nat)
    (m : gmap string Point.t) (k : string) (p : Point.t) :
  forEach_from body i0 l m !! k = Some p ->
  m !! k = Some p \/ exists i, p = place i.
Proof.
  revert i0 m. induction l as [|a l IH]; intros i0 m Hk; simpl in *.
  - left. exact Hk.
  - apply IH in Hk as [Hk|Hk]; [|right; exact Hk].
    unfold body in Hk.
    destruct (decide (GraphNode.id a = k)) as [Heq|Hne].
    + subst k. rewrite lookup_insert_eq in Hk. injection Hk as <-.
      right. eauto.
    + rewrite lookup_insert_ne in Hk by exact Hne. left. exact Hk.
Qed.

End PlacementLoopEntries.

Lemma full_distribute_is_Some (list : list GraphNode.t) (rx ry theta0 : R)
    (m : gmap string Point.t) (k : string) :
  k ∈ map GraphNode.id list \/ is_Some (m !! k) ->
  is_Some (FullScreenGraph.distribute list rx ry theta0 m !! k).
Proof.
  intros Hk. unfold FullScreenGraph.distribute.
  destruct (Nat.eqb_spec (length list) 0) as [Hz|_].
  - destruct Hk as [Hk|Hk]; [|exact Hk].
    destruct list; [|discriminate]. apply elem_of_nil in Hk. contradiction.
  - unfold forEach. destruct Hk as [Hk|Hk].
    + apply (forEach_insert_writes
               (fun i => tier_position FullScreenGraph.cx FullScreenGraph.cy
                           rx ry (tier_angle theta0 (length list) i))).
      exact Hk.
    + apply (forEach_insert_keeps
               (fun i => tier_position FullScreenGraph.cx FullScreenGraph.cy
                           rx ry (tier_angle theta0 (length list) i))).
      exact Hk.
Qed.

Lemma compact_distribute_is_Some (list : list GraphNode.t) (r theta0 : R)
    (m : gmap string Point.t) (k : string) :
  k ∈ map GraphNode.id list \/ is_Some (m !! k) ->
  is_Some (KnowledgeGraphViz.distribute list r theta0 m !! k).
Proof.
  intros Hk. unfold KnowledgeGraphViz.distribute.
  destruct (Nat.eqb_spec (length list) 0) as [Hz|_].
  - destruct Hk as [Hk|Hk]; [|exact Hk].
    destruct list; [|discriminate]. apply elem_of_nil in Hk. contradiction.
  - unfold forEach. destruct Hk as [Hk|Hk].
    + apply (forEach_insert_writes
               (fun i => tier_position KnowledgeGraphViz.cx
                           KnowledgeGraphViz.cy r r
                           (tier_angle theta0 (length list) i))).
      exact Hk.
    + apply (forEach_insert_keeps
               (fun i => tier_position KnowledgeGraphViz.cx
                           KnowledgeGraphViz.cy r r
                           (tier_angle theta0 (length list) i))).
      exact Hk.
Qed.

Lemma full_distribute_value (list : list GraphNode.t) (rx ry theta0 : R)
    (m : gmap string Point.t) (k : string) (p : Point.t) :
  FullScreenGraph.distribute list rx ry theta0 m !! k = Some p ->
  m !! k = Some p
  \/ exists a, p = tier_position FullScreenGraph.cx FullScreenGraph.cy
                     rx ry a.
Proof.
  unfold FullScreenGraph.distribute.
  destruct (length list =? 0)%nat; [tauto|].
  unfold forEach. intros H.
  apply (forEach_insert_value
           (fun i => tier_position FullScreenGraph.cx FullScreenGraph.cy
                       rx ry (tier_angle theta0 (length list) i))) in H.
  destruct H as [H|[i ->]]; eauto.
Qed.

Lemma compact_distribute_value (list : list GraphNode.t) (r theta0 : R)
    (m : gmap string Point.t) (k : string) (p : Point.t) :
  KnowledgeGraphViz.distribute list r theta0 m !! k = Some p ->
  m !! k = Some p
  \/ exists a, p = tier_position KnowledgeGraphViz.cx KnowledgeGraphViz.cy
                     r r a.
Proof.
  unfold KnowledgeGraphViz.distribute.
  destruct (length list =? 0)%nat; [tauto|].
  unfold forEach. intros H.
  apply (forEach_insert_value
           (fun i => tier_position KnowledgeGraphViz.cx KnowledgeGraphViz.cy
                       r r (tier_angle theta0 (length list) i))) in H.
  destruct H as [H|[i ->]]; eauto.
Qed.

Lemma full_posMap_is_Some (nodes : list GraphNode.t) (n : GraphNode.t) :
  n ∈ nodes -> is_Some (FullScreenGraph.posMap nodes !! GraphNode.id n).
Proof.
  intros Hn. rewrite <- (full_tiers_perm nodes) in Hn.
  unfold FullScreenGraph.posMap, FullScreenGraph.layer3,
    FullScreenGraph.layer2.
  apply elem_of_app in Hn as [Hn|Hn].
  - do 2 (apply full_distribute_is_Some; right).
    unfold FullScreenGraph.layer1.
    destruct (Nat.eqb_spec (length (FullScreenGraph.entities nodes)) 1)
      as [Hone|_].
    + destruct (FullScreenGraph.entities nodes) as [|e0 [|e1 l]];
        try discriminate.
      apply list_elem_of_singleton in Hn as ->.
      rewrite lookup_insert_eq. eauto.
    + apply full_distribute_is_Some. left.
      apply list_elem_of_fmap. eauto.
  - apply elem_of_app in Hn as [Hn|Hn].
    + apply full_distribute_is_Some. right.
      apply full_distribute_is_Some. left.
      apply list_elem_of_fmap. eauto.
    + apply full_distribute_is_Some. left.
      apply list_elem_of_fmap. eauto.
Qed.

Lemma compact_posMap_is_Some (nodes : list GraphNode.t) (n : GraphNode.t) :
  n ∈ nodes -> is_Some (KnowledgeGraphViz.posMap nodes !! GraphNode.id n).
Proof.
  intros Hn. rewrite <- (compact_tiers_perm nodes) in Hn.
  unfold KnowledgeGraphViz.posMap, KnowledgeGraphViz.layer3,
    KnowledgeGraphViz.layer2.
  apply elem_of_app in Hn as [Hn|Hn].
  - do 2 (apply compact_distribute_is_Some; right).
    unfold KnowledgeGraphViz.layer1.
    destruct (Nat.eqb_spec (length (KnowledgeGraphViz.entities nodes)) 1)
      as [Hone|_].
    + destruct (KnowledgeGraphViz.entities nodes) as [|e0 [|e1 l]];
        try discriminate.
      apply list_elem_of_singleton in Hn as ->.
      rewrite lookup_insert_eq. eauto.
    + apply compact_distribute_is_Some. left.
      apply list_elem_of_fmap. eauto.
  - apply elem_of_app in Hn as [Hn|Hn].
    + apply compact_distribute_is_Some. right.
      apply compact_distribute_is_Some. left.
      apply list_elem_of_fmap. eauto.
    + apply compact_distribute_is_Some. left.
      apply list_elem_of_fmap. eauto.
Qed.

(** X2: in both components every node of the input has an entry in the
    position map once the three layers are written, duplicate ids and
    unknown types included: the position of each positioned node is the
    entry of its id, and the fallback to the canvas center is never
    taken. *)
Theorem fallback_never_taken (nodes : list GraphNode.t) :
  Forall (fun pn =>
            FullScreenGraph.posMap nodes
              !! GraphNode.id (PositionedNode.node pn)
            = Some (PositionedNode.pos pn))
    (FullScreenGraph.nodePositions nodes)
  /\ Forall (fun pn =>
               KnowledgeGraphViz.posMap nodes
                 !! GraphNode.id (PositionedNode.node pn)
               = Some (PositionedNode.pos pn))
       (KnowledgeGraphViz.nodePositions nodes).
Proof.
  split.
  - unfold FullScreenGraph.nodePositions.
    apply Forall_map, Forall_forall. intros n Hn. simpl.
    destruct (full_posMap_is_Some nodes n Hn) as [p Hp].
    rewrite Hp. reflexivity.
  - unfold KnowledgeGraphViz.nodePositions.
    apply Forall_map, Forall_forall. intros n Hn. simpl.
    destruct (compact_posMap_is_Some nodes n Hn) as [p Hp].
    rewrite Hp. reflexivity.
Qed.

(** ** Every node is drawn inside the viewBox *)

Lemma tier_position_within (cx cy rx ry a : R) :
  0 <= rx -> 0 <= ry -> within cx cy rx ry (tier_position cx cy rx ry a).
Proof.
  intros Hx Hy. unfold within, tier_position. simpl.
  pose proof (COS_bound a). pose proof (SIN_bound a). nra.
Qed.

Lemma within_mono (cx cy rx ry rx' ry' : R) (p : Point.t) :
  rx <= rx' -> ry <= ry' -> within cx cy rx ry p -> within cx cy rx' ry' p.
Proof. unfold within. intros Hx Hy H. lra. Qed.

Lemma full_posMap_within (nodes : list GraphNode.t) (k : string)
    (p : Point.t) :
  FullScreenGraph.posMap nodes !! k = Some p ->
  within FullScreenGraph.cx FullScreenGraph.cy 320 240 p.
Proof.
  unfold FullScreenGraph.posMap, FullScreenGraph.layer3,
    FullScreenGraph.layer2, FullScreenGraph.layer1.
  intros H.
  apply full_distribute_value in H as [H|[a ->]];
    [|apply tier_position_within; lra].
  apply full_distribute_value in H as [H|[a ->]];
    [|apply (within_mono _ _ 220 160);
      [lra | lra | apply tier_position_within; lra]].
  destruct (length (FullScreenGraph.entities nodes) =? 1)%nat.
  - destruct (FullScreenGraph.entities nodes) as [|e0 l].
    + rewrite lookup_empty in H. discriminate.
    + destruct (decide (GraphNode.id e0 = k)) as [Heq|Hne].
      * subst k. rewrite lookup_insert_eq in H. injection H as <-.
        unfold within. simpl. lra.
      * rewrite lookup_insert_ne, lookup_empty in H by exact Hne.
        discriminate.
  - apply full_distribute_value in H as [H|[a ->]].
    + rewrite lookup_empty in H. discriminate.
    + apply (within_mono _ _ 100 80);
        [lra | lra | apply tier_position_within; lra].
Qed.

Lemma compact_posMap_within (nodes : list GraphNode.t) (k : string)
    (p : Point.t) :
  KnowledgeGraphViz.posMap nodes !! k = Some p ->
  within KnowledgeGraphViz.cx KnowledgeGraphViz.cy 130 130 p.
Proof.
  unfold KnowledgeGraphViz.posMap, KnowledgeGraphViz.layer3,
    KnowledgeGraphViz.layer2, KnowledgeGraphViz.layer1.
  intros H.
  apply compact_distribute_value in H as [H|[a ->]];
    [|apply tier_position_within; lra].
  apply compact_distribute_value in H as [H|[a ->]];
    [|apply (within_mono _ _ 90 90);
      [lra | lra | apply tier_position_within; lra]].
  destruct (length (KnowledgeGraphViz.entities nodes) =? 1)%nat.
  - destruct (KnowledgeGraphViz.entities nodes) as [|e0 l].
    + rewrite lookup_empty in H. discriminate.
    + destruct (decide (GraphNode.id e0 = k)) as [Heq|Hne].
      * subst k. rewrite lookup_insert_eq in H. injection H as <-.
        unfold within. simpl. lra.
      * rewrite lookup_insert_ne, lookup_empty in H by exact Hne.
        discriminate.
  - apply compact_distribute_value in H as [H|[a ->]].
    + rewrite lookup_empty in H. discriminate.
    + apply (within_mono _ _ 40 40);
        [lra | lra | apply tier_position_within; lra].
Qed.

Lemma full_nodePositions_within (nodes : list GraphNode.t) :
  Forall (fun pn => within FullScreenGraph.cx FullScreenGraph.cy 320 240
                      (PositionedNode.pos pn))
    (FullScreenGraph.nodePositions nodes).
Proof.
  unfold FullScreenGraph.nodePositions.
  apply Forall_map, Forall_forall. intros n _. simpl.
  destruct (FullScreenGraph.posMap nodes !! GraphNode.id n) as [p|] eqn:E.
  - exact (full_posMap_within _ _ _ E).
  - unfold within. simpl. lra.
Qed.

Lemma compact_nodePositions_within (nodes : list GraphNode.t) :
  Forall (fun pn => within KnowledgeGraphViz.cx KnowledgeGraphViz.cy 130 130
                      (PositionedNode.pos pn))
    (KnowledgeGraphViz.nodePositions nodes).
Proof.
  unfold KnowledgeGraphViz.nodePositions.
  apply Forall_map, Forall_forall. intros n _. simpl.
  destruct (KnowledgeGraphViz.posMap nodes !! GraphNode.id n) as [p|] eqn:E.
  - exact (compact_posMap_within _ _ _ E).
  - unfold within. simpl. lra.
Qed.

(** X3: whatever the node list and the hover state, every node is drawn
    inside the viewBox of its component (800 by 600 full screen, 400 by
    300 compact, before the pan/zoom transform): its center lies within
    the outer ring's box around the canvas center, and the main circle and
    the hover ring around it, at their largest radius too, do not cross
    the border. *)
Theorem nodes_inside_viewBox (nodes : list GraphNode.t)
    (edges : list GraphEdge.t)
    (sF : FullScreenGraph.State) (sC : KnowledgeGraphViz.State) :
  Forall
    (fun g =>
       let ring := FullScreenGraph.NodeGroup.ring g in
       let circle := FullScreenGraph.NodeGroup.circle g in
       80 <= FullScreenGraph.Circle.cx circle <= 720
       /\ 60 <= FullScreenGraph.Circle.cy circle <= 540
       /\ inside_box 800 600 (FullScreenGraph.Circle.cx circle)
            (FullScreenGraph.Circle.cy circle)
            (FullScreenGraph.Circle.r circle)
       /\ inside_box 800 600 (FullScreenGraph.Circle.cx ring)
            (FullScreenGraph.Circle.cy ring) (FullScreenGraph.Circle.r ring))
    (FullScreenGraph.Scene.nodes (FullScreenGraph.render nodes edges sF))
  /\ Forall
       (fun g =>
          let ring := KnowledgeGraphViz.NodeGroup.ring g in
          let circle := KnowledgeGraphViz.NodeGroup.circle g in
          70 <= KnowledgeGraphViz.Circle.cx circle <= 330
          /\ 20 <= KnowledgeGraphViz.Circle.cy circle <= 280
          /\ inside_box 400 300 (KnowledgeGraphViz.Circle.cx circle)
               (KnowledgeGraphViz.Circle.cy circle)
               (KnowledgeGraphViz.Circle.r circle)
          /\ inside_box 400 300 (KnowledgeGraphViz.Circle.cx ring)
               (KnowledgeGraphViz.Circle.cy ring)
               (KnowledgeGraphViz.Circle.r ring))
       (KnowledgeGraphViz.Scene.nodes
          (KnowledgeGraphViz.render nodes edges sC)).
Proof.
  split.
  - unfold FullScreenGraph.render. cbn [FullScreenGraph.Scene.nodes].
    apply Forall_map.
    eapply Forall_impl; [apply full_nodePositions_within|].
    intros pn Hw. unfold within, FullScreenGraph.cx, FullScreenGraph.cy,
      FullScreenGraph.width, FullScreenGraph.height in Hw.
    unfold inside_box. simpl.
    destruct (strictEq _ _); lra.
  - unfold KnowledgeGraphViz.render. cbn [KnowledgeGraphViz.Scene.nodes].
    apply Forall_map.
    eapply Forall_impl; [apply compact_nodePositions_within|].
    intros pn Hw. unfold within, KnowledgeGraphViz.cx, KnowledgeGraphViz.cy,
      KnowledgeGraphViz.width, KnowledgeGraphViz.height in Hw.
    unfold inside_box. simpl.
    destruct (strictEq _ _); lra.
Qed.

(** ** The last write to an id wins across the tiers *)

(** X4: the position map is keyed by id and the outer ring is written
    last, so in both components every node whose id is also the id of an
    outer-ring member is drawn at the slot of the last such member of the
    ring, whatever its own type is (an entity or an action that shares the
    id of a risk is drawn on the outer ring). *)
Theorem outer_ring_wins (nodes : list GraphNode.t) :
  (forall (i : nat) (n : GraphNode.t),
      FullScreenGraph.ring3 nodes !! i = Some n ->
      (forall j n', (i < j)%nat -> FullScreenGraph.ring3 nodes !! j = Some n' ->
                    GraphNode.id n' <> GraphNode.id n) ->
      Forall (fun pn =>
                GraphNode.id (PositionedNode.node pn) = GraphNode.id n ->
                PositionedNode.pos pn
                = tier_position FullScreenGraph.cx FullScreenGraph.cy 320 240
                    (tier_angle 1.0
                       (length (FullScreenGraph.ring3 nodes)) i))
        (FullScreenGraph.nodePositions nodes))
  /\ (forall (i : nat) (n : GraphNode.t),
         KnowledgeGraphViz.ring3 nodes !! i = Some n ->
         (forall j n', (i < j)%nat ->
                       KnowledgeGraphViz.ring3 nodes !! j = Some n' ->
                       GraphNode.id n' <> GraphNode.id n) ->
         Forall (fun pn =>
                   GraphNode.id (PositionedNode.node pn) = GraphNode.id n ->
                   PositionedNode.pos pn
                   = tier_position KnowledgeGraphViz.cx KnowledgeGraphViz.cy
                       130 130
                       (tier_angle 1.0
                          (length (KnowledgeGraphViz.ring3 nodes)) i))
           (KnowledgeGraphViz.nodePositions nodes)).
Proof.
  split; intros i n Hi Hlast.
  - unfold FullScreenGraph.nodePositions.
    apply Forall_map, Forall_forall. intros m _. simpl. intros Hid.
    rewrite Hid. unfold FullScreenGraph.posMap, FullScreenGraph.layer3.
    rewrite (full_distribute_last _ _ _ _ _ _ _ Hi Hlast). reflexivity.
  - unfold KnowledgeGraphViz.nodePositions.
    apply Forall_map, Forall_forall. intros m _. simpl. intros Hid.
    rewrite Hid. unfold KnowledgeGraphViz.posMap, KnowledgeGraphViz.layer3.
    rewrite (compact_distribute_last _ _ _ _ _ _ Hi Hlast). reflexivity.
Qed.

Lemma single_slot_is_last {A : Type} (a : A) (P : A -> Prop) :
  forall (j : nat) (n' : A), (0 < j)%nat -> [a] !! j = Some n' -> P n'.
Proof. intros j n' Hj H. destruct j; [lia | discriminate]. Defined.

Lemma outer_ring_wins_witness :
  Forall (fun pn =>
            GraphNode.id (PositionedNode.node pn) = "a" ->
            PositionedNode.pos pn
            = tier_position FullScreenGraph.cx FullScreenGraph.cy 320 240
                (tier_angle 1.0 1 0))
    (FullScreenGraph.nodePositions repeatedRisk)
  /\ Forall (fun pn =>
               GraphNode.id (PositionedNode.node pn) = "a" ->
               PositionedNode.pos pn
               = tier_position KnowledgeGraphViz.cx KnowledgeGraphViz.cy
                   130 130 (tier_angle 1.0 1 0))
       (KnowledgeGraphViz.nodePositions repeatedRisk).
Proof.
  destruct (outer_ring_wins repeatedRisk) as [HF HC]. split.
  - exact (HF 0%nat nodeRiskA eq_refl (single_slot_is_last nodeRiskA _)).
  - exact (HC 0%nat nodeRiskA eq_refl (single_slot_is_last nodeRiskA _)).
Defined.

(** ** Dragging *)

Section Dragging.

Import FullScreenGraph.

Lemma run_moves_dragging (path : list Point.t) (s : State) :
  isDragging s = true ->
  let s' := run s (moves path) in
  let p := List.last path (lastMousePos s) in
  ViewState.x (viewState s')
  = ViewState.x (viewState s) + (Point.x p - Point.x (lastMousePos s))
  /\ ViewState.y (viewState s')
     = ViewState.y (viewState s) + (Point.y p - Point.y (lastMousePos s))
  /\ ViewState.scale (viewState s') = ViewState.scale (viewState s)
  /\ lastMousePos s' = p
  /\ isDragging s' = true
  /\ hoveredNodeId s' = hoveredNodeId s.
Proof.
  revert s. induction path as [|q path IH]; intros s Hd.
  - simpl. repeat split; try lra. exact Hd.
  - assert (Hstep : isDragging (handleMouseMove (Point.x q) (Point.y q) s)
                    = true)
      by (unfold handleMouseMove; rewrite Hd; exact Hd).
    specialize (IH _ Hstep).
    change (run s (moves (q :: path)))
      with (run (handleMouseMove (Point.x q) (Point.y q) s) (moves path)).
    assert (Hlast : List.last (q :: path) (lastMousePos s)
                    = List.last path
                        (lastMousePos
                           (handleMouseMove (Point.x q) (Point.y q) s))).
    { unfold handleMouseMove. rewrite Hd. simpl.
      destruct q as [qx qy]. simpl.
      destruct path as [|q' path']; [reflexivity|].
      simpl. clear. revert q'. induction path' as [|q'' path'' IH'];
        intros q'; [reflexivity|]. simpl. apply IH'. }
    cbv zeta in IH |- *. rewrite Hlast.
    destruct IH as (Hx & Hy & Hs & Hl & Hdr & Hh).
    rewrite Hx, Hy, Hs, Hl, Hdr, Hh.
    unfold handleMouseMove. rewrite Hd. simpl.
    repeat split; lra.
Qed.

(** X5: a drag moves the view by the displacement of the pointer (numbers
    taken as reals): after a mouse down at [(x0, y0)] followed by any
    number of mouse moves, the offset is the offset before the drag plus
    the last pointer position minus [(x0, y0)], whatever path the pointer
    took in between; the scale and the hovered node are untouched. *)
Theorem drag_displacement (s : State) (x0 y0 : R) (path : list Point.t) :
  let s' := run (handleMouseDown x0 y0 s) (moves path) in
  let p := List.last path {| Point.x := x0; Point.y := y0 |} in
  ViewState.x (viewState s') = ViewState.x (viewState s) + (Point.x p - x0)
  /\ ViewState.y (viewState s')
     = ViewState.y (viewState s) + (Point.y p - y0)
  /\ ViewState.scale (viewState s') = ViewState.scale (viewState s)
  /\ lastMousePos s' = p
  /\ isDragging s' = true
  /\ hoveredNodeId s' = hoveredNodeId s.
Proof.
  exact (run_moves_dragging path (handleMouseDown x0 y0 s) eq_refl).
Qed.

Lemma run_moves_idle (path : list Point.t) (s : State) :
  isDragging s = false -> run s (moves path) = s.
Proof.
  intros Hd. induction path as [|q path IH]; [reflexivity|].
  change (run s (moves (q :: path)))
    with (run (handleMouseMove (Point.x q) (Point.y q) s) (moves path)).
  unfold handleMouseMove. rewrite Hd. exact IH.
Qed.

(** X6: once the button is released, or the pointer has left the canvas,
    moving the pointer changes nothing: any sequence of mouse moves after
    a mouse up or a mouse leave leaves the whole state as it is, the
    remembered pointer position included. *)
Theorem moves_after_release (s : State) (path : list Point.t) :
  run (handle MouseUp s) (moves path) = handle MouseUp s
  /\ run (handle MouseLeave s) (moves path) = handle MouseLeave s.
Proof. split; apply run_moves_idle; reflexivity. Qed.

(** ** Hover and view do not interfere *)

(** The two states show the same view and are in the same drag. *)
Let same_view (s1 s2 : State) : Prop :=
  viewState s1 = viewState s2 /\ isDragging s1 = isDragging s2
  /\ lastMousePos s1 = lastMousePos s2.

Lemma handle_node_event_view (e : Event) (s : State) :
  is_node_event e = true -> same_view (handle e s) s.
Proof. destruct e; try discriminate; intros _; repeat split. Qed.

Lemma handle_canvas_event_hover (e : Event) (s : State) :
  is_node_event e = false -> hoveredNodeId (handle e s) = hoveredNodeId s.
Proof.
  destruct e; try discriminate; intros _; try reflexivity.
  simpl. unfold handleMouseMove. destruct (isDragging s); reflexivity.
Qed.

Lemma handle_canvas_event_view (e : Event) (s1 s2 : State) :
  same_view s1 s2 -> same_view (handle e s1) (handle e s2).
Proof.
  destruct s1 as [h1 v1 d1 l1], s2 as [h2 v2 d2 l2].
  intros (Hv & Hd & Hl). simpl in Hv, Hd, Hl. subst v2 d2 l2.
  destruct e; simpl; unfold same_view, handleMouseMove; simpl;
    try destruct d1; simpl; repeat split; reflexivity.
Qed.

Lemma handle_node_event_hover (e : Event) (s1 s2 : State) :
  is_node_event e = true -> hoveredNodeId (handle e s1)
                            = hoveredNodeId (handle e s2).
Proof. destruct e; try discriminate; reflexivity. Qed.

Lemma run_same_view (es : list Event) (s1 s2 : State) :
  same_view s1 s2 ->
  same_view (run s1 es)
    (run s2 (List.filter (fun e => negb (is_node_event e)) es)).
Proof.
  revert s1 s2. induction es as [|e es IH]; intros s1 s2 H; [exact H|].
  simpl. destruct (is_node_event e) eqn:E; simpl.
  - apply IH. destruct (handle_node_event_view e s1 E) as (Hv & Hd & Hl).
    destruct H as (Hv' & Hd' & Hl').
    repeat split; congruence.
  - apply IH. apply handle_canvas_event_view, H.
Qed.

Lemma run_same_hover (es : list Event) (s1 s2 : State) :
  hoveredNodeId s1 = hoveredNodeId s2 ->
  hoveredNodeId (run s1 es)
  = hoveredNodeId (run s2 (List.filter is_node_event es)).
Proof.
  revert s1 s2. induction es as [|e es IH]; intros s1 s2 H; [exact H|].
  simpl. destruct (is_node_event e) eqn:E; simpl.
  - apply IH. apply handle_node_event_hover, E.
  - apply IH. rewrite (handle_canvas_event_hover e s1 E). exact H.
Qed.

(** X7: hovering and panning/zooming never interfere.  After any event
    sequence the view state and the drag state are those the sequence
    gives with its node enter/leave events removed, and the hovered node
    is the one the node enter/leave events alone give: a hover never
    moves, zooms or interrupts a drag, and no wheel, drag, button or
    reset event changes the hovered node. *)
Theorem hover_and_view_independent (s : State) (es : list Event) :
  viewState (run s es)
  = viewState (run s (List.filter (fun e => negb (is_node_event e)) es))
  /\ isDragging (run s es)
     = isDragging (run s (List.filter (fun e => negb (is_node_event e)) es))
  /\ lastMousePos (run s es)
     = lastMousePos
         (run s (List.filter (fun e => negb (is_node_event e)) es))
  /\ hoveredNodeId (run s es)
     = hoveredNodeId (run s (List.filter is_node_event es)).
Proof.
  destruct (run_same_view es s s) as (Hv & Hd & Hl);
    [repeat split|].
  repeat split; try assumption.
  apply run_same_hover. reflexivity.
Qed.

(** ** Direction and size of a zoom step *)

(** X8: with numbers taken as reals, in a state whose scale is within
    the clamp bounds, a wheel event never moves the scale against its
    direction (scrolling up, negative [deltaY], never zooms out; scrolling
    down never zooms in) and changes it by at most [|deltaY| / 1000]; a
    click on a zoom button changes it by at most 0.2 in the direction of
    the button; none of them moves the view.  The sizes are those of exact
    arithmetic: the code adds in doubles, where the rounded sum can pass
    them by a rounding error (1.3 + 0.1 is 1.4000000000000001 there). *)
Theorem zoom_step (s : State) (deltaY : R) :
  0.2 <= ViewState.scale (viewState s) <= 4 ->
  let z := ViewState.scale (viewState s) in
  let w := ViewState.scale (viewState (handleWheel deltaY s)) in
  (deltaY <= 0 -> z <= w)
  /\ (0 <= deltaY -> w <= z)
  /\ Rabs (w - z) <= Rabs deltaY * 0.001
  /\ z <= ViewState.scale (viewState (zoomIn s)) <= z + 0.2
  /\ z - 0.2 <= ViewState.scale (viewState (zoomOut s)) <= z
  /\ ViewState.x (viewState (handleWheel deltaY s))
     = ViewState.x (viewState s)
  /\ ViewState.y (viewState (handleWheel deltaY s))
     = ViewState.y (viewState s)
  /\ ViewState.x (viewState (zoomIn s)) = ViewState.x (viewState s)
  /\ ViewState.y (viewState (zoomIn s)) = ViewState.y (viewState s)
  /\ ViewState.x (viewState (zoomOut s)) = ViewState.x (viewState s)
  /\ ViewState.y (viewState (zoomOut s)) = ViewState.y (viewState s).
Proof.
  intros Hr. simpl.
  repeat split; try reflexivity; try intros Hd;
    unfold Rabs; repeat destruct Rcase_abs; clamp_cases.
Qed.

Lemma zoom_step_witness :
  0.2 <= ViewState.scale (viewState initial) <= 4
  /\ ViewState.scale (viewState initial)
     <= ViewState.scale (viewState (zoomIn initial))
     <= ViewState.scale (viewState initial) + 0.2.
Proof.
  assert (H : 0.2 <= ViewState.scale (viewState initial) <= 4)
    by (simpl; lra).
  split; [exact H|].
  destruct (zoom_step initial (-100) H) as (_ & _ & _ & Hin & _).
  exact Hin.
Defined.

End Dragging.

(** ** Labels and zoom level (full screen) *)

Lemma gt_true (a b : R) : gt a b = true <-> b < a.
Proof.
  unfold gt. destruct (Rlt_dec b a); split; auto; discriminate.
Qed.

Lemma full_renderEdge_label (s : FullScreenGraph.State)
    (ns : list PositionedNode.t) (edge : GraphEdge.t)
    (line : FullScreenGraph.EdgeGroup.t) :
  FullScreenGraph.renderEdge s ns edge = Some line ->
  FullScreenGraph.EdgeGroup.label line <> None ->
  FullScreenGraph.EdgeGroup.opacity line = 1
  /\ 0.6 < ViewState.scale (FullScreenGraph.viewState s)
  /\ exists t, FullScreenGraph.EdgeGroup.label line = Some t
               /\ FullScreenGraph.SvgText.text t = GraphEdge.label edge.
Proof.
  unfold FullScreenGraph.renderEdge.
  destruct (List.find _ ns); [|discriminate].
  destruct (List.find _ ns); [|discriminate].
  cbv zeta. intros H. injection H as <-. simpl.
  destruct (truthy (FullScreenGraph.hoveredNodeId s));
    destruct (strictEq (FullScreenGraph.hoveredNodeId s)
                (GraphEdge.from edge)
              || strictEq (FullScreenGraph.hoveredNodeId s)
                   (GraphEdge.to edge));
    destruct (gt (ViewState.scale (FullScreenGraph.viewState s)) 0.6)
      eqn:G;
    simpl; intros Hl; try contradiction; apply gt_true in G; eauto.
Qed.

(** X9: in the full-screen scene an edge label is drawn only on an edge
    of full opacity and only above scale 0.6, and it is the label of its
    edge; and whenever some edge label is drawn, every node has its label
    drawn too (the node threshold 0.4 lies below the edge threshold), so
    zooming out hides the edge labels first. *)
Theorem labels_by_zoom_level (nodes : list GraphNode.t)
    (edges : list GraphEdge.t) (s : FullScreenGraph.State) :
  let scene := FullScreenGraph.render nodes edges s in
  Forall2
    (fun edge g =>
       forall line, g = Some line ->
         FullScreenGraph.EdgeGroup.label line <> None ->
         FullScreenGraph.EdgeGroup.opacity line = 1
         /\ 0.6 < ViewState.scale (FullScreenGraph.viewState s)
         /\ (exists t, FullScreenGraph.EdgeGroup.label line = Some t
                       /\ FullScreenGraph.SvgText.text t
                          = GraphEdge.label edge)
         /\ Forall (fun ng => FullScreenGraph.NodeGroup.label ng <> None)
              (FullScreenGraph.Scene.nodes scene))
    edges (FullScreenGraph.Scene.edges scene).
Proof.
  simpl. apply Forall2_map_all. intros edge line H Hl.
  destruct (full_renderEdge_label _ _ _ _ H Hl) as (Ho & Hs & Ht).
  repeat split; try assumption.
  apply Forall_map, Forall_forall. intros pn _. simpl.
  assert (G : gt (ViewState.scale (FullScreenGraph.viewState s)) 0.4 = true)
    by (apply gt_true; lra).
  rewrite G. discriminate.
Qed.

(** ** Size of strokes and fonts in reachable states *)

Lemma inv_bounds (z : R) :
  0.2 <= z <= 4 -> 0.25 <= / z <= 5.
Proof.
  intros Hz. assert (Hi : z * / z = 1) by (apply Rinv_r; lra).
  assert (0 < / z) by (apply Rinv_0_lt_compat; lra).
  split; nra.
Qed.

Lemma inv_above (z c : R) : 0 < c -> c < z -> c * / z < 1.
Proof.
  intros Hc Hz. assert (Hi : z * / z = 1) by (apply Rinv_r; lra).
  assert (0 < / z) by (apply Rinv_0_lt_compat; lra).
  nra.
Qed.

Lemma full_render_sizes (nodes : list GraphNode.t)
    (edges : list GraphEdge.t) (s : FullScreenGraph.State) :
  0.2 <= ViewState.scale (FullScreenGraph.viewState s) <= 4 ->
  Forall
    (fun g => forall line, g = Some line ->
       0.375 <= FullScreenGraph.EdgeGroup.strokeWidth line <= 15
       /\ forall t, FullScreenGraph.EdgeGroup.label line = Some t ->
                    4.5 <= FullScreenGraph.SvgText.fontSize t < 19)
    (FullScreenGraph.Scene.edges (FullScreenGraph.render nodes edges s))
  /\ Forall
       (fun ng =>
          0.25 <= FullScreenGraph.Circle.strokeWidth
                    (FullScreenGraph.NodeGroup.ring ng) <= 5
          /\ forall t, FullScreenGraph.NodeGroup.label ng = Some t ->
                       5 <= FullScreenGraph.SvgText.fontSize t < 42)
       (FullScreenGraph.Scene.nodes (FullScreenGraph.render nodes edges s)).
Proof.
  intros Hz. apply inv_bounds in Hz. unfold Rdiv. simpl. split.
  - apply Forall_map, Forall_forall. intros edge _ line.
    unfold FullScreenGraph.renderEdge.
    destruct (List.find _ _); [|discriminate].
    destruct (List.find _ _); [|discriminate].
    cbv zeta. intros H. injection H as <-. simpl. unfold Rdiv. split.
    + destruct (_ && _); lra.
    + intros txt.
      destruct (gt (ViewState.scale (FullScreenGraph.viewState s)) 0.6)
        eqn:G; [|rewrite andb_false_r; discriminate].
      apply gt_true in G. apply inv_above in G; [|lra].
      destruct (_ && true); [|discriminate].
      intros H. injection H as <-. simpl. lra.
  - apply Forall_map, Forall_forall. intros pn _. simpl. unfold Rdiv.
    split; [lra|].
    intros txt.
    destruct (gt (ViewState.scale (FullScreenGraph.viewState s)) 0.4)
      eqn:G; [|discriminate].
    apply gt_true in G. apply inv_above in G; [|lra].
    intros H. injection H as <-. simpl.
    destruct (strictEq _ _); lra.
Qed.

(** X10: in every state reached from the initial one by any event
    sequence, the sizes that the full-screen scene divides by the scale
    stay bounded, and the scale they are divided by is never zero: the
    stroke of an edge lies in [[0.375, 15]] and the stroke of a hover ring
    in [[0.25, 5]]; the font of an edge label lies in [[4.5, 19)] and the
    font of a node label in [[5, 42)], since a label is dropped before the
    scale gets small enough to blow it up further. *)
Theorem sizes_bounded_in_reachable_states (nodes : list GraphNode.t)
    (edges : list GraphEdge.t) (es : list FullScreenGraph.Event) :
  Forall
    (fun s =>
       ViewState.scale (FullScreenGraph.viewState s) <> 0
       /\ Forall
            (fun g => forall line, g = Some line ->
               0.375 <= FullScreenGraph.EdgeGroup.strokeWidth line <= 15
               /\ forall t, FullScreenGraph.EdgeGroup.label line = Some t ->
                            4.5 <= FullScreenGraph.SvgText.fontSize t < 19)
            (FullScreenGraph.Scene.edges
               (FullScreenGraph.render nodes edges s))
       /\ Forall
            (fun ng =>
               0.25 <= FullScreenGraph.Circle.strokeWidth
                         (FullScreenGraph.NodeGroup.ring ng) <= 5
               /\ forall t, FullScreenGraph.NodeGroup.label ng = Some t ->
                            5 <= FullScreenGraph.SvgText.fontSize t < 42)
            (FullScreenGraph.Scene.nodes
               (FullScreenGraph.render nodes edges s)))
    (FullScreenGraph.trace FullScreenGraph.initial es).
Proof.
  eapply Forall_impl;
    [exact (trace_in_zoom_range es _ initial_in_zoom_range)|].
  intros s Hs. unfold in_zoom_range in Hs.
  split; [lra|]. apply full_render_sizes, Hs.
Qed.

(** ** A hovered id that is not in the graph *)

Lemma strictEq_ne (h k : string) : h <> k -> strictEq (Some h) k = false.
Proof. intros H. simpl. apply String.eqb_neq, H. Qed.

Lemma findById_None (h : string) (f : GraphNode.t -> Point.t)
    (nodes : list GraphNode.t) :
  findById (Some h)
    (map (fun n => {| PositionedNode.node := n;
                      PositionedNode.pos := f n |}) nodes)
  = None <-> h ∉ map GraphNode.id nodes.
Proof.
  unfold findById.
  rewrite (find_positioned f (fun n => strictEq (Some h) (GraphNode.id n))).
  rewrite <- find_id_None.
  assert (E : List.find (fun n => strictEq (Some h) (GraphNode.id n)) nodes
              = List.find (fun n => String.eqb (GraphNode.id n) h) nodes).
  { induction nodes as [|a l IH]; [reflexivity|].
    cbn [List.find strictEq]. rewrite String.eqb_sym.
    destruct (String.eqb (GraphNode.id a) h); [reflexivity | exact IH]. }
  rewrite E. clear E.
  destruct (List.find (fun n => String.eqb (GraphNode.id n) h) nodes);
    simpl; split; congruence.
Qed.

(** X11: when the hovered id is a non-empty string that is the id of no
    node of the graph (the hover state outlives the node list it was set
    on), both components draw no tooltip and no node as hovered, but dim
    the whole graph: every node gets the reduced opacity and the small
    radius, and every rendered edge opacity 0.1 (and, full screen, no
    label). *)
Theorem stale_hover_dims_everything (nodes : list GraphNode.t)
    (edges : list GraphEdge.t) (h : string)
    (sF : FullScreenGraph.State) (sC : KnowledgeGraphViz.State) :
  h <> "" -> h ∉ map GraphNode.id nodes ->
  FullScreenGraph.hoveredNodeId sF = Some h ->
  KnowledgeGraphViz.hoveredNodeId sC = Some h ->
  let sceneF := FullScreenGraph.render nodes edges sF in
  let sceneC := KnowledgeGraphViz.render nodes edges sC in
  FullScreenGraph.Scene.tooltip sceneF = None
  /\ KnowledgeGraphViz.Scene.tooltip sceneC = None
  /\ Forall (fun g =>
               FullScreenGraph.NodeGroup.opacity g = 0.3
               /\ FullScreenGraph.Circle.r
                    (FullScreenGraph.NodeGroup.circle g) = 14
               /\ FullScreenGraph.Circle.r
                    (FullScreenGraph.NodeGroup.ring g) = 0)
       (FullScreenGraph.Scene.nodes sceneF)
  /\ Forall (fun g =>
               KnowledgeGraphViz.NodeGroup.opacity g = 0.2
               /\ KnowledgeGraphViz.Circle.r
                    (KnowledgeGraphViz.NodeGroup.circle g) = 6
               /\ KnowledgeGraphViz.Circle.r
                    (KnowledgeGraphViz.NodeGroup.ring g) = 0)
       (KnowledgeGraphViz.Scene.nodes sceneC)
  /\ Forall (fun g => forall line, g = Some line ->
               FullScreenGraph.EdgeGroup.opacity line = 0.1
               /\ FullScreenGraph.EdgeGroup.label line = None)
       (FullScreenGraph.Scene.edges sceneF)
  /\ Forall (fun g => forall line, g = Some line ->
               KnowledgeGraphViz.EdgeGroup.strokeOpacity line = 0.1)
       (KnowledgeGraphViz.Scene.edges sceneC).
Proof.
  intros Hne Hout HF HC. pose proof (truthy_Some h Hne) as Ht.
  assert (Hnode : forall n, n ∈ nodes -> strictEq (Some h) (GraphNode.id n)
                                        = false).
  { intros n Hn. apply strictEq_ne. intros ->. apply Hout.
    apply list_elem_of_fmap. eauto. }
  assert (HposF : forall pn, pn ∈ FullScreenGraph.nodePositions nodes ->
                             PositionedNode.node pn ∈ nodes).
  { intros pn Hpn. rewrite <- (full_nodePositions_nodes nodes).
    apply list_elem_of_fmap. eauto. }
  assert (HposC : forall pn, pn ∈ KnowledgeGraphViz.nodePositions nodes ->
                             PositionedNode.node pn ∈ nodes).
  { intros pn Hpn. rewrite <- (compact_nodePositions_nodes nodes).
    apply list_elem_of_fmap. eauto. }
  cbv zeta. unfold FullScreenGraph.render, KnowledgeGraphViz.render.
  cbn [FullScreenGraph.Scene.tooltip FullScreenGraph.Scene.nodes
       FullScreenGraph.Scene.edges KnowledgeGraphViz.Scene.tooltip
       KnowledgeGraphViz.Scene.nodes KnowledgeGraphViz.Scene.edges].
  split; [|split; [|split; [|split; [|split]]]].
  - unfold FullScreenGraph.activeNode, FullScreenGraph.nodePositions.
    rewrite HF, (proj2 (findById_None h _ nodes) Hout). reflexivity.
  - unfold KnowledgeGraphViz.activeNode, KnowledgeGraphViz.nodePositions.
    rewrite HC, (proj2 (findById_None h _ nodes) Hout). reflexivity.
  - apply Forall_map, Forall_forall. intros pn Hpn. simpl.
    rewrite HF, Ht, (Hnode _ (HposF _ Hpn)). simpl. repeat split.
  - apply Forall_map, Forall_forall. intros pn Hpn. simpl.
    rewrite HC, Ht, (Hnode _ (HposC _ Hpn)). simpl. repeat split.
  - apply Forall_map, Forall_forall. intros edge _ line Hline.
    destruct (full_renderEdge_Some _ _ _ _ Hline)
      as (st & en & Hst & Hen & Hfrom & Hto & _).
    pose proof (Hnode _ (HposF _ Hst)) as H1.
    pose proof (Hnode _ (HposF _ Hen)) as H2.
    rewrite Hfrom in H1. rewrite Hto in H2.
    split.
    + rewrite (full_renderEdge_opacity _ _ _ _ Hline), HF, Ht, H1, H2.
      reflexivity.
    + destruct (FullScreenGraph.EdgeGroup.label line) eqn:El;
        [|reflexivity].
      destruct (full_renderEdge_label _ _ _ _ Hline) as [Ho _];
        [rewrite El; discriminate|].
      rewrite (full_renderEdge_opacity _ _ _ _ Hline), HF, Ht, H1, H2
        in Ho.
      simpl in Ho. lra.
  - apply Forall_map, Forall_forall. intros edge _ line Hline.
    destruct (compact_renderEdge_Some _ _ _ _ Hline)
      as (st & en & Hst & Hen & Hfrom & Hto & _).
    pose proof (Hnode _ (HposC _ Hst)) as H1.
    pose proof (Hnode _ (HposC _ Hen)) as H2.
    rewrite Hfrom in H1. rewrite Hto in H2.
    rewrite (compact_renderEdge_opacity _ _ _ _ Hline), HC, Ht, H1, H2.
    reflexivity.
Qed.

Lemma ghost_not_in_scenarioA : "ghost" ∉ map GraphNode.id scenarioA.
Proof.
  intros H. simpl in H.
  repeat (apply elem_of_cons in H as [H|H]; [discriminate|]).
  apply elem_of_nil in H. exact H.
Defined.

Lemma ghost_not_empty : "ghost" <> "".
Proof. discriminate. Defined.

Lemma stale_hover_dims_everything_witness :
  let sceneF :=
    FullScreenGraph.render scenarioA [edgeAB]
      (FullScreenGraph.onMouseEnter nodeGhost FullScreenGraph.initial) in
  FullScreenGraph.Scene.tooltip sceneF = None
  /\ Forall (fun g => forall line, g = Some line ->
               FullScreenGraph.EdgeGroup.opacity line = 0.1
               /\ FullScreenGraph.EdgeGroup.label line = None)
       (FullScreenGraph.Scene.edges sceneF).
Proof.
  destruct (stale_hover_dims_everything scenarioA [edgeAB] "ghost"
              (FullScreenGraph.onMouseEnter nodeGhost FullScreenGraph.initial)
              (KnowledgeGraphViz.onMouseEnter nodeGhost
                 KnowledgeGraphViz.initial)
              ghost_not_empty ghost_not_in_scenarioA eq_refl eq_refl)
    as (H1 & _ & _ & _ & H5 & _).
  split; [exact H1 | exact H5].
Defined.

(** ** When the tooltip is drawn *)

Lemma findById_null (ns : list PositionedNode.t) : findById None ns = None.
Proof. induction ns as [|a l IH]; [reflexivity | exact IH]. Qed.

(** X12: in both components the tooltip is drawn exactly when the hovered
    id is the id of a node of the graph; without a hover, or with a
    hovered id that no node carries, there is none. *)
Theorem tooltip_iff_hovered_node (nodes : list GraphNode.t)
    (edges : list GraphEdge.t)
    (sF : FullScreenGraph.State) (sC : KnowledgeGraphViz.State) :
  (is_Some (FullScreenGraph.Scene.tooltip
              (FullScreenGraph.render nodes edges sF))
   <-> exists h, FullScreenGraph.hoveredNodeId sF = Some h
                 /\ h ∈ map GraphNode.id nodes)
  /\ (is_Some (KnowledgeGraphViz.Scene.tooltip
                 (KnowledgeGraphViz.render nodes edges sC))
      <-> exists h, KnowledgeGraphViz.hoveredNodeId sC = Some h
                    /\ h ∈ map GraphNode.id nodes).
Proof.
  split.
  - unfold FullScreenGraph.render. cbn [FullScreenGraph.Scene.tooltip].
    unfold FullScreenGraph.activeNode, FullScreenGraph.nodePositions.
    destruct (FullScreenGraph.hoveredNodeId sF) as [h|].
    + pose proof (findById_None h
                    (fun n => match FullScreenGraph.posMap nodes
                                      !! GraphNode.id n with
                              | Some p => p
                              | None => {| Point.x := FullScreenGraph.cx;
                                           Point.y := FullScreenGraph.cy |}
                              end) nodes) as Hfind.
      destruct (findById (Some h) _) as [a|]; simpl.
      * split; [|eauto]. intros _. exists h. split; [reflexivity|].
        destruct (decide (h ∈ map GraphNode.id nodes)) as [Hin|Hout];
          [exact Hin|].
        apply Hfind in Hout. discriminate.
      * split; [intros [x Hx]; discriminate|].
        intros (h' & Heq & Hin). injection Heq as <-.
        exfalso. exact (proj1 Hfind eq_refl Hin).
    + rewrite findById_null. simpl.
      split; [intros [x Hx]; discriminate|].
      intros (h' & Heq & _). discriminate.
  - unfold KnowledgeGraphViz.render. cbn [KnowledgeGraphViz.Scene.tooltip].
    unfold KnowledgeGraphViz.activeNode, KnowledgeGraphViz.nodePositions.
    destruct (KnowledgeGraphViz.hoveredNodeId sC) as [h|].
    + pose proof (findById_None h
                    (fun n => match KnowledgeGraphViz.posMap nodes
                                      !! GraphNode.id n with
                              | Some p => p
                              | None => {| Point.x := KnowledgeGraphViz.cx;
                                           Point.y := KnowledgeGraphViz.cy |}
                              end) nodes) as Hfind.
      destruct (findById (Some h) _) as [a|]; simpl.
      * split; [|eauto]. intros _. exists h. split; [reflexivity|].
        destruct (decide (h ∈ map GraphNode.id nodes)) as [Hin|Hout];
          [exact Hin|].
        apply Hfind in Hout. discriminate.
      * split; [intros [x Hx]; discriminate|].
        intros (h' & Heq & Hin). injection Heq as <-.
        exfalso. exact (proj1 Hfind eq_refl Hin).
    + rewrite findById_null. simpl.
      split; [intros [x Hx]; discriminate|].
      intros (h' & Heq & _). discriminate.
Qed.

(** ** The label of the compact tooltip *)





Lemma substring_0_all (n : nat) (s : string) :
  (String.length s <= n)%nat -> String.substring 0 n s = s.
Proof.
  revert s. induction n as [|n IH]; intros [|c s] H; simpl in *;
    try reflexivity; try lia.
  rewrite IH by lia. reflexivity.
Qed.


(** * Properties of the dashboard, the history and the application shell *)

Lemma filter_nil_existsb {A : Type} (f : A -> bool) (l : list A) :
  List.filter f l = [] <-> existsb f l = false.
Proof.
  induction l as [|a l IH]; simpl; [tauto|].
  destruct (f a); simpl; [split; discriminate|exact IH].
Qed.

Lemma column_cards_length (timeframe color message : string)
    (cs : list Consequence.t) :
  length (AnalysisDashboard.Column.cards
            (AnalysisDashboard.column timeframe color message (Some cs)))
  = length (List.filter
              (fun c => String.eqb (Consequence.timeframe c) timeframe) cs).
Proof.
  unfold AnalysisDashboard.column. simpl. apply length_map.
Qed.

Lemma column_message_iff (timeframe color message : string)
    (consequences : option (list Consequence.t)) :
  let col := AnalysisDashboard.column timeframe color message consequences in
  AnalysisDashboard.Column.emptyMessage col
  = (if (0 <? length (AnalysisDashboard.Column.cards col))%nat
     then None else Some message).
Proof.
  destruct consequences as [cs|]; [|reflexivity].
  cbv zeta. rewrite column_cards_length.
  unfold AnalysisDashboard.column; simpl.
  destruct (existsb _ cs) eqn:E; simpl.
  - destruct (List.filter _ cs) eqn:F; [|reflexivity].
    apply filter_nil_existsb in F. congruence.
  - apply filter_nil_existsb in E. rewrite E. reflexivity.
Qed.

Lemma timeframes_split (cs : list Consequence.t) :
  (length (List.filter
             (fun c => String.eqb (Consequence.timeframe c) "immediate") cs)
   + length (List.filter
               (fun c => String.eqb (Consequence.timeframe c) "short_term")
               cs)
   + length (List.filter
               (fun c => String.eqb (Consequence.timeframe c) "long_term")
               cs)
   + length (List.filter
               (fun c =>
                  negb (includes ["immediate"; "short_term"; "long_term"]
                          (Consequence.timeframe c))) cs)
   = length cs)%nat.
Proof.
  induction cs as [|c cs IH]; [reflexivity|].
  cbn [List.filter includes existsb].
  destruct (String.eqb_spec (Consequence.timeframe c) "immediate") as [E|E];
    destruct (String.eqb_spec (Consequence.timeframe c) "short_term")
      as [E1|E1];
    destruct (String.eqb_spec (Consequence.timeframe c) "long_term")
      as [E2|E2];
    try (rewrite E in *; discriminate);
    try (rewrite E1 in *; discriminate);
    cbn [includes existsb orb negb length] in *; lia.
Qed.

(** X14: on the impact tab each of the three columns shows its line
    "No ... impacts detected." exactly when it has no card; when the
    result has consequences the cards of the three columns and the
    consequences whose timeframe is none of immediate, short_term and
    long_term (which no column shows) add up to all consequences, and the
    legacy notice is hidden; when the result has none, the three columns
    are empty and the legacy notice is shown beside their three lines. *)
Theorem impact_tab_columns (result : AnalysisResult.t) :
  let tab := AnalysisDashboard.impactTab result in
  let cards col := length (AnalysisDashboard.Column.cards col) in
  let shown col := AnalysisDashboard.Column.emptyMessage col in
  shown (AnalysisDashboard.ImpactTab.immediate tab)
  = (if (0 <? cards (AnalysisDashboard.ImpactTab.immediate tab))%nat
     then None else Some "No immediate impacts detected.")
  /\ shown (AnalysisDashboard.ImpactTab.short_term tab)
     = (if (0 <? cards (AnalysisDashboard.ImpactTab.short_term tab))%nat
        then None else Some "No short term impacts detected.")
  /\ shown (AnalysisDashboard.ImpactTab.long_term tab)
     = (if (0 <? cards (AnalysisDashboard.ImpactTab.long_term tab))%nat
        then None else Some "No long term impacts detected.")
  /\ match AnalysisResult.consequences result with
     | Some cs =>
         AnalysisDashboard.ImpactTab.legacyFallback tab = false
         /\ (cards (AnalysisDashboard.ImpactTab.immediate tab)
             + cards (AnalysisDashboard.ImpactTab.short_term tab)
             + cards (AnalysisDashboard.ImpactTab.long_term tab)
             + length
                 (List.filter
                    (fun c =>
                       negb (includes
                               ["immediate"; "short_term"; "long_term"]
                               (Consequence.timeframe c))) cs)
             = length cs)%nat
     | None =>
         AnalysisDashboard.ImpactTab.legacyFallback tab = true
         /\ cards (AnalysisDashboard.ImpactTab.immediate tab) = 0%nat
         /\ cards (AnalysisDashboard.ImpactTab.short_term tab) = 0%nat
         /\ cards (AnalysisDashboard.ImpactTab.long_term tab) = 0%nat
     end.
Proof.
  cbv zeta. unfold AnalysisDashboard.impactTab.
  cbn [AnalysisDashboard.ImpactTab.immediate
       AnalysisDashboard.ImpactTab.short_term
       AnalysisDashboard.ImpactTab.long_term
       AnalysisDashboard.ImpactTab.legacyFallback].
  split; [apply column_message_iff|].
  split; [apply column_message_iff|].
  split; [apply column_message_iff|].
  destruct (AnalysisResult.consequences result) as [cs|].
  - split; [reflexivity|].
    rewrite !column_cards_length. apply timeframes_split.
  - repeat split; reflexivity.
Qed.

Lemma legacyImage_newItem (images : list string) :
  legacyImage
    match images with
    | i0 :: _ => if nonEmpty i0 then Some i0 else None
    | [] => None
    end
  = match images with
    | i0 :: _ => if nonEmpty i0 then [i0] else []
    | [] => []
    end.
Proof.
  destruct images as [|i0 rest]; [reflexivity|].
  unfold legacyImage. destruct (nonEmpty i0) eqn:E; [rewrite E|];
    reflexivity.
Qed.

(** X15: the history card's download button and the loading of a history
    item choose the images of an item by two different expressions; they
    disagree exactly on an item whose [images] is the empty array while
    its legacy [image] is a non-empty string (the download then gets no
    image, the dashboard the legacy one), and they agree, both giving the
    images of the analysis, on every item that [handleAnalyze] files. *)
Theorem history_images_agreement :
  (forall item : HistoryItem.t,
     HistoryView.pdfImages item <> App.loadedImages item
     <-> HistoryItem.images item = Some []
         /\ exists i, HistoryItem.image item = Some i /\ i <> ""
                      /\ HistoryView.pdfImages item = []
                      /\ App.loadedImages item = [i])
  /\ (forall images analysis now date,
        HistoryView.pdfImages (App.newItem images analysis now date)
        = images
        /\ App.loadedImages (App.newItem images analysis now date)
           = images).
Proof.
  split.
  - intros [id ts res image images chat].
    unfold HistoryView.pdfImages, App.loadedImages, legacyImage, nonEmpty.
    cbn [HistoryItem.images HistoryItem.image].
    destruct images as [[|i0 rest]|]; cbn [length Nat.ltb Nat.leb].
    + destruct image as [i|].
      * destruct (String.eqb_spec i "") as [E|E]; cbn [negb].
        -- split; [intros H; contradiction H; reflexivity|].
           intros [_ [j [Hj [Hne _]]]]. congruence.
        -- split; [|intros _; discriminate].
           intros _. split; [reflexivity|].
           exists i. repeat split; auto.
      * split; [intros H; contradiction H; reflexivity|].
        intros [_ [j [Hj _]]]. discriminate.
    + split; [intros H; contradiction H; reflexivity|].
      intros [H _]. discriminate.
    + split; [intros H; contradiction H; reflexivity|].
      intros [H _]. discriminate.
  - intros images analysis now date.
    unfold HistoryView.pdfImages, App.loadedImages, App.newItem.
    cbn [HistoryItem.images HistoryItem.image].
    split; [reflexivity|].
    rewrite legacyImage_newItem.
    destruct images as [|i0 rest]; reflexivity.
Qed.

Lemma updateChat_ids (historyId : string) (messages : list ChatMessage.t)
    (history : list HistoryItem.t) :
  map HistoryItem.id (App.updateChat historyId messages history)
  = map HistoryItem.id history.
Proof.
  unfold App.updateChat. rewrite map_map. apply map_ext.
  intros item. destruct (String.eqb _ _); reflexivity.
Qed.


(** X16: [handleChatUpdate] rewrites the history so that the items keep
    their ids and their order, every item with the given id carries
    exactly the given messages, every other item is left as it was, and
    each item keeps its result, images and timestamp; a second update of
    the same id replaces the first, and an id that no item has changes
    nothing. *)
Theorem chat_update_history (historyId : string)
    (messages earlier : list ChatMessage.t)
    (history : list HistoryItem.t) :
  let updated := App.updateChat historyId messages history in
  map HistoryItem.id updated = map HistoryItem.id history
  /\ map HistoryItem.result updated = map HistoryItem.result history
  /\ map HistoryItem.images updated = map HistoryItem.images history
  /\ map HistoryItem.image updated = map HistoryItem.image history
  /\ map HistoryItem.timestamp updated = map HistoryItem.timestamp history
  /\ map HistoryItem.chatHistory updated
     = map (fun item =>
              if String.eqb (HistoryItem.id item) historyId
              then Some messages else HistoryItem.chatHistory item)
           history
  /\ App.updateChat historyId messages
       (App.updateChat historyId earlier history) = updated
  /\ (if includes (map HistoryItem.id history) historyId
      then True else updated = history).
Proof.
  cbv zeta. split; [apply updateChat_ids|].
  unfold App.updateChat.
  repeat (split;
          [rewrite map_map; apply map_ext; intros item;
           destruct (String.eqb _ _); reflexivity|]).
  split.
  - rewrite map_map. apply map_ext. intros item.
    destruct (String.eqb (HistoryItem.id item) historyId) eqn:E.
    + cbn [App.withChat HistoryItem.id]. rewrite E. reflexivity.
    + rewrite E. reflexivity.
  - induction history as [|item history IH]; [reflexivity|].
    cbn [map includes existsb].
    rewrite String.eqb_sym.
    destruct (String.eqb (HistoryItem.id item) historyId) eqn:E;
      [exact I|].
    cbn [orb]. unfold includes in IH.
    destruct (existsb _ _); [exact I|].
    rewrite IH. reflexivity.
Qed.

Section Shell.

Variable stringify : list HistoryItem.t -> string.
Variable parse : string -> option (list HistoryItem.t).

Lemma saveEffect_fields (s : App.State) :
  App.result (App.saveEffect stringify s) = App.result s
  /\ App.activeHistoryItem (App.saveEffect stringify s)
     = App.activeHistoryItem s
  /\ App.history (App.saveEffect stringify s) = App.history s
  /\ App.isAnalyzing (App.saveEffect stringify s) = App.isAnalyzing s
  /\ App.currentView (App.saveEffect stringify s) = App.currentView s.
Proof.
  unfold App.saveEffect. destruct (0 <? _)%nat; repeat split; reflexivity.
Qed.

Lemma step_fields (s : App.State) (e : App.Event) :
  App.result (App.step stringify s e) = App.result (App.handle e s)
  /\ App.activeHistoryItem (App.step stringify s e)
     = App.activeHistoryItem (App.handle e s)
  /\ App.history (App.step stringify s e) = App.history (App.handle e s)
  /\ App.isAnalyzing (App.step stringify s e)
     = App.isAnalyzing (App.handle e s)
  /\ App.currentView (App.step stringify s e)
     = App.currentView (App.handle e s).
Proof.
  unfold App.step. destruct (App.setsHistory e);
    [apply saveEffect_fields|repeat split; reflexivity].
Qed.

Lemma run_invariant (P : App.State -> Prop) :
  (forall s e, P s -> P (App.step stringify s e)) ->
  forall es s, P s -> P (App.run stringify s es).
Proof.
  intros Hstep es. induction es as [|e es IH]; intros s Hs; [exact Hs|].
  apply IH, Hstep, Hs.
Qed.

Lemma result_of_active_step (s : App.State) (e : App.Event) :
  App.result s = None
  \/ option_map HistoryItem.result (App.activeHistoryItem s) = App.result s ->
  App.result (App.step stringify s e) = None
  \/ option_map HistoryItem.result
       (App.activeHistoryItem (App.step stringify s e))
     = App.result (App.step stringify s e).
Proof.
  intros H.
  destruct (step_fields s e) as [-> [-> _]].
  destruct e as [inputs|images analysis now date| | |view|item
                 |seen historyId messages|confirmed];
    cbn [App.handle App.analyzeStarted App.analyzeSucceeded
         App.analyzeFailed App.handleNewAnalysis App.handleNavigate
         App.loadHistoryItem App.handleChatUpdate
         App.result App.activeHistoryItem];
    auto.
  - destruct H as [H|H]; [auto|].
    destruct (App.activeHistoryItem s) as [a|]; [right; exact H|].
    left. symmetry. exact H.
  - destruct H as [H|H]; [auto|right].
    assert (Hw : option_map HistoryItem.result
                   (option_map (App.withChat messages)
                      (App.activeHistoryItem s))
                 = App.result s).
    { rewrite <- H. destruct (App.activeHistoryItem s); reflexivity. }
    destruct seen as [a|]; [|exact H].
    destruct (String.eqb _ _); [exact Hw|exact H].
  - unfold App.handleClearHistory. destruct confirmed; [left; reflexivity|].
    exact H.
Qed.

(** X17: in every state that the application reaches from its mount,
    whatever was stored and whatever events follow (each handler run to
    its end, the two halves of [handleAnalyze] being separate events with
    anything in between), a result is on screen only together with an
    active history item, and it is the result of that item: the dashboard's
    guard [result && activeHistoryItem] never hides a result, and the chat
    of the dashboard is filed under the item whose result is shown. *)
Theorem shown_result_is_of_active_item (saved : option string)
    (es : list App.Event) :
  let s := App.run stringify (App.mount stringify parse saved) es in
  App.result s = None
  \/ exists item,
       App.activeHistoryItem s = Some item
       /\ App.result s = Some (HistoryItem.result item).
Proof.
  cbv zeta.
  assert (H : App.result
                (App.run stringify (App.mount stringify parse saved) es)
              = None
              \/ option_map HistoryItem.result
                   (App.activeHistoryItem
                      (App.run stringify (App.mount stringify parse saved)
                         es))
                 = App.result
                     (App.run stringify (App.mount stringify parse saved)
                        es)).
  { apply (run_invariant
             (fun s => App.result s = None
                       \/ option_map HistoryItem.result
                            (App.activeHistoryItem s) = App.result s)).
    - intros s e. apply result_of_active_step.
    - left. unfold App.mount.
      destruct (saveEffect_fields
                  {| App.isAnalyzing := false; App.result := None;
                     App.error := None; App.userImages := [];
                     App.currentView := "dashboard";
                     App.history := App.loadHistory parse saved;
                     App.activeHistoryItem := None;
                     App.storage := saved |}) as [-> _].
      reflexivity. }
  destruct H as [H|H]; [left; exact H|].
  destruct (App.result _) as [r|] eqn:Er; [right|left; reflexivity].
  destruct (App.activeHistoryItem _) as [item|]; [|discriminate].
  exists item. split; [reflexivity|]. simpl in H. congruence.
Qed.




Lemma graph_item_step (s : App.State) (e : App.Event) :
  App.currentView s <> "graph" \/ App.history s = []
  \/ App.activeHistoryItem s <> None ->
  App.currentView (App.step stringify s e) <> "graph"
  \/ App.history (App.step stringify s e) = []
  \/ App.activeHistoryItem (App.step stringify s e) <> None.
Proof.
  intros H.
  destruct (step_fields s e) as [_ [-> [-> [_ ->]]]].
  destruct e as [inputs|images analysis now date| | |view|item
                 |seen historyId messages|confirmed];
    cbn [App.handle App.analyzeStarted App.analyzeSucceeded
         App.analyzeFailed App.handleNewAnalysis App.handleNavigate
         App.loadHistoryItem App.handleChatUpdate
         App.currentView App.history App.activeHistoryItem];
    try exact H; try (left; discriminate);
    try (right; right; discriminate).
  - destruct (String.eqb_spec view "graph") as [Hv|Hv]; [|left; exact Hv].
    right. destruct (App.history s) as [|first rest]; [left; reflexivity|].
    right. destruct (App.activeHistoryItem s); discriminate.
  - destruct H as [H|[H|H]]; [left; exact H| |right; right].
    + right. left. rewrite H. reflexivity.
    + assert (Hw : option_map (App.withChat messages)
                     (App.activeHistoryItem s) <> None)
        by (destruct (App.activeHistoryItem s);
            [discriminate|contradiction]).
      destruct seen as [a|]; [|exact H].
      destruct (String.eqb _ _); [exact Hw|exact H].
  - unfold App.handleClearHistory. destruct confirmed; [|exact H].
    left. discriminate.
Qed.

(** X24: the graph view has a graph to show whenever there is history.
    In every state that the application reaches from its mount, when the
    current view is the graph view and the history is not empty, there is
    an active history item (the one that [GraphView] draws): the notice
    "No Graph Data Available" then appears for lack of an item only while
    the history is empty. *)
Theorem graph_view_has_item (saved : option string) (es : list App.Event) :
  let s := App.run stringify (App.mount stringify parse saved) es in
  App.currentView s <> "graph" \/ App.history s = []
  \/ exists item, App.activeHistoryItem s = Some item.
Proof.
  cbv zeta.
  assert (H : App.currentView
                (App.run stringify (App.mount stringify parse saved) es)
              <> "graph"
              \/ App.history
                   (App.run stringify (App.mount stringify parse saved) es)
                 = []
              \/ App.activeHistoryItem
                   (App.run stringify (App.mount stringify parse saved) es)
                 <> None).
  { apply (run_invariant
             (fun s => App.currentView s <> "graph" \/ App.history s = []
                       \/ App.activeHistoryItem s <> None)).
    - intros s e. apply graph_item_step.
    - left. unfold App.mount.
      destruct (saveEffect_fields
                  {| App.isAnalyzing := false; App.result := None;
                     App.error := None; App.userImages := [];
                     App.currentView := "dashboard";
                     App.history := App.loadHistory parse saved;
                     App.activeHistoryItem := None;
                     App.storage := saved |}) as [_ [_ [_ [_ ->]]]].
      discriminate. }
  destruct H as [H|[H|H]]; [left; exact H|right; left; exact H|].
  right. right.
  destruct (App.activeHistoryItem _) as [item|]; [|contradiction].
  exists item. reflexivity.
Qed.

End Shell.

(** * Properties of the PDF report *)

Lemma calls_draw (cs : list Pdf.Call) (d : Pdf.Doc) :
  Pdf.calls (Pdf.draw cs d) = Pdf.calls d ++ cs.
Proof.
  revert d. induction cs as [|c cs IH]; intros d.
  - simpl. rewrite app_nil_r. reflexivity.
  - simpl. unfold Pdf.draw in IH. rewrite IH. simpl.
    rewrite <- app_assoc. reflexivity.
Qed.

Lemma pages_draw (cs : list Pdf.Call) (d : Pdf.Doc) :
  Pdf.pages (Pdf.draw cs d)
  = (Pdf.pages d + length (List.filter Pdf.isAddPage cs))%nat.
Proof.
  revert d. induction cs as [|c cs IH]; intros d.
  - simpl. lia.
  - simpl. unfold Pdf.draw in IH. rewrite IH.
    destruct c; simpl; lia.
Qed.

Lemma draw_app (cs cs' : list Pdf.Call) (d : Pdf.Doc) :
  Pdf.draw (cs ++ cs') d = Pdf.draw cs' (Pdf.draw cs d).
Proof.
  unfold Pdf.draw. apply fold_left_app.
Qed.

Lemma filter_isAddPage_nil (P : Pdf.Call -> Prop) (cs : list Pdf.Call) :
  ~ P Pdf.AddPage -> Forall P cs -> List.filter Pdf.isAddPage cs = [].
Proof.
  intros HP H. induction H as [|c cs Hc _ IH]; [reflexivity|].
  simpl. destruct c; simpl; try exact IH. contradiction.
Qed.

Section Extends.

Import Pdf.

Variable PAGE_HEIGHT PAGE_WIDTH : R.
Variable splitTextToSize : Doc -> string -> R -> list string.
Variable getImageProperties : string -> option (R * R).
Variable addImageOk : string -> bool.
Variable dateStr : string.
Variable numberToString : R -> string.
Variable toUpperCase : string -> string.

Variable P : Call -> Prop.
Hypothesis P_plain : forall c, plain c = true -> P c.

Lemma extends_refl (st : St) : extends P st st.
Proof.
  exists []. split; [reflexivity|constructor].
Qed.

Lemma extends_emit (c : Call) (st st' : St) :
  P c -> extends P st st' -> extends P st (emit c st').
Proof.
  intros Hc [tail [Hd Ht]]. exists (tail ++ [c]). split.
  - rewrite draw_app. simpl. rewrite Hd. reflexivity.
  - apply Forall_app. split; [exact Ht|]. constructor; [exact Hc|constructor].
Qed.

Lemma extends_setCursorY (y : R) (st st' : St) :
  extends P st st' -> extends P st (setCursorY y st').
Proof.
  intros H. exact H.
Qed.

Lemma extends_checkPageBreak (h : R) (st st' : St) :
  P AddPage -> extends P st st' ->
  extends P st (checkPageBreak PAGE_HEIGHT h st').
Proof.
  intros Ha H. unfold checkPageBreak. destruct (gt _ _); [|exact H].
  apply extends_setCursorY, extends_emit; assumption.
Qed.

Lemma extends_forEachSt {A : Type} (f : A -> St -> St) (l : list A)
    (st st' : St) :
  (forall x s, extends P st s -> extends P st (f x s)) ->
  extends P st st' -> extends P st (forEachSt f l st').
Proof.
  intros Hf. revert st'. induction l as [|x l IH]; intros st' H; [exact H|].
  simpl. apply IH, Hf, H.
Qed.

Lemma extends_calls (st st' : St) :
  extends P st st' ->
  exists tail, calls (doc st') = calls (doc st) ++ tail /\ Forall P tail
               /\ pages (doc st')
                  = (pages (doc st)
                     + length (List.filter isAddPage tail))%nat.
Proof.
  intros [tail [Hd Ht]]. exists tail.
  rewrite Hd, calls_draw, pages_draw. auto.
Qed.

Lemma extends_addSectionTitle (title : string) (r g b : nat) (st st' : St) :
  P AddPage -> extends P st st' ->
  extends P st (addSectionTitle PAGE_HEIGHT title r g b st').
Proof.
  intros Ha H. unfold addSectionTitle. cbv zeta.
  apply extends_setCursorY.
  repeat (apply extends_emit; [apply P_plain; reflexivity|]).
  apply extends_checkPageBreak; assumption.
Qed.

Lemma extends_addBodyText (text : string) (fontSize : R) (r g b : nat)
    (st st' : St) :
  P AddPage -> extends P st st' ->
  extends P st
    (addBodyText PAGE_HEIGHT PAGE_WIDTH splitTextToSize text fontSize r g b
       st').
Proof.
  intros Ha H. unfold addBodyText. cbv zeta.
  apply extends_setCursorY.
  apply extends_emit; [apply P_plain; reflexivity|].
  apply extends_checkPageBreak; [assumption|].
  repeat (apply extends_emit; [apply P_plain; reflexivity|]).
  exact H.
Qed.

Lemma extends_addBullet (text : string) (st st' : St) :
  P AddPage -> extends P st st' ->
  extends P st
    (addBullet PAGE_HEIGHT PAGE_WIDTH splitTextToSize text st').
Proof.
  intros Ha H. unfold addBullet. cbv zeta.
  apply extends_setCursorY.
  repeat (apply extends_emit; [apply P_plain; reflexivity|]).
  apply extends_checkPageBreak; assumption.
Qed.

Lemma extends_header (st st' : St) :
  extends P st st' -> extends P st (header PAGE_WIDTH dateStr st').
Proof.
  intros H. unfold header. cbv zeta.
  apply extends_setCursorY.
  repeat (apply extends_emit; [apply P_plain; reflexivity|]).
  exact H.
Qed.

Lemma extends_scoreBadge (score : R) (st st' : St) :
  (forall x y w h rx ry style, P (RoundedRect x y w h rx ry style)) ->
  extends P st st' ->
  extends P st (scoreBadge PAGE_WIDTH numberToString score st').
Proof.
  intros Hr H. unfold scoreBadge. cbv zeta.
  apply extends_emit; [apply P_plain; reflexivity|].
  assert (H1 : extends P st
                 (emit (SetFont "helvetica" "bold")
                    (emit (SetFontSize 20)
                       (emit (Text ["SCORE"] (PAGE_WIDTH - MARGIN - 30)
                                (cursorY st' + 10) (Some "center"))
                          (emit (SetFontSize 10)
                             (emit (SetTextColor 15 23 42)
                                (emit (RoundedRect
                                         (PAGE_WIDTH - MARGIN - 60)
                                         (cursorY st') 60 30 3 3 "FD")
                                   (emit (SetDrawColor 203 213 225)
                                      (emit (SetFillColor 241 245 249)
                                         st'))))))))).
  { repeat (apply extends_emit; [apply P_plain; reflexivity|]).
    apply extends_emit; [apply Hr|].
    repeat (apply extends_emit; [apply P_plain; reflexivity|]).
    exact H. }
  cbn [cursorY emit] in *.
  destruct (gt score 75); [|destruct (gt score 50)];
    (apply extends_emit; [apply P_plain; reflexivity|exact H1]).
Qed.

Lemma extends_placeImage (imgData : string) (i : nat) (st : St)
    (g : St * R) :
  P AddPage ->
  (forall x y h,
     getImageProperties imgData <> None ->
     addImageOk imgData = true ->
     x = MARGIN \/ x = MARGIN + (IMG_WIDTH PAGE_WIDTH + GAP) ->
     y + h <= PAGE_HEIGHT - MARGIN \/ y = MARGIN ->
     P (AddImage imgData "JPEG" x y (IMG_WIDTH PAGE_WIDTH) h)) ->
  extends P st (fst g) ->
  extends P st
    (fst (placeImage PAGE_HEIGHT PAGE_WIDTH getImageProperties addImageOk
            imgData i g)).
Proof.
  intros Ha Himg H. unfold placeImage.
  destruct (getImageProperties imgData) as [[width height]|] eqn:Eprops;
    [|exact H].
  cbv zeta.
  set (targetHeight := IMG_WIDTH PAGE_WIDTH / (width / height)).
  set (g1 := if ((i mod COL_COUNT =? 0)%nat && (0 <? i)%nat)%bool
             then (checkPageBreak PAGE_HEIGHT (targetHeight + GAP)
                     (setCursorY (cursorY (fst g) + (snd g + GAP)) (fst g)),
                   0)
             else (fst g, snd g)).
  assert (H1 : extends P st (fst g1)).
  { unfold g1. destruct (_ && _)%bool; [|exact H].
    cbn [fst]. apply extends_checkPageBreak; [exact Ha|].
    apply extends_setCursorY, H. }
  set (st2 := if gt (cursorY (fst g1) + targetHeight) (PAGE_HEIGHT - MARGIN)
              then setCursorY MARGIN (emit AddPage (fst g1))
              else fst g1).
  assert (H2 : extends P st st2
               /\ (cursorY st2 + targetHeight <= PAGE_HEIGHT - MARGIN
                   \/ cursorY st2 = MARGIN)).
  { unfold st2. unfold gt.
    destruct (Rlt_dec (PAGE_HEIGHT - MARGIN)
                (cursorY (fst g1) + targetHeight)) as [Hlt|Hge].
    - split; [|right; reflexivity].
      apply extends_setCursorY, extends_emit; assumption.
    - split; [exact H1|left; lra]. }
  destruct H2 as [H2 Hy].
  destruct (addImageOk imgData) eqn:Eok; cbn [fst]; [|exact H2].
  apply extends_emit; [apply P_plain; reflexivity|].
  apply extends_emit; [apply P_plain; reflexivity|].
  apply extends_emit; [|exact H2].
  apply Himg; [discriminate|reflexivity| |exact Hy].
  unfold COL_COUNT.
  destruct (Nat.mod_bound_pos i 2) as [_ Hlt]; [lia|lia|].
  destruct (i mod 2)%nat as [|[|k]] eqn:Em; [left|right|lia].
  - simpl. lra.
  - simpl. lra.
Qed.

Lemma extends_placeImages (images : list string) (st : St) :
  P AddPage ->
  (forall imgData x y h,
     In imgData images ->
     getImageProperties imgData <> None ->
     addImageOk imgData = true ->
     x = MARGIN \/ x = MARGIN + (IMG_WIDTH PAGE_WIDTH + GAP) ->
     y + h <= PAGE_HEIGHT - MARGIN \/ y = MARGIN ->
     P (AddImage imgData "JPEG" x y (IMG_WIDTH PAGE_WIDTH) h)) ->
  forall (i : nat) (g : St * R),
    extends P st (fst g) ->
    extends P st
      (fst (forEach_from
              (placeImage PAGE_HEIGHT PAGE_WIDTH getImageProperties
                 addImageOk) i images g)).
Proof.
  intros Ha. induction images as [|img images IH]; intros Himg i g H;
    [exact H|].
  cbn [forEach_from]. apply IH.
  - intros imgData x y h Hin. apply Himg. right. exact Hin.
  - apply extends_placeImage; [exact Ha| |exact H].
    intros x y h. apply Himg. left. reflexivity.
Qed.

Lemma extends_imageSection (score : R) (userImages : option (list string))
    (st st' : St) :
  P AddPage ->
  (forall x y w h rx ry style, P (RoundedRect x y w h rx ry style)) ->
  (forall imgData x y h,
     In imgData (match userImages with Some l => l | None => [] end) ->
     (100 < String.length imgData)%nat ->
     getImageProperties imgData <> None ->
     addImageOk imgData = true ->
     x = MARGIN \/ x = MARGIN + (IMG_WIDTH PAGE_WIDTH + GAP) ->
     y + h <= PAGE_HEIGHT - MARGIN \/ y = MARGIN ->
     P (AddImage imgData "JPEG" x y (IMG_WIDTH PAGE_WIDTH) h)) ->
  extends P st st' ->
  extends P st
    (imageSection PAGE_HEIGHT PAGE_WIDTH getImageProperties addImageOk
       numberToString score userImages st').
Proof.
  intros Ha Hr Himg H. unfold imageSection. cbv zeta.
  destruct (0 <? _)%nat; [|apply extends_setCursorY, H].
  apply extends_setCursorY. unfold forEach.
  apply extends_placeImages; [exact Ha| |].
  - intros imgData x y h Hin.
    apply filter_In in Hin. destruct Hin as [Hin Hvalid].
    apply andb_true_iff in Hvalid. destruct Hvalid as [_ Hlen].
    apply Nat.ltb_lt in Hlen. apply Himg; assumption.
  - cbn [fst]. apply extends_scoreBadge; [exact Hr|].
    repeat (apply extends_emit; [apply P_plain; reflexivity|]).
    exact H.
Qed.

Lemma extends_bullets {A : Type} (text : A -> string) (l : list A)
    (st st' : St) :
  P AddPage -> extends P st st' ->
  extends P st
    (forEachSt
       (fun x => addBullet PAGE_HEIGHT PAGE_WIDTH splitTextToSize (text x))
       l st').
Proof.
  intros Ha H. apply extends_forEachSt; [|exact H].
  intros x s Hs. apply extends_addBullet; assumption.
Qed.

Lemma extends_text_sections (result : AnalysisResult.t) (st st' : St) :
  P AddPage -> extends P st st' ->
  extends P st
    (mergeSection PAGE_HEIGHT PAGE_WIDTH splitTextToSize toUpperCase result
       (consequencesSection PAGE_HEIGHT PAGE_WIDTH splitTextToSize
          toUpperCase result
          (actionsSection PAGE_HEIGHT PAGE_WIDTH splitTextToSize result
             (insightsSection PAGE_HEIGHT PAGE_WIDTH splitTextToSize result
                (summarySection PAGE_HEIGHT PAGE_WIDTH splitTextToSize
                   result st'))))).
Proof.
  intros Ha H.
  assert (H1 : extends P st
                 (summarySection PAGE_HEIGHT PAGE_WIDTH splitTextToSize
                    result st')).
  { unfold summarySection. cbv zeta.
    apply extends_addBodyText; [exact Ha|].
    apply extends_addSectionTitle; assumption. }
  revert H1. generalize (summarySection PAGE_HEIGHT PAGE_WIDTH
                           splitTextToSize result st').
  clear st' H. intros st' H.
  assert (H1 : extends P st
                 (insightsSection PAGE_HEIGHT PAGE_WIDTH splitTextToSize
                    result st')).
  { unfold insightsSection. cbv zeta. apply extends_setCursorY.
    apply (extends_bullets (fun x => x)); [exact Ha|].
    apply extends_addSectionTitle; assumption. }
  revert H1. generalize (insightsSection PAGE_HEIGHT PAGE_WIDTH
                           splitTextToSize result st').
  clear st' H. intros st' H.
  assert (H1 : extends P st
                 (actionsSection PAGE_HEIGHT PAGE_WIDTH splitTextToSize
                    result st')).
  { unfold actionsSection. cbv zeta. apply extends_setCursorY.
    apply (extends_bullets (fun x => x)); [exact Ha|].
    apply extends_addSectionTitle; assumption. }
  revert H1. generalize (actionsSection PAGE_HEIGHT PAGE_WIDTH
                           splitTextToSize result st').
  clear st' H. intros st' H.
  assert (H1 : extends P st
                 (consequencesSection PAGE_HEIGHT PAGE_WIDTH splitTextToSize
                    toUpperCase result st')).
  { unfold consequencesSection.
    destruct (AnalysisResult.consequences result) as [cs|]; [|exact H].
    destruct (0 <? length cs)%nat; [|exact H]. cbv zeta.
    apply extends_forEachSt;
      [|apply extends_addSectionTitle; assumption].
    intros tf s Hs. unfold timeframeBlock. cbv zeta.
    destruct (0 <? _)%nat; [|exact Hs].
    apply extends_setCursorY.
    apply (extends_bullets (consequenceText toUpperCase)); [exact Ha|].
    apply extends_setCursorY.
    repeat (apply extends_emit; [apply P_plain; reflexivity|]).
    apply extends_checkPageBreak; assumption. }
  revert H1. generalize (consequencesSection PAGE_HEIGHT PAGE_WIDTH
                           splitTextToSize toUpperCase result st').
  clear st' H. intros st' H.
  unfold mergeSection.
  destruct (AnalysisResult.mergeConnections result) as [ms|]; [|exact H].
  destruct (0 <? length ms)%nat; [|exact H]. cbv zeta.
  apply extends_setCursorY.
  apply (extends_bullets (mergeText toUpperCase)); [exact Ha|].
  apply extends_addSectionTitle; assumption.
Qed.

Lemma extends_columnLines (x : R) (entries : list string) (st st' : St) :
  extends P st st' ->
  extends P st
    (forEachSt (columnLine PAGE_WIDTH splitTextToSize x) entries st').
Proof.
  intros H. apply extends_forEachSt; [|exact H].
  intros entry s Hs. unfold columnLine. cbv zeta.
  apply extends_setCursorY.
  apply extends_emit; [apply P_plain; reflexivity|exact Hs].
Qed.

Lemma extends_columns (result : AnalysisResult.t) (st : St) :
  extends P (checkPageBreak PAGE_HEIGHT 60 st)
    (risksAndOpportunities PAGE_HEIGHT PAGE_WIDTH splitTextToSize result st).
Proof.
  unfold risksAndOpportunities. cbv zeta.
  repeat first
    [ apply extends_columnLines
    | apply extends_emit; [apply P_plain; reflexivity|]
    | apply extends_setCursorY ].
  apply extends_refl.
Qed.

Lemma extends_trans (st1 st2 st3 : St) :
  extends P st1 st2 -> extends P st2 st3 -> extends P st1 st3.
Proof.
  intros [t1 [H1 F1]] [t2 [H2 F2]]. exists (t1 ++ t2). split.
  - rewrite draw_app, <- H1. exact H2.
  - apply Forall_app. split; assumption.
Qed.

Lemma extends_risksAndOpportunities (result : AnalysisResult.t)
    (st st' : St) :
  P AddPage -> extends P st st' ->
  extends P st
    (risksAndOpportunities PAGE_HEIGHT PAGE_WIDTH splitTextToSize result
       st').
Proof.
  intros Ha H.
  apply (extends_trans st (checkPageBreak PAGE_HEIGHT 60 st')).
  - apply extends_checkPageBreak; assumption.
  - apply extends_columns.
Qed.

Lemma extends_body (result : AnalysisResult.t)
    (userImages : option (list string)) :
  P AddPage ->
  (forall x y w h rx ry style, P (RoundedRect x y w h rx ry style)) ->
  (forall imgData x y h,
     In imgData (match userImages with Some l => l | None => [] end) ->
     (100 < String.length imgData)%nat ->
     getImageProperties imgData <> None ->
     addImageOk imgData = true ->
     x = MARGIN \/ x = MARGIN + (IMG_WIDTH PAGE_WIDTH + GAP) ->
     y + h <= PAGE_HEIGHT - MARGIN \/ y = MARGIN ->
     P (AddImage imgData "JPEG" x y (IMG_WIDTH PAGE_WIDTH) h)) ->
  extends P {| doc := newDoc; cursorY := 20 |}
    (body PAGE_HEIGHT PAGE_WIDTH splitTextToSize getImageProperties
       addImageOk dateStr numberToString toUpperCase result userImages).
Proof.
  intros Ha Hr Himg. unfold body. cbv zeta.
  apply extends_risksAndOpportunities; [exact Ha|].
  apply extends_text_sections; [exact Ha|].
  apply extends_imageSection; [exact Ha|exact Hr|exact Himg|].
  apply extends_header, extends_refl.
Qed.

Lemma extends_footer (st st' : St) :
  (forall n, P (SetPage n)) ->
  extends P st st' ->
  extends P st (footer PAGE_HEIGHT PAGE_WIDTH numberToString st').
Proof.
  intros Hs H. unfold footer. cbv zeta.
  apply extends_forEachSt; [|exact H].
  intros i s Hi. unfold footerOf. cbn [fold_left].
  repeat (apply extends_emit; [apply P_plain; reflexivity|]).
  apply extends_emit; [apply Hs|exact Hi].
Qed.

End Extends.

Section Report.

Import Pdf.

Variable PAGE_HEIGHT PAGE_WIDTH : R.
Variable splitTextToSize : Doc -> string -> R -> list string.
Variable getImageProperties : string -> option (R * R).
Variable addImageOk : string -> bool.
Variable dateStr : string.
Variable numberToString : R -> string.
Variable toUpperCase : string -> string.

Lemma doc_emits (cs : list Call) (st : St) :
  doc (fold_left (fun st c => emit c st) cs st) = draw cs (doc st).
Proof.
  revert st. induction cs as [|c cs IH]; intros st; [reflexivity|].
  simpl. rewrite IH. reflexivity.
Qed.

Lemma doc_forEach_emits {A : Type} (f : A -> list Call) (l : list A)
    (st : St) :
  doc (forEachSt
         (fun i st => fold_left (fun st c => emit c st) (f i) st) l st)
  = draw (flat_map f l) (doc st).
Proof.
  revert st. induction l as [|i l IH]; intros st; [reflexivity|].
  cbn [forEachSt fold_left flat_map]. unfold forEachSt in IH.
  rewrite IH, doc_emits, draw_app. reflexivity.
Qed.

Lemma footers_add_no_page (n : nat) (l : list nat) :
  List.filter isAddPage
    (flat_map (footerOf PAGE_HEIGHT PAGE_WIDTH numberToString n) l) = [].
Proof.
  induction l as [|i l IH]; [reflexivity|]. simpl. exact IH.
Qed.

(** X19: the report numbers its pages correctly.  The calls of
    [generatePDFReport] are those of the body, then for each page i = 1,
    ..., n in turn [setPage(i)] and the footer text "... Page i of n",
    then [save]; n is the number of pages of the document, which is one
    more than the number of [addPage] calls of the body, and the body
    itself never calls [setPage] or [save], so every page gets exactly one
    footer. *)
Theorem report_pages_and_footers (result : AnalysisResult.t)
    (userImages : option (list string)) :
  let b :=
    calls (doc (body PAGE_HEIGHT PAGE_WIDTH splitTextToSize
                  getImageProperties addImageOk dateStr numberToString
                  toUpperCase result userImages)) in
  let n := S (length (List.filter isAddPage b)) in
  let d :=
    generatePDFReport PAGE_HEIGHT PAGE_WIDTH splitTextToSize
      getImageProperties addImageOk dateStr numberToString toUpperCase
      result userImages in
  calls d
  = b ++ flat_map (footerOf PAGE_HEIGHT PAGE_WIDTH numberToString n)
           (seq 1 n)
      ++ [Save "Aether-Analysis-Report.pdf"]
  /\ pages d = n
  /\ Forall (fun c => match c with
                      | SetPage _ | Save _ => False
                      | _ => True
                      end) b.
Proof.
  cbv zeta.
  destruct (extends_calls _ _ _
              (extends_body PAGE_HEIGHT PAGE_WIDTH splitTextToSize
                 getImageProperties addImageOk dateStr numberToString
                 toUpperCase
                 (fun c => match c with
                           | SetPage _ | Save _ => False
                           | _ => True
                           end)
                 ltac:(intros c; destruct c; simpl; auto; discriminate)
                 result userImages I
                 ltac:(intros; exact I) ltac:(intros; exact I)))
    as [tail [Hcalls [Htail Hpages]]].
  cbn [doc calls pages newDoc app Nat.add] in Hcalls, Hpages.
  rewrite Hcalls.
  set (bd := body PAGE_HEIGHT PAGE_WIDTH splitTextToSize getImageProperties
               addImageOk dateStr numberToString toUpperCase result
               userImages) in *.
  unfold generatePDFReport. fold bd. cbv zeta.
  cbn [doc emit]. unfold footer. cbv zeta.
  rewrite doc_forEach_emits, Hpages.
  split; [|split; [|exact Htail]].
  - cbn [calls call]. rewrite calls_draw, Hcalls, <- app_assoc. reflexivity.
  - cbn [pages call]. rewrite pages_draw, footers_add_no_page, Hpages.
    simpl. lia.
Qed.

Lemma column_lines (x : R) (entries : list string) (st : St) :
  exists tail,
    doc (forEachSt (columnLine PAGE_WIDTH splitTextToSize x) entries st)
    = draw tail (doc st)
    /\ length tail = length entries
    /\ Forall (fun c => match c with
                        | Text _ x' y' None => x' = x /\ cursorY st <= y'
                        | _ => False
                        end) tail.
Proof.
  revert st. induction entries as [|entry entries IH]; intros st.
  - exists []. repeat split. constructor.
  - cbn [forEachSt fold_left]. unfold forEachSt in IH.
    set (lines := splitTextToSize (doc st)
                    (String.append "• " entry)
                    (CONTENT_WIDTH PAGE_WIDTH / 2 - 10)).
    destruct (IH (columnLine PAGE_WIDTH splitTextToSize x entry st))
      as [tail [Hd [Hl Hf]]].
    exists (Text lines x (cursorY st) None :: tail).
    split; [|split].
    + rewrite Hd. reflexivity.
    + simpl. rewrite Hl. reflexivity.
    + constructor; [split; [reflexivity|lra]|].
      eapply Forall_impl; [exact Hf|].
      intros c Hc. destruct c; try contradiction.
      destruct align; try contradiction.
      destruct Hc as [Hx Hy]. split; [exact Hx|].
      unfold columnLine in Hy. cbn [cursorY setCursorY emit] in Hy.
      fold lines in Hy.
      pose proof (pos_INR (length lines)). nra.
Qed.

(** X20: the last section of the report is never paginated.  After its
    one [checkPageBreak(60)] the section makes no [addPage] call, however
    long the two lists are: it draws the heading RISKS at the left margin
    and the heading OPPORTUNITIES at the middle of the page at the same
    height, and under each, in its own column and from 6 units below the
    headings downwards, one text per entry of the list (or the one entry
    "None detected." when the result has no such list). *)
Theorem risks_and_opportunities_columns (result : AnalysisResult.t)
    (st : St) :
  let st0 := checkPageBreak PAGE_HEIGHT 60 st in
  let st1 :=
    risksAndOpportunities PAGE_HEIGHT PAGE_WIDTH splitTextToSize result st in
  let y0 := cursorY st0 in
  let col2X := MARGIN + CONTENT_WIDTH PAGE_WIDTH / 2 + 5 in
  let riskLines :=
    match AnalysisResult.risks result with
    | Some risks => risks
    | None => ["None detected."]
    end in
  let oppLines :=
    match AnalysisResult.opportunities result with
    | Some opportunities => opportunities
    | None => ["None detected."]
    end in
  let column x (entries : list string) (texts : list Call) :=
    length texts = length entries
    /\ Forall (fun c => match c with
                        | Text _ x' y' None => x' = x /\ y0 + 6 <= y'
                        | _ => False
                        end) texts in
  exists risks opps,
    calls (doc st1)
    = calls (doc st0)
        ++ [SetFontSize 12; SetFont "helvetica" "bold";
            SetTextColor 239 68 68; Text ["RISKS"] MARGIN y0 None;
            SetFontSize 10; SetTextColor 51 65 85;
            SetFont "helvetica" "normal"]
        ++ risks
        ++ [SetFontSize 12; SetFont "helvetica" "bold";
            SetTextColor 16 185 129; Text ["OPPORTUNITIES"] col2X y0 None;
            SetFontSize 10; SetTextColor 51 65 85;
            SetFont "helvetica" "normal"]
        ++ opps
    /\ column MARGIN riskLines risks
    /\ column col2X oppLines opps
    /\ pages (doc st1) = pages (doc st0).
Proof.
  cbv zeta. unfold risksAndOpportunities. cbv zeta.
  set (st0 := checkPageBreak PAGE_HEIGHT 60 st).
  set (riskLines := match AnalysisResult.risks result with
                    | Some risks => risks
                    | None => ["None detected."]
                    end).
  set (oppLines := match AnalysisResult.opportunities result with
                   | Some opportunities => opportunities
                   | None => ["None detected."]
                   end).
  cbn [cursorY emit setCursorY doc].
  match goal with
  | |- context [forEachSt (columnLine _ _ MARGIN) riskLines ?s] =>
      destruct (column_lines MARGIN riskLines s) as [risks [Hr [Hrl Hrf]]];
      set (stR := forEachSt (columnLine PAGE_WIDTH splitTextToSize MARGIN)
                    riskLines s) in *
  end.
  match goal with
  | |- context [forEachSt (columnLine _ _ ?x) oppLines ?s] =>
      destruct (column_lines x oppLines s) as [opps [Ho [Hol Hof]]];
      set (stO := forEachSt (columnLine PAGE_WIDTH splitTextToSize x)
                    oppLines s) in *
  end.
  cbn [cursorY emit setCursorY doc] in Hr, Hrf, Ho, Hof.
  exists risks, opps.
  assert (Hdoc : doc stO
                 = draw
                     ([SetFontSize 12; SetFont "helvetica" "bold";
                       SetTextColor 239 68 68;
                       Text ["RISKS"] MARGIN (cursorY st0) None;
                       SetFontSize 10; SetTextColor 51 65 85;
                       SetFont "helvetica" "normal"]
                      ++ risks
                      ++ [SetFontSize 12; SetFont "helvetica" "bold";
                          SetTextColor 16 185 129;
                          Text ["OPPORTUNITIES"]
                            (MARGIN + CONTENT_WIDTH PAGE_WIDTH / 2 + 5)
                            (cursorY st0) None;
                          SetFontSize 10; SetTextColor 51 65 85;
                          SetFont "helvetica" "normal"]
                      ++ opps)
                     (doc st0)).
  { rewrite Ho, Hr, !draw_app. reflexivity. }
  rewrite Hdoc, calls_draw, pages_draw.
  split; [reflexivity|]. split; [split; [exact Hrl|exact Hrf]|].
  split; [split; [exact Hol|exact Hof]|].
  rewrite !List.filter_app.
  rewrite (filter_isAddPage_nil
             (fun c => match c with
                       | Text _ x' y' None =>
                           x' = MARGIN /\ cursorY st0 + 6 <= y'
                       | _ => False
                       end) risks) by (auto; exact Hrf).
  rewrite (filter_isAddPage_nil
             (fun c => match c with
                       | Text _ x' y' None =>
                           x' = MARGIN + CONTENT_WIDTH PAGE_WIDTH / 2 + 5
                           /\ cursorY st0 + 6 <= y'
                       | _ => False
                       end) opps) by (auto; exact Hof).
  simpl. lia.
Qed.

Lemma extends_count (st st' : St) :
  extends (fun c => isRoundedRect c = false) st st' ->
  List.filter isRoundedRect (calls (doc st'))
  = List.filter isRoundedRect (calls (doc st)).
Proof.
  intros [tail [Hd Ht]]. rewrite Hd, calls_draw, List.filter_app.
  assert (Hn : List.filter isRoundedRect tail = []).
  { clear Hd. induction Ht as [|c cs Hc _ IH]; [reflexivity|].
    simpl. rewrite Hc. exact IH. }
  rewrite Hn, app_nil_r. reflexivity.
Qed.

Lemma plain_not_rounded (c : Call) :
  plain c = true -> isRoundedRect c = false.
Proof.
  destruct c; simpl; auto; discriminate.
Qed.

Lemma scoreBadge_count (score : R) (st : St) :
  length (List.filter isRoundedRect
            (calls (doc (scoreBadge PAGE_WIDTH numberToString score st))))
  = S (length (List.filter isRoundedRect (calls (doc st)))).
Proof.
  unfold scoreBadge. cbv zeta.
  destruct (gt score 75); [|destruct (gt score 50)];
    cbn [doc emit calls call cursorY];
    rewrite !List.filter_app; cbn [List.filter isRoundedRect];
    rewrite !length_app; simpl; lia.
Qed.

(** X21: the score badge of the report needs images.  The rounded
    rectangle of the score badge is drawn exactly once when the
    list of images handed to [generatePDFReport] is not empty (also when
    none of them passes the validity filter or can be drawn), and not at
    all when the list is empty, [null] or [undefined]; nothing else in
    the report draws a rounded rectangle. *)
Theorem score_badge_iff_images (result : AnalysisResult.t)
    (userImages : option (list string)) :
  length (List.filter isRoundedRect
            (calls (generatePDFReport PAGE_HEIGHT PAGE_WIDTH splitTextToSize
                      getImageProperties addImageOk dateStr numberToString
                      toUpperCase result userImages)))
  = (if (0 <? length (match userImages with
                      | Some images => images
                      | None => []
                      end))%nat
     then 1 else 0)%nat.
Proof.
  pose (Q := fun c => isRoundedRect c = false).
  assert (Hplain : forall c, plain c = true -> Q c)
    by exact plain_not_rounded.
  unfold generatePDFReport. cbv zeta.
  match goal with
  | |- context [emit ?c (footer _ _ _ ?b)] =>
      assert (Hend : extends Q b (emit c (footer PAGE_HEIGHT PAGE_WIDTH
                                            numberToString b)))
  end.
  { apply extends_emit; [reflexivity|].
    apply extends_footer; [exact Hplain|reflexivity|].
    apply extends_refl. }
  rewrite (extends_count _ _ Hend). clear Hend.
  unfold body. cbv zeta.
  set (st1 := header PAGE_WIDTH dateStr {| doc := newDoc; cursorY := 20 |}).
  assert (H1 : List.filter isRoundedRect (calls (doc st1)) = []).
  { apply (extends_count {| doc := newDoc; cursorY := 20 |}).
    apply extends_header; [exact Hplain|apply extends_refl]. }
  match goal with
  | |- context [risksAndOpportunities _ _ _ _ (mergeSection _ _ _ _ _ ?t)] =>
      match t with
      | context [summarySection _ _ _ _ ?s] =>
          assert (Hrest : extends Q s
                            (risksAndOpportunities PAGE_HEIGHT PAGE_WIDTH
                               splitTextToSize result
                               (mergeSection PAGE_HEIGHT PAGE_WIDTH
                                  splitTextToSize toUpperCase result t)))
      end
  end.
  { apply extends_risksAndOpportunities; [exact Hplain|reflexivity|].
    apply extends_text_sections; [exact Hplain|reflexivity|].
    apply extends_refl. }
  rewrite (extends_count _ _ Hrest). clear Hrest.
  unfold imageSection. cbv zeta.
  destruct (0 <? _)%nat.
  - cbn [doc setCursorY]. unfold forEach.
    match goal with
    | |- context [forEach_from _ 0%nat ?l (?s, 0)] =>
        assert (Hloop : extends Q s
                          (fst (forEach_from
                                  (placeImage PAGE_HEIGHT PAGE_WIDTH
                                     getImageProperties addImageOk)
                                  0%nat l (s, 0))))
    end.
    { apply extends_placeImages;
        [exact Hplain|reflexivity|intros; reflexivity|].
      apply extends_refl. }
    rewrite (extends_count _ _ Hloop). clear Hloop.
    rewrite scoreBadge_count. cbn [doc emit calls call].
    rewrite !List.filter_app. cbn [List.filter isRoundedRect].
    rewrite !app_nil_r, H1. reflexivity.
  - cbn [doc setCursorY]. rewrite H1. reflexivity.
Qed.

(** X22: the images of the report lie on a grid of two columns.  Every
    [addImage] call of [generatePDFReport] draws one of the images handed
    in, one that is longer than 100 characters, whose properties could be
    read and that [addImage] accepted; it draws it as JPEG, IMG_WIDTH
    wide, with its left edge at the left margin or at the second column,
    and either entirely above the bottom margin or starting at the top
    margin of a page added for it.  The second column ends exactly at the
    right margin. *)
Theorem images_on_grid (result : AnalysisResult.t)
    (userImages : option (list string)) :
  Forall
    (fun c =>
       match c with
       | AddImage imageData format x y w h =>
           In imageData (match userImages with
                         | Some images => images
                         | None => []
                         end)
           /\ (100 < String.length imageData)%nat
           /\ getImageProperties imageData <> None
           /\ addImageOk imageData = true
           /\ format = "JPEG"
           /\ w = IMG_WIDTH PAGE_WIDTH
           /\ (x = MARGIN \/ x = MARGIN + (IMG_WIDTH PAGE_WIDTH + GAP))
           /\ (y + h <= PAGE_HEIGHT - MARGIN \/ y = MARGIN)
       | _ => True
       end)
    (calls (generatePDFReport PAGE_HEIGHT PAGE_WIDTH splitTextToSize
              getImageProperties addImageOk dateStr numberToString
              toUpperCase result userImages))
  /\ MARGIN + (IMG_WIDTH PAGE_WIDTH + GAP) + IMG_WIDTH PAGE_WIDTH
     = PAGE_WIDTH - MARGIN.
Proof.
  split.
  - set (Q := fun c =>
                match c with
                | AddImage imageData format x y w h =>
                    In imageData (match userImages with
                                  | Some images => images
                                  | None => []
                                  end)
                    /\ (100 < String.length imageData)%nat
                    /\ getImageProperties imageData <> None
                    /\ addImageOk imageData = true
                    /\ format = "JPEG"
                    /\ w = IMG_WIDTH PAGE_WIDTH
                    /\ (x = MARGIN
                        \/ x = MARGIN + (IMG_WIDTH PAGE_WIDTH + GAP))
                    /\ (y + h <= PAGE_HEIGHT - MARGIN \/ y = MARGIN)
                | _ => True
                end).
    assert (Hplain : forall c, plain c = true -> Q c).
    { intros c. destruct c; simpl; auto; discriminate. }
    assert (H : extends Q {| doc := newDoc; cursorY := 20 |}
                  (emit (Save "Aether-Analysis-Report.pdf")
                     (footer PAGE_HEIGHT PAGE_WIDTH numberToString
                        (body PAGE_HEIGHT PAGE_WIDTH splitTextToSize
                           getImageProperties addImageOk dateStr
                           numberToString toUpperCase result userImages)))).
    { apply extends_emit; [exact I|].
      apply extends_footer; [exact Hplain|intros; exact I|].
      apply extends_body; [exact Hplain|exact I|intros; exact I|].
      intros imgData x y h Hin Hlen Hprops Hok Hx Hy.
      simpl. repeat split; assumption. }
    destruct (extends_calls _ _ _ H) as [tail [Hcalls [Htail _]]].
    unfold generatePDFReport. cbv zeta. rewrite Hcalls. exact Htail.
  - unfold IMG_WIDTH, CONTENT_WIDTH, COL_COUNT, GAP, MARGIN. simpl. lra.
Qed.

(** X23: a bullet that fits on a page is not cut by the bottom margin.
    When the wrapped lines of a bullet, at 5 units a line plus 2, fit
    between the top and the bottom margin of an empty page, [addBullet]
    draws them (the lines that it measured, 5 units right of the left
    margin and at the height of the bullet sign) so that the block ends
    at or above the bottom margin, where it leaves the cursor; it adds at
    most one page to do so. *)
Theorem bullet_above_bottom_margin (text : string) (st : St) :
  let lines :=
    splitTextToSize (doc st) text (CONTENT_WIDTH PAGE_WIDTH - 5) in
  let blockHeight := INR (length lines) * 5 in
  let st' := addBullet PAGE_HEIGHT PAGE_WIDTH splitTextToSize text st in
  MARGIN + (blockHeight + 2) <= PAGE_HEIGHT - MARGIN ->
  exists y,
    (calls (doc st')
     = calls (doc st)
         ++ [SetFontSize 10; SetTextColor 51 65 85;
             Text ["•"] MARGIN y None; Text lines (MARGIN + 5) y None]
     \/ calls (doc st')
        = calls (doc st)
            ++ [AddPage; SetFontSize 10; SetTextColor 51 65 85;
                Text ["•"] MARGIN y None; Text lines (MARGIN + 5) y None])
    /\ cursorY st' = y + (blockHeight + 2)
    /\ cursorY st' <= PAGE_HEIGHT - MARGIN.
Proof.
  cbv zeta. intros Hfit. unfold addBullet. cbv zeta.
  set (lines := splitTextToSize (doc st) text (CONTENT_WIDTH PAGE_WIDTH - 5))
    in *.
  unfold checkPageBreak, gt.
  destruct (Rlt_dec (PAGE_HEIGHT - MARGIN)
              (cursorY st + (INR (length lines) * 5 + 2))) as [Hlt|Hge].
  - exists MARGIN. cbn [cursorY doc emit setCursorY calls call].
    split; [right; rewrite <- !app_assoc; reflexivity|].
    split; [reflexivity|lra].
  - exists (cursorY st). cbn [cursorY doc emit setCursorY calls call].
    split; [left; rewrite <- !app_assoc; reflexivity|].
    split; [reflexivity|lra].
Qed.

End Report.

Lemma bullet_above_bottom_margin_witness :
  Pdf.MARGIN + (INR (length ["one line"]) * 5 + 2) <= 297 - Pdf.MARGIN
  /\ exists y,
       (Pdf.calls
          (Pdf.doc
             (Pdf.addBullet 297 210 (fun _ _ _ => ["one line"]) "one line"
                {| Pdf.doc := Pdf.newDoc; Pdf.cursorY := 280 |}))
        = Pdf.calls Pdf.newDoc
            ++ [Pdf.SetFontSize 10; Pdf.SetTextColor 51 65 85;
                Pdf.Text ["•"] Pdf.MARGIN y None;
                Pdf.Text ["one line"] (Pdf.MARGIN + 5) y None]
        \/ Pdf.calls
             (Pdf.doc
                (Pdf.addBullet 297 210 (fun _ _ _ => ["one line"])
                   "one line"
                   {| Pdf.doc := Pdf.newDoc; Pdf.cursorY := 280 |}))
           = Pdf.calls Pdf.newDoc
               ++ [Pdf.AddPage; Pdf.SetFontSize 10;
                   Pdf.SetTextColor 51 65 85;
                   Pdf.Text ["•"] Pdf.MARGIN y None;
                   Pdf.Text ["one line"] (Pdf.MARGIN + 5) y None])
       /\ Pdf.cursorY
            (Pdf.addBullet 297 210 (fun _ _ _ => ["one line"]) "one line"
               {| Pdf.doc := Pdf.newDoc; Pdf.cursorY := 280 |})
          = y + (INR (length ["one line"]) * 5 + 2)
       /\ Pdf.cursorY
            (Pdf.addBullet 297 210 (fun _ _ _ => ["one line"]) "one line"
               {| Pdf.doc := Pdf.newDoc; Pdf.cursorY := 280 |})
          <= 297 - Pdf.MARGIN.
Proof.
  assert (H : Pdf.MARGIN + (INR (length ["one line"]) * 5 + 2)
              <= 297 - Pdf.MARGIN).
  { unfold Pdf.MARGIN. simpl. lra. }
  split; [exact H|].
  exact (bullet_above_bottom_margin 297 210 (fun _ _ _ => ["one line"])
           "one line" {| Pdf.doc := Pdf.newDoc; Pdf.cursorY := 280 |} H).
Defined.
